(** * IR simplifier of the tensor-expression compiler

    A shallow embedding of [torch/csrc/jit/tensorexpr/ir_simplifier.h]:
    the dtype-promotion helpers, the [Term] and [Polynomial] node
    constructors, the generic binary fold [mutateBinaryOp] of the
    [PolynomialTransformer], and the [IRSimplifier] facade.

    Conventions of the embedding.
    - A [const Expr*] is a value that carries the address of the node it
      points to; nodes are immutable, so a pointer comparison [a != b] is
      the comparison of the two addresses.
    - A C++ exception or a failed [CHECK] is the [Err] branch of [result];
      code that allocates or calls a mutator threads its state explicitly.
    - What the header uses but does not define ([promoteTypes],
      [evaluateOp], the mutators' dispatch, ...) is a parameter of the
      section that needs it. *)

From Stdlib Require Import ZArith NArith List String Ascii Bool Lia.
From Stdlib Require Import Sorted Permutation.
Import ListNotations.

Local Open Scope Z_scope.
Local Open Scope string_scope.
Local Open Scope list_scope.

Set Implicit Arguments.

(* ================================================================== *)
(** ** Failures *)

(** [malformed_input] is the exception of the tensorexpr component,
    [check_failure] the abort of a failed [CHECK(...)], [other_failure]
    whatever an external collaborator raises. *)
Inductive failure : Type :=
| malformed_input (what : string)
| check_failure (condition : string)
| other_failure (what : string).

Inductive result (A : Type) : Type :=
| Ok (a : A)
| Err (f : failure).

Arguments Ok {A} a.
Arguments Err {A} f.

Definition bind_result {A B : Type} (m : result A) (k : A -> result B)
  : result B :=
  match m with
  | Ok a => k a
  | Err f => Err f
  end.

Definition failed {A : Type} (m : result A) : Prop :=
  match m with
  | Ok _ => False
  | Err _ => True
  end.

Declare Scope result_scope.
Delimit Scope result_scope with result.
Notation "x <- m ;; k" := (bind_result m (fun x => k))
  (at level 61, m at next level, right associativity) : result_scope.
Notation "' p <- m ;; k" :=
  (bind_result m (fun x => match x with p => k end))
  (at level 61, p pattern, m at next level, right associativity)
  : result_scope.
Local Open Scope result_scope.

(** [CHECK(cond)]: continue when the condition holds, abort otherwise. *)
Definition CHECK (cond : bool) (text : string) : result unit :=
  if cond then Ok tt else Err (check_failure text).

(* ================================================================== *)
(** ** Dtypes *)

Inductive ScalarType : Type :=
| Byte | Char | Short | Int | Long | Half | Float | Double | Bool.

(** Modelled from the spec: [Dtype] is declared in [types.h], outside this
    header; the spec has it as the scalar/lane model
    [Dtype{scalar_type, lanes}], a scalar element type and a lane count. *)
Record Dtype : Type := mkDtype {
  scalar_type : ScalarType;
  lanes : Z
}.

(* ================================================================== *)
(** ** Expression nodes *)

(** Address of a node; [SimplifierHashType] is the hash value type. *)
Definition addr := N.
Definition SimplifierHashType := N.

Inductive IRNodeType : Type :=
| kAdd | kSub | kMul | kDiv | kMod | kMax | kMin
| kAnd | kOr | kLshift | kRshift | kXor | kRoundOff
| kBroadcast | kRamp | kPrimitive | kOther.

(** Modelled from the spec: the node hierarchy ([Expr], [BinaryOpNode],
    the immediates, ...) is declared in [ir.h], outside this header; the
    spec has every node carry a dtype and a boolean "is a literal
    constant" predicate, binary nodes carry two operands, and [Max] and
    [Min] a NaN-propagation flag.  This is the part of the hierarchy the
    header touches.  Every node has its address and its dtype.
    [BinaryOpNode] has the two operands and its [expr_type]; the
    [propagate_nans] member exists on [Max] and [Min] only and reads
    [false] on the other kinds.  [Term] and [Polynomial] are the two
    classes the header defines, with the members it gives them; their
    [hasher_] reference is not stored in the value, the functions that use
    it take the hasher as an argument. *)
Local Unset Elimination Schemes.

Inductive Expr : Type :=
| Imm (this : addr) (dt : Dtype) (value : Z)
| Var (this : addr) (dt : Dtype) (name_hint : string)
| BinaryOp (v : BinaryOpNode)
| TermE (t : Term)
| PolynomialE (p : Polynomial)
| OtherExpr (this : addr) (dt : Dtype) (ty : IRNodeType) (operands : list Expr)
with BinaryOpNode : Type :=
| mkBinaryOpNode (this : addr) (dt : Dtype) (ty : IRNodeType)
                 (lhs_ rhs_ : Expr) (propagate_nans_ : bool)
with Term : Type :=
| mkTerm (this : addr) (dt : Dtype) (variables_ : list Expr) (scalar_ : Expr)
with Polynomial : Type :=
| mkPolynomial (this : addr) (dt : Dtype) (variables_ : list Term)
               (scalar_ : Expr).

Local Set Elimination Schemes.

Module BinaryOpNode_.
Definition address (v : BinaryOpNode) : addr :=
  let 'mkBinaryOpNode a _ _ _ _ _ := v in a.
Definition dtype (v : BinaryOpNode) : Dtype :=
  let 'mkBinaryOpNode _ dt _ _ _ _ := v in dt.
Definition expr_type (v : BinaryOpNode) : IRNodeType :=
  let 'mkBinaryOpNode _ _ ty _ _ _ := v in ty.
Definition lhs (v : BinaryOpNode) : Expr :=
  let 'mkBinaryOpNode _ _ _ l _ _ := v in l.
Definition rhs (v : BinaryOpNode) : Expr :=
  let 'mkBinaryOpNode _ _ _ _ r _ := v in r.
Definition propagate_nans (v : BinaryOpNode) : bool :=
  let 'mkBinaryOpNode _ _ _ _ _ b := v in b.
End BinaryOpNode_.

Module Term_.
Definition address (t : Term) : addr := let 'mkTerm a _ _ _ := t in a.
Definition dtype (t : Term) : Dtype := let 'mkTerm _ dt _ _ := t in dt.
Definition variables (t : Term) : list Expr :=
  let 'mkTerm _ _ vs _ := t in vs.
Definition scalar (t : Term) : Expr := let 'mkTerm _ _ _ s := t in s.
End Term_.

Module Polynomial_.
Definition address (p : Polynomial) : addr :=
  let 'mkPolynomial a _ _ _ := p in a.
Definition dtype (p : Polynomial) : Dtype :=
  let 'mkPolynomial _ dt _ _ := p in dt.
Definition variables (p : Polynomial) : list Term :=
  let 'mkPolynomial _ _ vs _ := p in vs.
Definition scalar (p : Polynomial) : Expr :=
  let 'mkPolynomial _ _ _ s := p in s.
End Polynomial_.

(** The address a [const Expr*] holds. *)
Definition address (e : Expr) : addr :=
  match e with
  | Imm a _ _ => a
  | Var a _ _ => a
  | BinaryOp v => BinaryOpNode_.address v
  | TermE t => Term_.address t
  | PolynomialE p => Polynomial_.address p
  | OtherExpr a _ _ _ => a
  end.

(** [a == b] on two [const Expr*]. *)
Definition ptr_eqb (a b : Expr) : bool := N.eqb (address a) (address b).

(** [e->dtype()]. *)
Definition dtype (e : Expr) : Dtype :=
  match e with
  | Imm _ dt _ => dt
  | Var _ dt _ => dt
  | BinaryOp v => BinaryOpNode_.dtype v
  | TermE t => Term_.dtype t
  | PolynomialE p => Polynomial_.dtype p
  | OtherExpr _ dt _ _ => dt
  end.

(** Modelled from the spec: [isConstant] is declared in [ir.h], outside
    this header; the spec has it as the boolean "is a literal constant"
    predicate of a node: true on the immediates, false on every other
    node. *)
Definition isConstant (e : Expr) : bool :=
  match e with
  | Imm _ _ _ => true
  | _ => false
  end.

(** [e->expr_type()]. *)
Definition expr_type (e : Expr) : IRNodeType :=
  match e with
  | BinaryOp v => BinaryOpNode_.expr_type v
  | OtherExpr _ _ ty _ => ty
  | _ => kPrimitive
  end.

(** The template parameter [ExprType] of the promotion helpers ranges over
  the node classes; each converts to [const Expr*]. *)
Class ExprNode (T : Type) : Type := upcast : T -> Expr.

#[global] Instance ExprNode_Expr : ExprNode Expr := fun e => e.
#[global] Instance ExprNode_Term : ExprNode Term := TermE.
#[global] Instance ExprNode_Polynomial : ExprNode Polynomial := PolynomialE.
#[global] Instance ExprNode_BinaryOpNode : ExprNode BinaryOpNode := BinaryOp.

(** Helper for determining if an Expr is a multi-lane primitive. *)
Definition isMultilanePrimitive (e : Expr) : bool :=
  match expr_type e with
  | kBroadcast | kRamp => true
  | _ => false
  end.

(* ================================================================== *)
(** ** Loops over a container, in the [result] monad *)

(** [for (auto* e : v) body]: the loop state is threaded through the
  elements in order; a failing iteration ends the loop. *)
Fixpoint for_each {A S : Type} (body : S -> A -> result S) (v : list A)
  (s : S) : result S :=
  match v with
  | [] => Ok s
  | e :: v' => s' <- body s e ;; for_each body v' s'
  end.

(** A [std::unordered_map<SimplifierHashType, const ExprType*>] is the
  sequence of its entries in the order its iteration visits them. *)
Definition unordered_map (T : Type) : Type := list (SimplifierHashType * T).

(* ================================================================== *)
(** ** Dtype promotion helpers *)

Section Promotion.

(** [promoteTypes] of [types.h]; it may raise. *)
Variable promoteTypes : Dtype -> Dtype -> result Dtype.

Section Containers.
Context {ExprType : Type} `{ExprNode ExprType}.

(** Body of the loop shared by [promoteTypesVec(s, v)] and
    [promoteTypesMap]: the state is the pair of locals [(t, first)]. *)
Definition promote_loop_body (st : Dtype * bool) (e : ExprType)
  : result (Dtype * bool) :=
  let '(t, first) := st in
  let '(t, first) :=
    if first
    then (mkDtype (scalar_type t) (lanes (dtype (upcast e))), false)
    else (t, first) in
  t' <- promoteTypes t (dtype (upcast e)) ;;
  Ok (t', first).

(** [Dtype promoteTypesVec(const Expr* s, std::vector<const ExprType*>& v)] *)
Definition promoteTypesVec (s : Expr) (v : list ExprType) : result Dtype :=
  st <- for_each promote_loop_body v (dtype s, true) ;;
  Ok (fst st).

(** [Dtype promoteTypesVec(std::vector<const ExprType*>& v)] *)
Definition promoteTypesVec_v (v : list ExprType) : result Dtype :=
  match v with
  | [] => Err (malformed_input "empty list of types")
  | v0 :: _ =>
      for_each (fun t e => promoteTypes t (dtype (upcast e))) v
               (dtype (upcast v0))
  end.

(** [Dtype promoteTypesMap(const Expr* s, std::unordered_map<...>& m)] *)
Definition promoteTypesMap (s : Expr) (m : unordered_map ExprType)
  : result Dtype :=
  st <- for_each (fun st e => promote_loop_body st (snd e)) m
                 (dtype s, true) ;;
  Ok (fst st).

End Containers.

(** [promoteTypesVar(e)] and [promoteTypesVar(e, es...)]: the parameter
    pack is the list [es]. *)
Fixpoint promoteTypesVar (e : Expr) (es : list Expr) : result Dtype :=
  match es with
  | [] => Ok (dtype e)
  | e' :: es' =>
      let lhs := dtype e in
      rhs <- promoteTypesVar e' es' ;;
      let lhs :=
        if isConstant e then mkDtype (scalar_type lhs) (lanes rhs)
        else lhs in
      promoteTypes lhs rhs
  end.

(** The fold the loops amount to once the first iteration is past. *)
Definition promote_all {ExprType : Type} `{ExprNode ExprType}
  (v : list ExprType) (t : Dtype) : result Dtype :=
  for_each (fun t e => promoteTypes t (dtype (upcast e))) v t.

End Promotion.

(* ================================================================== *)
(** ** Allocation *)

(** The state of the allocator is the next free address; [new] hands it
    out. *)
Definition Arena := addr.

Definition alloc (arena : Arena) : addr * Arena := (arena, N.succ arena).

(** Modelled from the spec: [getImmediateByType] is declared outside this
    header; the spec has it as the literal-construction helper
    [getImmediateByType(dtype, value) -> Expr] that builds typed zero/one
    constants.  It allocates the literal. *)
Definition getImmediateByType (dt : Dtype) (value : Z) (arena : Arena)
  : Expr * Arena :=
  let '(a, arena') := alloc arena in (Imm a dt value, arena').

(* ================================================================== *)
(** ** Hash provider, canonical order *)

(** Modelled from the spec: the [HashProvider] class is declared in
    [hash_provider.h], outside this header.  The spec has it provide
    [hash(expr)], a deterministic structural hash value, and a way to
    combine child hashes that [hashVars] is built from. *)
Record HashProvider : Type := mkHashProvider {
  hash : Expr -> SimplifierHashType;
  hash_combine : SimplifierHashType -> SimplifierHashType -> SimplifierHashType
}.

(** Sorting a sequence by a hash key, smallest first: insertion into an
    already sorted sequence, and the sort built from it. *)
Fixpoint insert_by {A : Type} (key : A -> SimplifierHashType) (x : A)
  (l : list A) : list A :=
  match l with
  | [] => [x]
  | y :: l' =>
      if N.leb (key x) (key y) then x :: l else y :: insert_by key x l'
  end.

Definition sort_by {A : Type} (key : A -> SimplifierHashType) (l : list A)
  : list A :=
  fold_right (insert_by key) [] l.

(** Modelled from the spec: [Term::sort] is defined outside this header
    ("Sort by hash to normalize order of components"); the spec has the
    variables of a Term kept sorted by hash. *)
Definition Term_sort (hasher : HashProvider) (variables_ : list Expr)
  : list Expr :=
  sort_by (hash hasher) variables_.

(** Modelled from the spec: [Term::hashVars] is defined outside this
    header; the spec has it hash only the non-scalar components of the
    Term, as a combination of the child hashes. *)
Definition Term_hashVars (hasher : HashProvider) (t : Term)
  : SimplifierHashType :=
  fold_left (hash_combine hasher) (map (hash hasher) (Term_.variables t)) 0%N.

(** Modelled from the spec: [Polynomial::sort] is defined outside this
    header; the spec has a Polynomial keep the same sort invariant as a
    Term, but over its Terms' [hashVars]. *)
Definition Polynomial_sort (hasher : HashProvider) (variables_ : list Term)
  : list Term :=
  sort_by (Term_hashVars hasher) variables_.


(* ================================================================== *)
(** ** Constructors of Term and Polynomial *)

(** [addComponent(ts...)] / [addTerm(ts...)]: one [push_back] per element
    of the pack, in order. *)
Fixpoint addComponent {A : Type} (variables_ : list A) (es : list A)
  : list A :=
  match es with
  | [] => variables_
  | e :: es' => addComponent (variables_ ++ [e]) es'
  end.

(** [for (auto& p : varmap) addComponent(p.second);] *)
Definition addComponents_of_map {A : Type} (variables_ : list A)
  (varmap : unordered_map A) : list A :=
  fold_left (fun vs p => addComponent vs [snd p]) varmap variables_.

Section Constructors.

Variable promoteTypes : Dtype -> Dtype -> result Dtype.

(** Each constructor initialises the object at address [this]: the base
    class with the promoted dtype first, then the members, then the
    body. *)

(** [Term(HashProvider& hasher, const Expr* s, Args... ts)] *)
Definition Term_variadic (this : addr) (hasher : HashProvider) (s : Expr)
  (ts : list Expr) : result Term :=
  dt <- promoteTypesVar promoteTypes s ts ;;
  _ <- CHECK (isConstant s) "s->isConstant()" ;;
  let variables_ := addComponent [] ts in
  Ok (mkTerm this dt (Term_sort hasher variables_) s).

(** [Term(HashProvider& hasher, const Expr* s, std::vector<const Expr*> v)] *)
Definition Term_vector (this : addr) (hasher : HashProvider) (s : Expr)
  (v : list Expr) : result Term :=
  dt <- promoteTypesVec promoteTypes s v ;;
  let variables_ := v in
  Ok (mkTerm this dt (Term_sort hasher variables_) s).

(** [Term(HashProvider& hasher, const Expr* s, std::unordered_map<...> varmap)] *)
Definition Term_map (this : addr) (hasher : HashProvider) (s : Expr)
  (varmap : unordered_map Expr) : result Term :=
  dt <- promoteTypesMap promoteTypes s varmap ;;
  let variables_ := addComponents_of_map [] varmap in
  Ok (mkTerm this dt (Term_sort hasher variables_) s).

(** [Polynomial(HashProvider& hasher, const Expr* s, Args... ts)]; [addTerm]
    has no overload for an empty pack, so C++ callers pass a Term at
    least. *)
Definition Polynomial_variadic (this : addr) (hasher : HashProvider)
  (s : Expr) (ts : list Term) : result Polynomial :=
  dt <- promoteTypesVar promoteTypes s (map upcast ts) ;;
  _ <- CHECK (isConstant s) "s->isConstant()" ;;
  let variables_ := addComponent [] ts in
  Ok (mkPolynomial this dt (Polynomial_sort hasher variables_) s).

(** [Polynomial(HashProvider& hasher, const Expr* s, std::vector<const Term*> v)] *)
Definition Polynomial_vector (this : addr) (hasher : HashProvider)
  (s : Expr) (v : list Term) : result Polynomial :=
  dt <- promoteTypesVec promoteTypes s v ;;
  let variables_ := v in
  Ok (mkPolynomial this dt (Polynomial_sort hasher variables_) s).

(** [Polynomial(HashProvider& hasher, std::vector<const Term*> terms)]:
    helper constructor for a list of terms with no scalar component.  The
    scalar is allocated, so the allocator state is threaded. *)
Definition Polynomial_terms (this : addr) (hasher : HashProvider)
  (terms : list Term) (arena : Arena) : result (Polynomial * Arena) :=
  dt <- promoteTypesVec_v promoteTypes terms ;;
  let variables_ := terms in
  let '(scalar_, arena') := getImmediateByType dt 0 arena in
  Ok (mkPolynomial this dt (Polynomial_sort hasher variables_) scalar_,
      arena').

(** [Polynomial(HashProvider& hasher, const Expr* s, std::unordered_map<...> varmap)] *)
Definition Polynomial_map (this : addr) (hasher : HashProvider) (s : Expr)
  (varmap : unordered_map Term) : result Polynomial :=
  dt <- promoteTypesMap promoteTypes s varmap ;;
  let variables_ := addComponents_of_map [] varmap in
  Ok (mkPolynomial this dt (Polynomial_sort hasher variables_) s).

End Constructors.

(* ================================================================== *)
(** ** Mutators *)

(** [ExprHandle]: the value wrapper around a [const Expr*]. *)
Record ExprHandle : Type := mkExprHandle { node : Expr }.

Section Mutators.

(** The statement hierarchy ([Stmt]) is declared outside this header and
    only passed through. *)
Variable Stmt : Type.

Variable promoteTypes : Dtype -> Dtype -> result Dtype.

(** [evaluateOp] of [eval.h], the constant-folding evaluator: it builds a
    literal, and may raise. *)
Variable evaluateOp : Expr -> Arena -> result (Expr * Arena).

(** The [IRMutator] interface as [accept_mutator] sees it: running a
    mutator over an expression or a statement yields the rewritten root;
    the mutator object and the allocator are threaded through, and the run
    may raise. *)
Class IRMutator (Self : Type) : Type := {
  accept_mutator : Expr -> Self -> Arena -> result (Expr * Self * Arena);
  accept_mutator_stmt : Stmt -> Self -> Arena -> result (Stmt * Self * Arena)
}.

(** Modelled from the spec: [newBinaryOpOfType] is declared outside this
    header.  The spec has it rebuild the node: a new node of the given
    kind over the given operands, whose dtype is the promotion of its
    constituents' dtypes; [Max] and [Min] take the NaN-propagation flag. *)
Definition newBinaryOpOfType (ty : IRNodeType) (lhs rhs : Expr)
  (option : bool) (arena : Arena) : result (Expr * Arena) :=
  dt <- promoteTypes (dtype lhs) (dtype rhs) ;;
  let '(a, arena') := alloc arena in
  let flag := match ty with kMax | kMin => option | _ => false end in
  Ok (BinaryOp (mkBinaryOpNode a dt ty lhs rhs flag), arena').

(** [static const Expr* mutateBinaryOp(const BinaryOpNode<Op>* v,
    IRMutator* mutator, bool option = false)] *)
Definition mutateBinaryOp {Self : Type} `{IRMutator Self}
  (v : BinaryOpNode) (mutator : Self) (option : bool) (arena : Arena)
  : result (Expr * Self * Arena) :=
  let lhs := BinaryOpNode_.lhs v in
  let rhs := BinaryOpNode_.rhs v in
  ' (lhs_new, mutator, arena) <- accept_mutator lhs mutator arena ;;
  ' (rhs_new, mutator, arena) <- accept_mutator rhs mutator arena ;;
  let node := upcast v in
  ' (node, arena) <-
    (if negb (ptr_eqb lhs lhs_new) || negb (ptr_eqb rhs rhs_new)
     then newBinaryOpOfType (BinaryOpNode_.expr_type v) lhs_new rhs_new
                            option arena
     else Ok (node, arena)) ;;
  (* Can only fold if both sides are constant. *)
  if negb (isConstant lhs_new) || negb (isConstant rhs_new)
  then Ok (node, mutator, arena)
  else
    ' (folded, arena) <- evaluateOp node arena ;;
    Ok (folded, mutator, arena).

(** [class PolynomialTransformer : public IRMutator], with its one data
    member. *)
Record PolynomialTransformer : Type := mkPolynomialTransformer {
  hasher_ : HashProvider
}.

(** [class TermExpander : public IRMutator]; [simplifier_] points to the
    transformer the expander is bound to.  The pointee travels with the
    expander: once the expander is built, the transformer is reached
    through it only. *)
Record TermExpander : Type := mkTermExpander {
  simplifier_ : PolynomialTransformer
}.

(** The default-constructed [HashProvider] of a new transformer. *)
Variable HashProvider_default : HashProvider.

(** [PolynomialTransformer simplifier;] *)
Definition PolynomialTransformer_new : PolynomialTransformer :=
  mkPolynomialTransformer HashProvider_default.

(** [TermExpander(PolynomialTransformer* simplifier)] *)
Definition TermExpander_new (simplifier : PolynomialTransformer)
  : TermExpander :=
  mkTermExpander simplifier.

(** The dispatch of the two mutators: their [mutate] overloads for the
    other node kinds and the [accept_mutator] double dispatch are defined
    outside this header. *)
Context {PolynomialTransformer_mutator : IRMutator PolynomialTransformer}.
Context {TermExpander_mutator : IRMutator TermExpander}.

(** The [mutate] overloads the header defines. *)
Definition PolynomialTransformer_mutate_Mod (v : BinaryOpNode)
  (this : PolynomialTransformer) := mutateBinaryOp v this false.

Definition PolynomialTransformer_mutate_And (v : BinaryOpNode)
  (this : PolynomialTransformer) := mutateBinaryOp v this false.

Definition PolynomialTransformer_mutate_Xor (v : BinaryOpNode)
  (this : PolynomialTransformer) := mutateBinaryOp v this false.

Definition PolynomialTransformer_mutate_Lshift (v : BinaryOpNode)
  (this : PolynomialTransformer) := mutateBinaryOp v this false.

Definition PolynomialTransformer_mutate_Rshift (v : BinaryOpNode)
  (this : PolynomialTransformer) := mutateBinaryOp v this false.

Definition PolynomialTransformer_mutate_Max (v : BinaryOpNode)
  (this : PolynomialTransformer) :=
  mutateBinaryOp v this (BinaryOpNode_.propagate_nans v).

Definition PolynomialTransformer_mutate_Min (v : BinaryOpNode)
  (this : PolynomialTransformer) :=
  mutateBinaryOp v this (BinaryOpNode_.propagate_nans v).

(** Overload resolution among the [mutate] overloads the header defines
    for binary nodes, by the class of the node; the overloads for the
    other classes ([Add], [Sub], [Mul], [Div], ...) are defined outside
    the header. *)
Definition PolynomialTransformer_mutate (v : BinaryOpNode)
  : option (PolynomialTransformer -> Arena ->
            result (Expr * PolynomialTransformer * Arena)) :=
  match BinaryOpNode_.expr_type v with
  | kMod => Some (PolynomialTransformer_mutate_Mod v)
  | kAnd => Some (PolynomialTransformer_mutate_And v)
  | kXor => Some (PolynomialTransformer_mutate_Xor v)
  | kLshift => Some (PolynomialTransformer_mutate_Lshift v)
  | kRshift => Some (PolynomialTransformer_mutate_Rshift v)
  | kMax => Some (PolynomialTransformer_mutate_Max v)
  | kMin => Some (PolynomialTransformer_mutate_Min v)
  | _ => None
  end.

(** [static const Expr* IRSimplifier::simplify(const Expr* e)] *)
Definition IRSimplifier_simplify (e : Expr) (arena : Arena)
  : result (Expr * Arena) :=
  let simplifier := PolynomialTransformer_new in
  ' (e, simplifier, arena) <- accept_mutator e simplifier arena ;;
  (* There may be terms left in the IR, expand them. *)
  let expander := TermExpander_new simplifier in
  ' (e, expander, arena) <- accept_mutator e expander arena ;;
  Ok (e, arena).

(** [static ExprHandle IRSimplifier::simplify(const ExprHandle& e)] *)
Definition IRSimplifier_simplify_handle (e : ExprHandle) (arena : Arena)
  : result (ExprHandle * Arena) :=
  ' (e', arena) <- IRSimplifier_simplify (node e) arena ;;
  Ok (mkExprHandle e', arena).

(** [static Stmt* IRSimplifier::simplify(Stmt* s)] *)
Definition IRSimplifier_simplify_stmt (s : Stmt) (arena : Arena)
  : result (Stmt * Arena) :=
  let simplifier := PolynomialTransformer_new in
  ' (s, simplifier, arena) <- accept_mutator_stmt s simplifier arena ;;
  (* There may be terms left in the IR, expand them. *)
  let expander := TermExpander_new simplifier in
  ' (s, expander, arena) <- accept_mutator_stmt s expander arena ;;
  Ok (s, arena).

End Mutators.

(* ================================================================== *)
(** ** Objects a constructor can make visible *)

Section Constructed.

Variable promoteTypes : Dtype -> Dtype -> result Dtype.
Variable hasher : HashProvider.



End Constructed.


(* ================================================================== *)
(** ** Concrete collaborators, for running the definitions *)

Module Sample.

(** Rank of a scalar type in the promotion order used below. *)
Definition rank (t : ScalarType) : nat :=
  match t with
  | Bool => 0 | Byte => 1 | Char => 2 | Short => 3 | Int => 4
  | Long => 5 | Half => 6 | Float => 7 | Double => 8
  end.

(** A promotion function: the lane counts must agree, the result takes the
    higher ranked scalar type. *)
Definition promoteTypes (a b : Dtype) : result Dtype :=
  if Z.eqb (lanes a) (lanes b)
  then Ok (mkDtype (if Nat.leb (rank (scalar_type a)) (rank (scalar_type b))
                    then scalar_type b else scalar_type a)
                   (lanes a))
  else Err (malformed_input "promoting types with different lanes").

(** A hash provider: the hash of a node is a function of its shape, not of
    its address. *)
Definition hash_string (s : string) : N :=
  fold_right (fun c h => (N_of_ascii c + 31 * h)%N) 7%N (list_ascii_of_string s).

Definition hash_expr (e : Expr) : SimplifierHashType :=
  match e with
  | Imm _ _ value => Z.to_N (Z.abs value)
  | Var _ _ name_hint => hash_string name_hint
  | _ => 1%N
  end.

Definition hasher : HashProvider :=
  mkHashProvider hash_expr (fun h k => (31 * h + k)%N).

(** A constant-folding evaluator over integer literals. *)
Definition fold_binary (ty : IRNodeType) (x y : Z) : option Z :=
  match ty with
  | kAdd => Some (x + y)
  | kSub => Some (x - y)
  | kMul => Some (x * y)
  | kDiv => Some (Z.quot x y)
  | kMod => Some (Z.rem x y)
  | kMax => Some (Z.max x y)
  | kMin => Some (Z.min x y)
  | kAnd => Some (Z.land x y)
  | kOr => Some (Z.lor x y)
  | kXor => Some (Z.lxor x y)
  | kLshift => Some (Z.shiftl x y)
  | kRshift => Some (Z.shiftr x y)
  | _ => None
  end.

Definition evaluateOp (e : Expr) (arena : Arena) : result (Expr * Arena) :=
  match e with
  | BinaryOp (mkBinaryOpNode _ dt ty (Imm _ _ x) (Imm _ _ y) _) =>
      match fold_binary ty x y with
      | Some z => let '(a, arena') := alloc arena in Ok (Imm a dt z, arena')
      | None => Err (other_failure "unsupported operator")
      end
  | _ => Err (other_failure "operand is not a literal")
  end.

(** Statements: a block of expressions. *)
Definition Stmt : Type := list Expr.

(** A mutator that clones every variable it meets and leaves every other
    node alone. *)
Definition clone_vars {Self : Type} (e : Expr) (self : Self) (arena : Arena)
  : result (Expr * Self * Arena) :=
  match e with
  | Var _ dt name_hint =>
      let '(a, arena') := alloc arena in Ok (Var a dt name_hint, self, arena')
  | _ => Ok (e, self, arena)
  end.

Fixpoint clone_vars_stmt {Self : Type} (s : Stmt) (self : Self)
  (arena : Arena) : result (Stmt * Self * Arena) :=
  match s with
  | [] => Ok ([], self, arena)
  | e :: s' =>
      ' (e', self, arena) <- clone_vars e self arena ;;
      ' (s'', self, arena) <- clone_vars_stmt s' self arena ;;
      Ok (e' :: s'', self, arena)
  end.

#[global] Instance mutator (Self : Type) : IRMutator Stmt Self :=
  {| accept_mutator := clone_vars; accept_mutator_stmt := clone_vars_stmt |}.

Definition int1 : Dtype := mkDtype Int 1.
Definition int4 : Dtype := mkDtype Int 4.
Definition long1 : Dtype := mkDtype Long 1.

Definition x : Expr := Var 1%N int1 "x".
Definition y : Expr := Var 2%N int1 "y".
Definition z4 : Expr := Var 3%N int4 "z".
Definition two : Expr := Imm 4%N int1 2.
Definition three : Expr := Imm 5%N int1 3.
Definition seven : Expr := Imm 6%N long1 7.

Definition term_2x : Term := mkTerm 7%N int1 [x] two.
Definition term_3y : Term := mkTerm 8%N int1 [y] three.

Definition mod_x_2 : BinaryOpNode := mkBinaryOpNode 10%N int1 kMod x two false.
Definition mod_3_2 : BinaryOpNode :=
  mkBinaryOpNode 11%N int1 kMod three two false.
Definition max_x_2 : BinaryOpNode := mkBinaryOpNode 12%N int1 kMax x two true.
Definition min_3_2 : BinaryOpNode :=
  mkBinaryOpNode 13%N int1 kMin three two true.

Definition transformer : PolynomialTransformer :=
  mkPolynomialTransformer hasher.

End Sample.

(* ================================================================== *)
(** ** More concrete nodes *)

Module Sample2.

(** A four-lane literal, and a RoundOff node over two literals. *)
Definition two4 : Expr := Imm 14%N Sample.int4 2.

Definition roundoff_3_2 : BinaryOpNode :=
  mkBinaryOpNode 15%N Sample.int1 kRoundOff Sample.three Sample.two false.

(** A [Long] variable and the Term [7*w] over it; the Term [3*x], which
    has the variables of [2*x]; the literal [0]. *)
Definition w : Expr := Var 16%N Sample.long1 "w".
Definition term_3x : Term := mkTerm 17%N Sample.int1 [Sample.x] Sample.three.
Definition term_7w : Term := mkTerm 18%N Sample.long1 [w] Sample.seven.

End Sample2.

(** Two mutators that show what the second pass sees of the first. *)
Module Marking.

(** The transformer pass leaves the root alone and marks the transformer:
    every hash its provider gives is one higher afterwards. *)
Definition mark (simplifier : PolynomialTransformer)
  : PolynomialTransformer :=
  mkPolynomialTransformer
    (mkHashProvider (fun e => N.succ (hash (hasher_ simplifier) e))
                    (hash_combine (hasher_ simplifier))).

Definition transform (e : Expr) (self : PolynomialTransformer)
  (arena : Arena) : result (Expr * PolynomialTransformer * Arena) :=
  Ok (e, mark self, arena).

Definition transform_stmt (s : Sample.Stmt) (self : PolynomialTransformer)
  (arena : Arena) : result (Sample.Stmt * PolynomialTransformer * Arena) :=
  Ok (s, mark self, arena).

(** The expander pass replaces an expression by the literal of its hash,
    asked of the provider of the transformer the expander points to. *)
Definition expand (e : Expr) (self : TermExpander) (arena : Arena)
  : result (Expr * TermExpander * Arena) :=
  let '(a, arena') := alloc arena in
  Ok (Imm a (dtype e) (Z.of_N (hash (hasher_ (simplifier_ self)) e)),
      self, arena').

Fixpoint expand_stmt (s : Sample.Stmt) (self : TermExpander)
  (arena : Arena) : result (Sample.Stmt * TermExpander * Arena) :=
  match s with
  | [] => Ok ([], self, arena)
  | e :: s' =>
      ' (e', self, arena) <- expand e self arena ;;
      ' (s'', self, arena) <- expand_stmt s' self arena ;;
      Ok (e' :: s'', self, arena)
  end.

Definition transformer_mutator
  : IRMutator Sample.Stmt PolynomialTransformer :=
  {| accept_mutator := transform; accept_mutator_stmt := transform_stmt |}.

Definition expander_mutator : IRMutator Sample.Stmt TermExpander :=
  {| accept_mutator := expand; accept_mutator_stmt := expand_stmt |}.

End Marking.

(* ================================================================== *)
(** * The tensor library files *)

(** ** What they share: exceptions, checks, integers, array views *)

Module c10.

(** [c10::Error], thrown by [TORCH_CHECK] and [AT_ERROR], and
    [c10::IndexError], thrown by [TORCH_CHECK_INDEX]. *)
Inductive exception : Type :=
| Error (msg : string)
| IndexError (msg : string).

(** A call returns, throws, or runs into undefined behaviour: an access
    outside a buffer, a signed overflow. *)
Inductive outcome (A : Type) : Type :=
| Returns (a : A)
| Throws (e : exception)
| Undefined.

Arguments Returns {A} a.
Arguments Throws {A} e.
Arguments Undefined {A}.

Definition bind {A B : Type} (m : outcome A) (k : A -> outcome B)
  : outcome B :=
  match m with
  | Returns a => k a
  | Throws e => Throws e
  | Undefined => Undefined
  end.

Declare Scope outcome_scope.
Delimit Scope outcome_scope with outcome.
Notation "x <- m ;; k" := (bind m (fun x => k))
  (at level 61, m at next level, right associativity) : outcome_scope.
Local Open Scope outcome_scope.
Local Open Scope Z_scope.

Definition TORCH_CHECK (cond : bool) (msg : string) : outcome unit :=
  if cond then Returns tt else Throws (Error msg).

Definition TORCH_CHECK_INDEX (cond : bool) (msg : string) : outcome unit :=
  if cond then Returns tt else Throws (IndexError msg).

Definition AT_ERROR {A : Type} (msg : string) : outcome A :=
  Throws (Error msg).

(** Conversions to [int], [int64_t] and [size_t]. *)
Definition to_int (z : Z) : Z := (z + 2 ^ 31) mod 2 ^ 32 - 2 ^ 31.
Definition in_int64 (z : Z) : bool := (- 2 ^ 63 <=? z) && (z <? 2 ^ 63).
Definition to_size_t (z : Z) : Z := z mod 2 ^ 64.

(** [int64_t] multiplication; out of range it is undefined. *)
Definition mul_int64 (a b : Z) : outcome Z :=
  if in_int64 (a * b) then Returns (a * b) else Undefined.

(** [std::accumulate(first, last, init, std::multiplies<int64_t>())] *)
Fixpoint accumulate_multiplies (l : list Z) (init : Z) : outcome Z :=
  match l with
  | [] => Returns init
  | x :: l' => acc <- mul_int64 init x ;; accumulate_multiplies l' acc
  end.

(** The product of a sequence, and what it takes for [accumulate] to stay
    defined: every partial product is an [int64_t]. *)
Definition product (l : list Z) : Z := fold_right Z.mul 1 l.

Fixpoint products_fit (init : Z) (l : list Z) : Prop :=
  match l with
  | [] => True
  | x :: l' => in_int64 (init * x) = true /\ products_fit (init * x) l'
  end.

(** [IntArrayRef]: a view of a sequence of [int64_t], with [size()],
    [equals] (same length, same elements) and [slice(N)] (the view
    without its first [N] elements). *)
Definition IntArrayRef : Type := list Z.

Fixpoint equals (a b : IntArrayRef) : bool :=
  match a, b with
  | [], [] => true
  | x :: a', y :: b' => Z.eqb x y && equals a' b'
  | _, _ => false
  end.

Definition slice (N : Z) (a : IntArrayRef) : IntArrayRef :=
  skipn (Z.to_nat N) a.

(** [buffer[off]] read and written through a pointer: outside the buffer
    the access is undefined. *)
Definition read {A : Type} (buffer : list A) (off : Z) : outcome A :=
  if (0 <=? off) && (off <? Z.of_nat (List.length buffer))
  then match nth_error buffer (Z.to_nat off) with
       | Some a => Returns a
       | None => Undefined
       end
  else Undefined.

Fixpoint update {A : Type} (buffer : list A) (n : nat) (a : A) : list A :=
  match buffer, n with
  | [], _ => []
  | _ :: buffer', O => a :: buffer'
  | b :: buffer', S n' => b :: update buffer' n' a
  end.

Definition write {A : Type} (buffer : list A) (off : Z) (a : A)
  : outcome (list A) :=
  if (0 <=? off) && (off <? Z.of_nat (List.length buffer))
  then Returns (update buffer (Z.to_nat off) a)
  else Undefined.

(** [for (i = 0; i < n; ++i) body]: the loop state is threaded through the
    iterations; an iteration that throws ends the loop. *)
Fixpoint iterate {I S : Type} (body : I -> S -> outcome S)
  (range : list I) (s : S) : outcome S :=
  match range with
  | [] => Returns s
  | i :: range' => s' <- body i s ;; iterate body range' s'
  end.

Definition upto (n : Z) : list Z := map Z.of_nat (seq 0 (Z.to_nat n)).

Definition for_loop {S : Type} (n : Z) (body : Z -> S -> outcome S) (s : S)
  : outcome S :=
  iterate body (upto n) s.

End c10.

(* ================================================================== *)
(** ** layer_norm.cpp *)

Module LayerNorm.

Import c10.
Local Open Scope outcome_scope.
Local Open Scope Z_scope.

Section WithTensor.

(** [at::Tensor] and what this file asks of it. *)
Variable Tensor : Type.
Variable defined : Tensor -> bool.
Variable sizes : Tensor -> IntArrayRef.
Variable is_contiguous : Tensor -> bool.
Variable contiguous : Tensor -> Tensor.

(** Printing of an [IntArrayRef] and of an [int64_t] into a message. *)
Variable show_IntArrayRef : IntArrayRef -> string.
Variable show_int64 : Z -> string.

(** [input.dim()]: the number of sizes. *)
Definition dim (t : Tensor) : Z := Z.of_nat (List.length (sizes t)).

Definition normalized_shape_message (normalized_shape : IntArrayRef)
  : string :=
  ("Expected normalized_shape to be at least 1-dimensional, i.e., "
   ++ "containing at least one element, but got normalized_shape = "
   ++ show_IntArrayRef normalized_shape)%string.

Definition shape_mismatch_message (what : string) (t : Tensor)
  (normalized_shape : IntArrayRef) : string :=
  ("Expected " ++ what
   ++ " to be of same shape as normalized_shape, but got "
   ++ what ++ " of shape " ++ show_IntArrayRef (sizes t)
   ++ " and normalized_shape = " ++ show_IntArrayRef normalized_shape)%string.

Definition input_shape_message (normalized_shape input_shape : IntArrayRef)
  : string :=
  ("Given normalized_shape=" ++ show_IntArrayRef normalized_shape
   ++ ", expected input with shape [*"
   ++ fold_left (fun ss size => ss ++ ", " ++ show_int64 size)
                normalized_shape ""
   ++ "], but got input of size" ++ show_IntArrayRef input_shape)%string.

(** [_prepare_layer_norm_inputs(input, normalized_shape, weight, bias)] *)
Definition _prepare_layer_norm_inputs (input : Tensor)
  (normalized_shape : IntArrayRef) (weight bias : Tensor)
  : outcome (Tensor * Tensor * Tensor * Z * Z) :=
  let normalized_ndim := to_int (Z.of_nat (List.length normalized_shape)) in
  _ <- TORCH_CHECK (1 <=? normalized_ndim)
         (normalized_shape_message normalized_shape) ;;
  _ <- TORCH_CHECK
         (negb (defined weight) || equals (sizes weight) normalized_shape)
         (shape_mismatch_message "weight" weight normalized_shape) ;;
  _ <- TORCH_CHECK
         (negb (defined bias) || equals (sizes bias) normalized_shape)
         (shape_mismatch_message "bias" bias normalized_shape) ;;
  let input_shape := sizes input in
  let input_ndim := dim input in
  if (input_ndim <? normalized_ndim)
     || negb (equals (slice (input_ndim - normalized_ndim) input_shape)
                     normalized_shape)
  then AT_ERROR (input_shape_message normalized_shape input_shape)
  else
    let axis := to_int (input_ndim - normalized_ndim) in
    M <- accumulate_multiplies (firstn (Z.to_nat axis) input_shape) 1 ;;
    N <- accumulate_multiplies (skipn (Z.to_nat axis) input_shape) 1 ;;
    let X := if is_contiguous input then input else contiguous input in
    let gamma := if is_contiguous weight then weight else contiguous weight in
    let beta := if is_contiguous bias then bias else contiguous bias in
    Returns (X, gamma, beta, M, N).

(** The allocation and the kernel behind [quantized_layer_norm_impl]. *)
Variable double : Type.
Variable ScalarType_ : Type.
Variable MemoryFormat : Type.
Variable scalar_type : Tensor -> ScalarType_.
Variable suggest_memory_format : Tensor -> MemoryFormat.
Variable _empty_affine_quantized :
  IntArrayRef -> ScalarType_ -> double -> Z -> MemoryFormat -> Tensor.
Variable quantized_layer_norm_stub :
  Tensor -> Tensor -> Tensor -> Z -> Z -> double -> Tensor -> outcome Tensor.

(** [quantized_layer_norm_impl(input, normalized_shape, weight, bias, eps,
    output_scale, output_zero_point)]; the kernel writes into [Y]. *)
Definition quantized_layer_norm_impl (input : Tensor)
  (normalized_shape : IntArrayRef) (weight bias : Tensor) (eps : double)
  (output_scale : double) (output_zero_point : Z) : outcome Tensor :=
  inputs <- _prepare_layer_norm_inputs input normalized_shape weight bias ;;
  let '(X, gamma, beta, M, N) := inputs in
  let Y :=
    _empty_affine_quantized (sizes X) (scalar_type X) output_scale
      output_zero_point (suggest_memory_format X) in
  if 0 <? M
  then quantized_layer_norm_stub X gamma beta M N eps Y
  else Returns Y.

End WithTensor.

End LayerNorm.

(** A tensor reduced to what [layer_norm.cpp] asks of it, for running the
    definitions. *)
Module LayerNormSample.

Record Tensor : Type := mkTensor {
  defined : bool;
  sizes : list Z;
  is_contiguous : bool
}.

Definition contiguous (t : Tensor) : Tensor :=
  mkTensor (defined t) (sizes t) true.

Definition show_IntArrayRef (a : list Z) : string := "[...]".
Definition show_int64 (z : Z) : string := "?".

Definition input : Tensor := mkTensor true [2; 3; 4]%Z false.
Definition empty_input : Tensor := mkTensor true [2; 0; 3; 4]%Z true.
Definition weight : Tensor := mkTensor true [3; 4]%Z true.
Definition bad_weight : Tensor := mkTensor true [4; 3]%Z true.
Definition no_bias : Tensor := mkTensor false [] true.

(** A quantized allocation that records the requested sizes, and a kernel
    that marks the output it was handed as non-contiguous. *)
Definition _empty_affine_quantized (sizes : list Z) (scalar_type : unit)
  (scale : unit) (zero_point : Z) (memory_format : unit) : Tensor :=
  mkTensor true sizes true.

Definition quantized_layer_norm_stub (X gamma beta : Tensor) (M N : Z)
  (eps : unit) (Y : Tensor) : c10.outcome Tensor :=
  c10.Returns (mkTensor true (sizes Y) false).

End LayerNormSample.

(* ================================================================== *)
(** ** TensorIndexPrototypeKernel.cpp *)

(** What a kernel sees of a [Tensor]: [sizes()], [is_contiguous()] and the
    buffer behind [data_ptr()], a sequence of cells (elements for
    [data_ptr<scalar_t>()], bytes for a [char*]). *)
Module TensorView.

Import c10.
Local Open Scope Z_scope.

Record Tensor (cell : Type) : Type := mkTensor {
  sizes : IntArrayRef;
  is_contiguous : bool;
  data : list cell
}.

Arguments mkTensor {cell} sizes is_contiguous data.
Arguments sizes {cell} t.
Arguments is_contiguous {cell} t.
Arguments data {cell} t.

Definition dim {cell : Type} (t : Tensor cell) : Z :=
  Z.of_nat (List.length (sizes t)).

Definition numel {cell : Type} (t : Tensor cell) : Z := product (sizes t).

Definition size {cell : Type} (t : Tensor cell) (d : Z) : outcome Z :=
  read (sizes t) d.

(** The tensor with its buffer replaced by what the kernel wrote. *)
Definition with_data {cell : Type} (t : Tensor cell) (buffer : list cell)
  : Tensor cell :=
  mkTensor (sizes t) (is_contiguous t) buffer.

End TensorView.

Module TensorIndexPrototypeKernel.

Import c10 TensorView.
Local Open Scope outcome_scope.
Local Open Scope Z_scope.

(** [memcpy(dst, src, n)] between two buffers, by offsets into them. *)
Definition memcpy {char : Type} (dst_buffer : list char) (dst : Z)
  (src_buffer : list char) (src : Z) (n : Z) : outcome (list char) :=
  for_loop n
    (fun k dst_buffer =>
       c <- read src_buffer (src + k) ;;
       write dst_buffer (dst + k) c)
    dst_buffer.

(** [assert_special_case(self, index, dim)] *)
Definition assert_special_case {cell : Type} (self : Tensor cell)
  (index : Tensor Z) (dim : Z) : outcome unit :=
  _ <- TORCH_CHECK_INDEX (TensorView.dim index =? 1) "index must be 1D." ;;
  _ <- TORCH_CHECK_INDEX (TensorView.dim self =? 2) "self must be 2D." ;;
  _ <- TORCH_CHECK ((dim =? 0) || (dim =? 1)) "dim must be zero or one." ;;
  TORCH_CHECK (is_contiguous self)
    "implementation assumes self is contiguous.".

Section Kernels.

(** The element type the dispatch binds to [scalar_t], and the byte type
    of the [char*] kernels. *)
Variable scalar_t : Type.
Variable char : Type.

(** [Tensor::resize_] and [elementSize(self.scalar_type())]. *)
Variable resize_ : forall cell : Type, Tensor cell -> IntArrayRef -> Tensor cell.
Variable elementSize : Tensor char -> Z.

(** [AT_DISPATCH_ALL_TYPES_AND(ScalarType::Bool, self.scalar_type(), name,
    body)]: the body runs when the scalar type of [self] is one of the
    dispatched ones, an error is thrown otherwise. *)
Variable scalar_type_dispatched : Tensor scalar_t -> bool.
Variable not_implemented : string -> Tensor scalar_t -> string.

Definition AT_DISPATCH_ALL_TYPES_AND {A : Type} (self : Tensor scalar_t)
  (name : string) (body : outcome A) : outcome A :=
  if scalar_type_dispatched self then body
  else Throws (Error (not_implemented name self)).

(** [index_select_memcpy_dim0_numel_outer_kernel(result, self, index)] *)
Definition index_select_memcpy_dim0_numel_outer_kernel
  (result self : Tensor char) (index : Tensor Z) : outcome (Tensor char) :=
  _ <- assert_special_case self index 0 ;;
  let dim := 0 in
  let sizes := TensorView.sizes self in
  let numel := TensorView.numel index in
  sizes <- write sizes dim numel ;;
  let result := resize_ result sizes in
  self_dim_size <- size self dim ;;
  let type_size := to_size_t (elementSize self) in
  feature_len <- read sizes (1 - dim) ;;
  let feature_len := to_size_t feature_len in
  let copy_bytes := to_size_t (feature_len * type_size) in
  let index_buffer := data index in
  let self_buffer := data self in
  let result_buffer := data result in
  result_buffer <-
    for_loop (to_size_t numel)
      (fun i result_buffer =>
         source_i <- read index_buffer i ;;
         _ <- TORCH_CHECK_INDEX
                ((0 <=? source_i) && (source_i <? self_dim_size))
                "index out of range in self" ;;
         let self_data := to_size_t (source_i * copy_bytes) in
         let result_data := to_size_t (i * copy_bytes) in
         memcpy result_buffer result_data self_buffer self_data copy_bytes)
      result_buffer ;;
  Returns (with_data result result_buffer).

(** [index_select_ptr_assign_dim0_kernel<NUMEL_OUTER>(result, self, index)] *)
Definition index_select_ptr_assign_dim0_kernel (NUMEL_OUTER : bool)
  (result self : Tensor scalar_t) (index : Tensor Z)
  : outcome (Tensor scalar_t) :=
  _ <- assert_special_case self index 0 ;;
  let dim := 0 in
  let sizes := TensorView.sizes self in
  let numel := TensorView.numel index in
  sizes <- write sizes dim numel ;;
  let result := resize_ result sizes in
  self_dim_size <- size self dim ;;
  feature_len <- read sizes (1 - dim) ;;
  let feature_len := to_size_t feature_len in
  AT_DISPATCH_ALL_TYPES_AND self "index_select_memcpy_dim1_kernel"
    (let index_buffer := data index in
     let self_buffer := data self in
     let result_buffer := data result in
     result_buffer <-
       (if NUMEL_OUTER
        then
          for_loop (to_size_t numel)
            (fun i result_buffer =>
               source_i <- read index_buffer i ;;
               _ <- TORCH_CHECK_INDEX
                      ((0 <=? source_i) && (source_i <? self_dim_size))
                      "index out of range in self" ;;
               let self_data := to_size_t (source_i * feature_len) in
               let result_data := to_size_t (i * feature_len) in
               for_loop feature_len
                 (fun j result_buffer =>
                    v <- read self_buffer (self_data + j) ;;
                    write result_buffer (result_data + j) v)
                 result_buffer)
            result_buffer
        else
          for_loop feature_len
            (fun j result_buffer =>
               for_loop (to_size_t numel)
                 (fun i result_buffer =>
                    source_i <- read index_buffer i ;;
                    _ <- TORCH_CHECK_INDEX
                           ((0 <=? source_i) && (source_i <? self_dim_size))
                           "index out of range in self" ;;
                    let self_data := to_size_t (source_i * feature_len) in
                    let result_data := to_size_t (i * feature_len) in
                    v <- read self_buffer (self_data + j) ;;
                    write result_buffer (result_data + j) v)
                 result_buffer)
            result_buffer) ;;
     Returns (with_data result result_buffer)).

(** [index_select_ptr_assign_dim1_kernel<NUMEL_OUTER>(result, self, index)] *)
Definition index_select_ptr_assign_dim1_kernel (NUMEL_OUTER : bool)
  (result self : Tensor scalar_t) (index : Tensor Z)
  : outcome (Tensor scalar_t) :=
  _ <- assert_special_case self index 1 ;;
  let dim := 1 in
  let sizes := TensorView.sizes self in
  let numel := TensorView.numel index in
  sizes <- write sizes dim numel ;;
  let result := resize_ result sizes in
  self_dim_size <- size self dim ;;
  let self_dim_size := to_size_t self_dim_size in
  feature_len <- read sizes (1 - dim) ;;
  let feature_len := to_size_t feature_len in
  AT_DISPATCH_ALL_TYPES_AND self "index_select_memcpy_dim1_kernel"
    (let index_buffer := data index in
     let self_buffer := data self in
     let result_buffer := data result in
     result_buffer <-
       (if NUMEL_OUTER
        then
          for_loop numel
            (fun i result_buffer =>
               source_i <- read index_buffer i ;;
               _ <- TORCH_CHECK_INDEX
                      ((0 <=? source_i)
                       && (to_size_t source_i <? self_dim_size))
                      "index out of range in self" ;;
               for_loop feature_len
                 (fun j result_buffer =>
                    let self_data :=
                      to_size_t (source_i + to_size_t (j * self_dim_size)) in
                    let result_data := i + j * numel in
                    v <- read self_buffer self_data ;;
                    write result_buffer result_data v)
                 result_buffer)
            result_buffer
        else
          for_loop feature_len
            (fun j result_buffer =>
               for_loop numel
                 (fun i result_buffer =>
                    source_i <- read index_buffer i ;;
                    _ <- TORCH_CHECK_INDEX
                           ((0 <=? source_i)
                            && (to_size_t source_i <? self_dim_size))
                           "index out of range in self" ;;
                    let self_data :=
                      to_size_t (source_i + to_size_t (j * self_dim_size)) in
                    let result_data := i + j * numel in
                    v <- read self_buffer self_data ;;
                    write result_buffer result_data v)
                 result_buffer)
            result_buffer) ;;
     Returns (with_data result result_buffer)).

(** [index_select_memcpy_dim1_kernel<NUMEL_OUTER>(result, self, index)] *)
Definition index_select_memcpy_dim1_kernel (NUMEL_OUTER : bool)
  (result self : Tensor char) (index : Tensor Z) : outcome (Tensor char) :=
  _ <- assert_special_case self index 1 ;;
  let dim := 1 in
  let sizes := TensorView.sizes self in
  let numel := TensorView.numel index in
  sizes <- write sizes dim numel ;;
  let result := resize_ result sizes in
  self_dim_size <- size self dim ;;
  let self_dim_size := to_size_t self_dim_size in
  feature_len <- read sizes (1 - dim) ;;
  let feature_len := to_size_t feature_len in
  let type_size := to_size_t (elementSize self) in
  let index_buffer := data index in
  let self_buffer := data self in
  let result_buffer := data result in
  result_buffer <-
    (if NUMEL_OUTER
     then
       for_loop numel
         (fun i result_buffer =>
            source_i <- read index_buffer i ;;
            _ <- TORCH_CHECK_INDEX
                   ((0 <=? source_i)
                    && (to_size_t source_i <? self_dim_size))
                   "index out of range in self" ;;
            for_loop feature_len
              (fun j result_buffer =>
                 let self_data :=
                   to_size_t
                     (to_size_t (source_i + to_size_t (j * self_dim_size))
                      * type_size) in
                 let result_data :=
                   to_size_t ((i + j * numel) * type_size) in
                 memcpy result_buffer result_data self_buffer self_data
                        type_size)
              result_buffer)
         result_buffer
     else
       for_loop feature_len
         (fun j result_buffer =>
            for_loop numel
              (fun i result_buffer =>
                 source_i <- read index_buffer i ;;
                 _ <- TORCH_CHECK_INDEX
                        ((0 <=? source_i)
                         && (to_size_t source_i <? self_dim_size))
                        "index out of range in self" ;;
                 let self_data :=
                   to_size_t
                     (to_size_t (source_i + to_size_t (j * self_dim_size))
                      * type_size) in
                 let result_data :=
                   to_size_t ((i + j * numel) * type_size) in
                 memcpy result_buffer result_data self_buffer self_data
                        type_size)
              result_buffer)
         result_buffer) ;;
  Returns (with_data result result_buffer).

End Kernels.

End TensorIndexPrototypeKernel.

(** ** Reading the kernels: copies cell by cell *)

Module Gather.

Import c10 TensorView.
Local Open Scope outcome_scope.
Local Open Scope Z_scope.

(** One copy per pair (destination offset, source offset), in order. *)
Definition copy_cells {A : Type} (src : list A) (cells : list (Z * Z))
  (buffer : list A) : outcome (list A) :=
  iterate (fun c buffer =>
             v <- read src (snd c) ;;
             write buffer (fst c) v)
          cells buffer.

(** Where two copies of a list write the same cell they read the same
    source. *)
Definition consistent (cells : list (Z * Z)) : Prop :=
  forall c c', In c cells -> In c' cells -> fst c = fst c' -> snd c = snd c'.

(** Every copy of a list stays inside the two buffers. *)
Definition cells_in_range {A : Type} (src buffer : list A)
  (cells : list (Z * Z)) : Prop :=
  forall c, In c cells ->
            0 <= fst c < Z.of_nat (List.length buffer)
            /\ 0 <= snd c < Z.of_nat (List.length src).

(** A 2-D contiguous tensor of [rows] by [cols] elements, each of
    [cell_size] cells of the buffer. *)
Definition matrix {cell : Type} (t : Tensor cell) (rows cols cell_size : Z)
  : Prop :=
  sizes t = [rows; cols]
  /\ is_contiguous t = true
  /\ 0 <= rows < 2 ^ 63 /\ 0 <= cols < 2 ^ 63
  /\ Z.of_nat (List.length (data t)) = rows * cols * cell_size
  /\ rows * cols * cell_size < 2 ^ 64.

(** A 1-D tensor whose buffer is the sequence of its elements. *)
Definition vector {cell : Type} (t : Tensor cell) : Prop :=
  sizes t = [Z.of_nat (List.length (data t))]
  /\ Z.of_nat (List.length (data t)) < 2 ^ 63.

(** The [i]-th index of an index vector. *)
Definition at_ (indices : list Z) (i : Z) : Z :=
  nth (Z.to_nat i) indices 0.

(** Every index selects a row (a column) that exists. *)
Definition in_range (indices : list Z) (bound : Z) : Prop :=
  Forall (fun source_i => 0 <= source_i < bound) indices.

(** The copies of the kernels, per position [i] of the index vector,
    selected index [source_i] and inner step [j]: row [source_i] of rows
    of [cols] cells into row [i]; column [source_i] of a matrix of [cols]
    columns into column [i] of one of [n] columns, cell by cell and in
    elements of [type_size] cells. *)
Definition dim0_cells (cols : Z) (i source_i j : Z) : list (Z * Z) :=
  [(i * cols + j, source_i * cols + j)].

Definition dim1_cells (n cols : Z) (i source_i j : Z) : list (Z * Z) :=
  [(i + j * n, source_i + j * cols)].

Definition dim1_byte_cells (n cols type_size : Z) (i source_i j : Z)
  : list (Z * Z) :=
  map (fun k => ((i + j * n) * type_size + k,
                 (source_i + j * cols) * type_size + k))
      (upto type_size).

End Gather.

(** Small tensors for running the kernels. *)
Module KernelSample.

Import c10 TensorView.
Local Open Scope Z_scope.

(** A [resize_] that keeps the first cells of the buffer it is given: as
    many as the new sizes take, [cell_size] cells per element. *)
Definition resize_ (cell_size : Z) (cell : Type) (t : Tensor cell)
  (sizes : IntArrayRef) : Tensor cell :=
  mkTensor sizes true
    (firstn (Z.to_nat (product sizes * cell_size)) (data t)).

(** A 2 by 3 matrix, by elements and by two-byte elements. *)
Definition self : Tensor Z := mkTensor [2; 3] true [10; 11; 12; 20; 21; 22].

Definition self_bytes : Tensor Z :=
  mkTensor [2; 3] true [10; 0; 11; 0; 12; 0; 20; 0; 21; 0; 22; 0].

(** A 2 by 0 matrix. *)
Definition self_no_columns : Tensor Z := mkTensor [2; 0] true [].

(** A 0 by 3 matrix. *)
Definition self_no_rows : Tensor Z := mkTensor [0; 3] true [].

Definition index : Tensor Z := mkTensor [3] true [1; 0; 1].
Definition bad_index : Tensor Z := mkTensor [3] true [1; 5; 0].

(** A result tensor with room for eighteen cells. *)
Definition result : Tensor Z := mkTensor [0] true (repeat 0 18).

Definition scalar_type_dispatched (t : Tensor Z) : bool := true.
Definition not_implemented (name : string) (t : Tensor Z) : string :=
  name.
Definition elementSize (t : Tensor Z) : Z := 2.

End KernelSample.

(* ================================================================== *)
(** * Properties *)

(** ** The [result] monad and the loops *)

Lemma bind_result_Ok_inv {A B : Type} (m : result A) (k : A -> result B)
  (b : B) :
  bind_result m k = Ok b -> exists a, m = Ok a /\ k a = Ok b.
Proof.
  destruct m as [a | f]; simpl; intros Hk.
  - exists a. split; [reflexivity | exact Hk].
  - discriminate Hk.
Qed.

Lemma for_each_app {A S : Type} (body : S -> A -> result S)
  (v w : list A) (s : S) :
  for_each body (v ++ w) s = s' <- for_each body v s ;; for_each body w s'.
Proof.
  revert s. induction v as [| e v IH]; intros s; simpl.
  - reflexivity.
  - destruct (body s e) as [s1 | f]; simpl; [apply IH | reflexivity].
Qed.

(** ** Canonical order *)

Section SortFacts.

Context {A : Type}.
Variable key : A -> SimplifierHashType.

Lemma insert_by_Permutation (x : A) (l : list A) :
  Permutation (x :: l) (insert_by key x l).
Proof.
  induction l as [| y l IH]; simpl.
  - apply Permutation_refl.
  - destruct (N.leb (key x) (key y)).
    + apply Permutation_refl.
    + eapply perm_trans; [apply perm_swap |].
      apply perm_skip. exact IH.
Qed.

Lemma sort_by_Permutation (l : list A) : Permutation l (sort_by key l).
Proof.
  induction l as [| x l IH]; simpl.
  - constructor.
  - eapply perm_trans; [apply perm_skip; exact IH |].
    apply insert_by_Permutation.
Qed.



End SortFacts.





(** The sort looks at its elements through their keys alone: replacing
    elements by others of the same keys replaces them in the result,
    place by place. *)
Lemma insert_by_key_only {A : Type} (key : A -> SimplifierHashType)
  (R : A -> A -> Prop) (x x' : A) (l l' : list A) :
  (forall a b, R a b -> key a = key b) ->
  R x x' -> Forall2 R l l' ->
  Forall2 R (insert_by key x l) (insert_by key x' l').
Proof.
  intros Hkey Hx Hl. induction Hl as [| y y' l l' Hy Hl IH]; simpl.
  - constructor; [exact Hx | constructor].
  - rewrite <- (Hkey _ _ Hx), <- (Hkey _ _ Hy).
    destruct (N.leb (key x) (key y)).
    + constructor; [exact Hx |]. constructor; [exact Hy | exact Hl].
    + constructor; [exact Hy | exact IH].
Qed.

Lemma sort_by_key_only {A : Type} (key : A -> SimplifierHashType)
  (R : A -> A -> Prop) (l l' : list A) :
  (forall a b, R a b -> key a = key b) ->
  Forall2 R l l' -> Forall2 R (sort_by key l) (sort_by key l').
Proof.
  intros Hkey Hl. induction Hl as [| x x' l l' Hx Hl IH]; simpl.
  - constructor.
  - apply insert_by_key_only; assumption.
Qed.

(** No sort of that kind gives two distinct elements of one key an order
    of its own: exchanged in the input, they are exchanged in the
    result. *)
Section TiedKeys.

Context {A : Type}.
Variable key : A -> SimplifierHashType.
Variable sort : list A -> list A.
Hypothesis sort_Permutation : forall l, Permutation l (sort l).
Hypothesis sort_key_only :
  forall (R : A -> A -> Prop) l l',
    (forall a b, R a b -> key a = key b) ->
    Forall2 R l l' -> Forall2 R (sort l) (sort l').

Lemma tied_keys_keep_input_order (a b : A) :
  a <> b -> key a = key b -> sort [a; b] <> sort [b; a].
Proof.
  intros Hab Hk Heq.
  set (R := fun x y : A => (x = a /\ y = b) \/ (x = b /\ y = a)).
  assert (HR : Forall2 R (sort [a; b]) (sort [b; a])).
  { apply sort_key_only.
    - intros x y [[-> ->] | [-> ->]]; [exact Hk | symmetry; exact Hk].
    - constructor; [left; split; reflexivity |].
      constructor; [right; split; reflexivity | constructor]. }
  rewrite <- Heq in HR.
  destruct (Permutation_length_2_inv (sort_Permutation [a; b]))
    as [Hs | Hs]; rewrite Hs in HR;
    inversion HR as [| ? ? ? ? Hhead _]; subst;
    destruct Hhead as [[H1 H2] | [H1 H2]]; congruence.
Qed.

End TiedKeys.

Lemma addComponent_app {A : Type} (variables_ es : list A) :
  addComponent variables_ es = variables_ ++ es.
Proof.
  revert variables_. induction es as [| e es IH]; intros variables_; simpl.
  - symmetry. apply app_nil_r.
  - rewrite IH, <- app_assoc. reflexivity.
Qed.

Lemma addComponents_of_map_app {A : Type} (variables_ : list A)
  (varmap : unordered_map A) :
  addComponents_of_map variables_ varmap = variables_ ++ map snd varmap.
Proof.
  unfold addComponents_of_map.
  revert variables_. induction varmap as [| p varmap IH]; intros variables_;
    simpl.
  - symmetry. apply app_nil_r.
  - rewrite IH, <- app_assoc. reflexivity.
Qed.

(* ================================================================== *)
(** ** Dtype promotion *)

Section PromotionFacts.

Variable promoteTypes : Dtype -> Dtype -> result Dtype.

Section ContainerFacts.

Context {ExprType : Type} `{ExprNode ExprType}.

(** Once the [first] flag is down, the loop is the plain fold of
    [promoteTypes]. *)
Lemma promote_loop_after_first (v : list ExprType) (t : Dtype) :
  for_each (promote_loop_body promoteTypes) v (t, false) =
  t' <- promote_all promoteTypes v t ;; Ok (t', false).
Proof.
  unfold promote_all. revert t.
  induction v as [| e v IH]; intros t; simpl.
  - reflexivity.
  - destruct (promoteTypes t (dtype (upcast e))) as [t1 | f]; simpl.
    + apply IH.
    + reflexivity.
Qed.

Lemma promote_loop_first (e : ExprType) (v : list ExprType) (t : Dtype) :
  for_each (promote_loop_body promoteTypes) (e :: v) (t, true) =
  t' <- promote_all promoteTypes (e :: v)
          (mkDtype (scalar_type t) (lanes (dtype (upcast e)))) ;;
  Ok (t', false).
Proof.
  unfold promote_all. simpl.
  destruct (promoteTypes _ (dtype (upcast e))) as [t1 | f]; simpl.
  - apply promote_loop_after_first.
  - reflexivity.
Qed.

Lemma for_each_map_snd {K S : Type} (body : S -> ExprType -> result S)
  (m : list (K * ExprType)) (s : S) :
  for_each (fun st e => body st (snd e)) m s = for_each body (map snd m) s.
Proof.
  revert s. induction m as [| p m IH]; intros s; simpl.
  - reflexivity.
  - destruct (body s (snd p)) as [s1 | f]; simpl; [apply IH | reflexivity].
Qed.

(** C4.  Promoting the dtypes of an empty vector, with no scalar to start
    from, throws [malformed_input]; the terms-only [Polynomial]
    constructor, which computes its dtype that way, lets the failure
    through, so no Polynomial is built from an empty term list there.
    Where a scalar supplies the dtype, the empty list is accepted. *)
Theorem promoteTypesVec_empty_is_malformed_input :
  promoteTypesVec_v promoteTypes (@nil ExprType)
    = Err (malformed_input "empty list of types")
  /\ (forall this hasher arena,
        Polynomial_terms promoteTypes this hasher [] arena
          = Err (malformed_input "empty list of types"))
  /\ (forall s : Expr,
        promoteTypesVec promoteTypes s (@nil ExprType) = Ok (dtype s)).
Proof.
  split; [reflexivity |].
  split; [intros; reflexivity | intros; reflexivity].
Qed.

(** C10.  In [promoteTypesVec(s, v)] and [promoteTypesMap(s, m)] the
    scalar keeps its scalar type only: its lane count is replaced by that
    of the first element processed, whatever the scalar is (constant or
    not), and [promoteTypes] is then folded over all the elements, the
    first one included. *)
Theorem promoteTypesVec_scalar_takes_first_lanes (s : Expr) :
  (forall (v0 : ExprType) (v : list ExprType),
     promoteTypesVec promoteTypes s (v0 :: v) =
     promote_all promoteTypes (v0 :: v)
       (mkDtype (scalar_type (dtype s)) (lanes (dtype (upcast v0)))))
  /\ (forall (p0 : SimplifierHashType * ExprType)
             (m : unordered_map ExprType),
        promoteTypesMap promoteTypes s (p0 :: m) =
        promote_all promoteTypes (map snd (p0 :: m))
          (mkDtype (scalar_type (dtype s)) (lanes (dtype (upcast (snd p0)))))).
Proof.
  split.
  - intros v0 v. unfold promoteTypesVec.
    rewrite promote_loop_first.
    destruct (promote_all _ _ _) as [t | f]; reflexivity.
  - intros p0 m. unfold promoteTypesMap.
    rewrite (for_each_map_snd (promote_loop_body promoteTypes)).
    change (map snd (p0 :: m)) with (snd p0 :: map snd m).
    rewrite promote_loop_first.
    destruct (promote_all _ _ _) as [t | f]; reflexivity.
Qed.

End ContainerFacts.

Lemma promoteTypesVar_nonconstant (e e' : Expr) (es : list Expr) :
  isConstant e = false ->
  promoteTypesVar promoteTypes e (e' :: es) =
  rhs <- promoteTypesVar promoteTypes e' es ;; promoteTypes (dtype e) rhs.
Proof.
  intros Hc. simpl. rewrite Hc. reflexivity.
Qed.

(** C6.  In [promoteTypesVar(e, es...)] a constant left operand takes the
    lane count of the right-hand side: its scalar type is recombined with
    the lanes of the dtype promoted from the remaining operands, and that
    dtype is what [promoteTypes] is applied to. *)
Theorem promoteTypesVar_constant_adopts_lanes (e e' : Expr)
  (es : list Expr) :
  isConstant e = true ->
  promoteTypesVar promoteTypes e (e' :: es) =
  rhs <- promoteTypesVar promoteTypes e' es ;;
  promoteTypes (mkDtype (scalar_type (dtype e)) (lanes rhs)) rhs.
Proof.
  intros Hc. simpl. rewrite Hc. reflexivity.
Qed.

End PromotionFacts.

(** A one-lane constant next to a four-lane variable: the constant's dtype
    is widened to four lanes, and the promotion, which rejects a lane
    mismatch, goes through. *)
Lemma promoteTypesVar_constant_adopts_lanes_witness :
  isConstant Sample.two = true
  /\ promoteTypesVar Sample.promoteTypes Sample.two [Sample.z4]
     = Ok Sample.int4.
Proof.
  split; [reflexivity |].
  exact (eq_trans
           (promoteTypesVar_constant_adopts_lanes Sample.promoteTypes
              Sample.two Sample.z4 [] eq_refl)
           eq_refl).
Defined.

(** The same pair with a variable on the left keeps its one lane and the
    promotion fails. *)
Example promoteTypesVar_variable_keeps_lanes :
  promoteTypesVar Sample.promoteTypes Sample.x [Sample.z4]
  = Err (malformed_input "promoting types with different lanes").
Proof. reflexivity. Qed.

(** A non-constant one-lane scalar ahead of four-lane variables: the
    vector and map promotions widen it all the same. *)
Example promoteTypesVec_widens_variable_scalar :
  promoteTypesVec Sample.promoteTypes Sample.x [Sample.z4; Sample.z4]
  = Ok Sample.int4
  /\ promoteTypesMap Sample.promoteTypes Sample.x
       [(3%N, Sample.z4); (8%N, Sample.z4)] = Ok Sample.int4.
Proof. split; reflexivity. Qed.

(* ================================================================== *)
(** ** Constructors *)

Section ConstructorFacts.

Variable promoteTypes : Dtype -> Dtype -> result Dtype.
Variable hasher : HashProvider.





(** The variadic constructors do refuse a non-constant scalar: either the
    dtype promotion has already thrown, or the [CHECK] aborts. *)
Lemma variadic_constructors_check_scalar (s : Expr) :
  isConstant s = false ->
  (forall this ts, failed (Term_variadic promoteTypes this hasher s ts))
  /\ (forall this ts,
        failed (Polynomial_variadic promoteTypes this hasher s ts)).
Proof.
  intros Hs. split; intros this ts.
  - unfold Term_variadic.
    destruct (promoteTypesVar promoteTypes s ts); simpl; [| exact I].
    rewrite Hs. exact I.
  - unfold Polynomial_variadic.
    destruct (promoteTypesVar promoteTypes s (map upcast ts)); simpl;
      [| exact I].
    rewrite Hs. exact I.
Qed.

(** The vector and map constructors have no such check: whenever the
    dtype promotion goes through they complete, whatever the scalar is. *)
Lemma vector_and_map_constructors_do_not_check_scalar (this : addr)
  (s : Expr) :
  (forall v dt,
     promoteTypesVec promoteTypes s v = Ok dt ->
     Term_vector promoteTypes this hasher s v
       = Ok (mkTerm this dt (Term_sort hasher v) s))
  /\ (forall varmap dt,
        promoteTypesMap promoteTypes s varmap = Ok dt ->
        Term_map promoteTypes this hasher s varmap
          = Ok (mkTerm this dt (Term_sort hasher (map snd varmap)) s))
  /\ (forall v dt,
        promoteTypesVec promoteTypes s v = Ok dt ->
        Polynomial_vector promoteTypes this hasher s v
          = Ok (mkPolynomial this dt (Polynomial_sort hasher v) s))
  /\ (forall varmap dt,
        promoteTypesMap promoteTypes s varmap = Ok dt ->
        Polynomial_map promoteTypes this hasher s varmap
          = Ok (mkPolynomial this dt
                  (Polynomial_sort hasher (map snd varmap)) s)).
Proof.
  repeat split.
  - intros v dt Hdt. unfold Term_vector. rewrite Hdt. reflexivity.
  - intros varmap dt Hdt. unfold Term_map. rewrite Hdt. simpl.
    rewrite addComponents_of_map_app. reflexivity.
  - intros v dt Hdt. unfold Polynomial_vector. rewrite Hdt. reflexivity.
  - intros varmap dt Hdt. unfold Polynomial_map. rewrite Hdt. simpl.
    rewrite addComponents_of_map_app. reflexivity.
Qed.

(** C9.  The terms-only [Polynomial] constructor completes exactly when
    the promotion of the Terms' dtypes does, and the Polynomial it builds
    has that promoted dtype and, as its scalar, the freshly allocated
    literal [0] of that same dtype, a constant.  The promoted dtype is
    spelled out: none for no Terms; for one Term its dtype promoted with
    itself; for a further Term the dtype so far promoted with that Term's
    dtype; in all, the first Term's dtype promoted with the dtype of every
    Term in order, the first included. *)
Theorem Polynomial_terms_scalar_is_zero (this : addr)
  (terms : list Term) (arena : Arena) :
  (forall t,
     promoteTypesVec_v promoteTypes terms = Ok t ->
     exists p,
       Polynomial_terms promoteTypes this hasher terms arena
         = Ok (p, N.succ arena)
       /\ Polynomial_.dtype p = t
       /\ Polynomial_.scalar p = fst (getImmediateByType t 0 arena)
       /\ Polynomial_.scalar p = Imm arena t 0)
  /\ (forall p arena',
        Polynomial_terms promoteTypes this hasher terms arena
          = Ok (p, arena') ->
        promoteTypesVec_v promoteTypes terms = Ok (Polynomial_.dtype p)
        /\ Polynomial_.scalar p = Imm arena (Polynomial_.dtype p) 0
        /\ isConstant (Polynomial_.scalar p) = true
        /\ dtype (Polynomial_.scalar p) = Polynomial_.dtype p)
  /\ (terms = [] ->
      Polynomial_terms promoteTypes this hasher terms arena
        = Err (malformed_input "empty list of types"))
  /\ (forall t0 : Term,
        promoteTypesVec_v promoteTypes [t0]
          = promoteTypes (Term_.dtype t0) (Term_.dtype t0))
  /\ (forall (t0 : Term) (rest : list Term) (t : Term),
        promoteTypesVec_v promoteTypes ((t0 :: rest) ++ [t])
          = (dt <- promoteTypesVec_v promoteTypes (t0 :: rest) ;;
             promoteTypes dt (Term_.dtype t)))
  /\ (forall t0 rest dt,
        terms = t0 :: rest ->
        promote_all promoteTypes (t0 :: rest) (Term_.dtype t0) = Ok dt ->
        Polynomial_terms promoteTypes this hasher terms arena
          = Ok (mkPolynomial this dt (Polynomial_sort hasher terms)
                  (Imm arena dt 0),
                N.succ arena))
  /\ (forall t0 rest f,
        terms = t0 :: rest ->
        promote_all promoteTypes (t0 :: rest) (Term_.dtype t0) = Err f ->
        Polynomial_terms promoteTypes this hasher terms arena = Err f).
Proof.
  split; [| split; [| split; [| split; [| split; [| split]]]]].
  - intros t Ht. unfold Polynomial_terms. rewrite Ht. simpl.
    eexists. split; [reflexivity |].
    repeat split.
  - intros p arena' Hc. unfold Polynomial_terms in Hc.
    apply bind_result_Ok_inv in Hc. destruct Hc as (dt & Hdt & Hc).
    simpl in Hc. injection Hc as <- <-. simpl.
    repeat split. exact Hdt.
  - intros ->. reflexivity.
  - intros t0. simpl.
    destruct (promoteTypes (Term_.dtype t0) (Term_.dtype t0));
      reflexivity.
  - intros t0 rest t. unfold promoteTypesVec_v.
    cbn [app].
    change (t0 :: rest ++ [t]) with ((t0 :: rest) ++ [t]).
    rewrite for_each_app.
    destruct (for_each _ (t0 :: rest) _) as [dt | f]; simpl;
      [| reflexivity].
    destruct (promoteTypes dt (Term_.dtype t)); reflexivity.
  - intros t0 rest dt -> Hdt. unfold Polynomial_terms, promoteTypesVec_v.
    change (dtype (upcast t0)) with (Term_.dtype t0).
    unfold promote_all in Hdt. rewrite Hdt. reflexivity.
  - intros t0 rest f -> Hf. unfold Polynomial_terms, promoteTypesVec_v.
    change (dtype (upcast t0)) with (Term_.dtype t0).
    unfold promote_all in Hf. rewrite Hf. reflexivity.
Qed.

End ConstructorFacts.



(** This does not hang on how the sort is written: the order of [2*x] and
    [3*x] is out of reach of every sort by [hashVars], [Polynomial::sort]
    as modelled being one. *)
Example Polynomial_sort_leaves_tied_terms :
  Polynomial_sort Sample.hasher [Sample.term_2x; Sample2.term_3x]
  <> Polynomial_sort Sample.hasher [Sample2.term_3x; Sample.term_2x].
Proof.
  apply (tied_keys_keep_input_order (Term_hashVars Sample.hasher)
           (Polynomial_sort Sample.hasher)).
  - intros l. apply sort_by_Permutation.
  - intros R l l'. apply sort_by_key_only.
  - discriminate.
  - reflexivity.
Qed.

Example no_sort_by_hashVars_orders_tied_terms :
  forall sort : list Term -> list Term,
    (forall l, Permutation l (sort l)) ->
    (forall (R : Term -> Term -> Prop) l l',
       (forall a b, R a b ->
                    Term_hashVars Sample.hasher a
                    = Term_hashVars Sample.hasher b) ->
       Forall2 R l l' -> Forall2 R (sort l) (sort l')) ->
    sort [Sample.term_2x; Sample2.term_3x]
    <> sort [Sample2.term_3x; Sample.term_2x].
Proof.
  intros sort HP Hkey.
  apply (tied_keys_keep_input_order (Term_hashVars Sample.hasher) sort HP
           Hkey).
  - discriminate.
  - reflexivity.
Qed.

(** The terms-only constructor over [2*x] and [3*y], both [Int], and over
    [2*x] and [7*w], an [Int] and a [Long] Term: the scalar of the second
    Polynomial is the [Long] zero. *)
Lemma Polynomial_terms_scalar_is_zero_witness :
  promoteTypesVec_v Sample.promoteTypes [Sample.term_2x; Sample.term_3y]
    = Ok Sample.int1
  /\ (exists p,
        Polynomial_terms Sample.promoteTypes 40%N Sample.hasher
          [Sample.term_2x; Sample.term_3y] 50%N = Ok (p, 51%N)
        /\ Polynomial_.dtype p = Sample.int1
        /\ Polynomial_.scalar p
           = fst (getImmediateByType Sample.int1 0 50%N)
        /\ Polynomial_.scalar p = Imm 50%N Sample.int1 0)
  /\ promote_all Sample.promoteTypes [Sample.term_2x; Sample2.term_7w]
       (Term_.dtype Sample.term_2x)
     = Ok Sample.long1
  /\ Polynomial_terms Sample.promoteTypes 40%N Sample.hasher
       [Sample.term_2x; Sample2.term_7w] 50%N
     = Ok (mkPolynomial 40%N Sample.long1
             [Sample2.term_7w; Sample.term_2x] (Imm 50%N Sample.long1 0),
           51%N).
Proof.
  split; [reflexivity |].
  split.
  - exact (proj1 (Polynomial_terms_scalar_is_zero Sample.promoteTypes
                    Sample.hasher 40%N [Sample.term_2x; Sample.term_3y]
                    50%N)
                 Sample.int1 eq_refl).
  - split; [reflexivity |].
    exact (proj1 (proj2 (proj2 (proj2 (proj2 (proj2
             (Polynomial_terms_scalar_is_zero Sample.promoteTypes
                Sample.hasher 40%N [Sample.term_2x; Sample2.term_7w]
                50%N))))))
             Sample.term_2x [Sample2.term_7w] Sample.long1 eq_refl
             eq_refl).
Defined.

(** C5.  The scalar slot is checked by the variadic constructors only.
    With the variable [x] as scalar, the vector and map constructors of
    Term and of Polynomial complete and store [x] as the scalar, where the
    variadic constructors abort on their [CHECK]. *)
Example nonconstant_scalar_accepted :
  isConstant Sample.x = false
  /\ Term_vector Sample.promoteTypes 30%N Sample.hasher Sample.x [Sample.y]
     = Ok (mkTerm 30%N Sample.int1 [Sample.y] Sample.x)
  /\ Term_map Sample.promoteTypes 30%N Sample.hasher Sample.x
       [(338%N, Sample.y)]
     = Ok (mkTerm 30%N Sample.int1 [Sample.y] Sample.x)
  /\ Polynomial_vector Sample.promoteTypes 30%N Sample.hasher Sample.x
       [Sample.term_3y]
     = Ok (mkPolynomial 30%N Sample.int1 [Sample.term_3y] Sample.x)
  /\ Polynomial_map Sample.promoteTypes 30%N Sample.hasher Sample.x
       [(338%N, Sample.term_3y)]
     = Ok (mkPolynomial 30%N Sample.int1 [Sample.term_3y] Sample.x)
  /\ Term_variadic Sample.promoteTypes 30%N Sample.hasher Sample.x
       [Sample.y]
     = Err (check_failure "s->isConstant()")
  /\ Polynomial_variadic Sample.promoteTypes 30%N Sample.hasher Sample.x
       [Sample.term_3y]
     = Err (check_failure "s->isConstant()").
Proof. repeat split. Qed.

(* ================================================================== *)
(** ** The generic binary fold *)

Section MutatorFacts.

Variable Stmt : Type.
Variable promoteTypes : Dtype -> Dtype -> result Dtype.
Variable evaluateOp : Expr -> Arena -> result (Expr * Arena).

Lemma newBinaryOpOfType_Ok (ty : IRNodeType) (lhs rhs : Expr)
  (option : bool) (arena : Arena) (dt : Dtype) :
  promoteTypes (dtype lhs) (dtype rhs) = Ok dt ->
  newBinaryOpOfType promoteTypes ty lhs rhs option arena =
  Ok (BinaryOp
        (mkBinaryOpNode arena dt ty lhs rhs
           match ty with kMax | kMin => option | _ => false end),
      N.succ arena).
Proof.
  intros Hdt. unfold newBinaryOpOfType. rewrite Hdt. reflexivity.
Qed.

(** [mutateBinaryOp] once both operands have been mutated: the node is
    the original or the rebuilt one, and it is folded or returned. *)
Lemma mutateBinaryOp_after_operands {Self : Type} `{IRMutator Stmt Self}
  (v : BinaryOpNode) (mutator mutator1 mutator2 : Self) (option : bool)
  (arena arena1 arena2 : Arena) (lhs_new rhs_new : Expr) :
  accept_mutator (BinaryOpNode_.lhs v) mutator arena
    = Ok (lhs_new, mutator1, arena1) ->
  accept_mutator (BinaryOpNode_.rhs v) mutator1 arena1
    = Ok (rhs_new, mutator2, arena2) ->
  mutateBinaryOp promoteTypes evaluateOp v mutator option arena =
  ' (node, arena3) <-
    (if ptr_eqb (BinaryOpNode_.lhs v) lhs_new
        && ptr_eqb (BinaryOpNode_.rhs v) rhs_new
     then Ok (BinaryOp v, arena2)
     else newBinaryOpOfType promoteTypes (BinaryOpNode_.expr_type v)
            lhs_new rhs_new option arena2) ;;
  if isConstant lhs_new && isConstant rhs_new
  then ' (folded, arena4) <- evaluateOp node arena3 ;;
       Ok (folded, mutator2, arena4)
  else Ok (node, mutator2, arena3).
Proof.
  intros Hl Hr. unfold mutateBinaryOp. rewrite Hl. simpl. rewrite Hr. simpl.
  rewrite <- !negb_andb.
  destruct (ptr_eqb (BinaryOpNode_.lhs v) lhs_new
            && ptr_eqb (BinaryOpNode_.rhs v) rhs_new); simpl.
  - destruct (isConstant lhs_new && isConstant rhs_new); reflexivity.
  - destruct (newBinaryOpOfType _ _ _ _ _ _) as [[node arena3] | f]; simpl.
    + destruct (isConstant lhs_new && isConstant rhs_new); reflexivity.
    + reflexivity.
Qed.

Context {PolynomialTransformer_mutator : IRMutator Stmt PolynomialTransformer}.

(** C2.  For a node of kind Mod, And, Xor, Lshift or Rshift, [mutate]
    mutates the left operand, then the right one.  With neither operand
    changed the node is the original node itself; with an operand changed
    it is a new node of the same kind over the mutated operands.  That
    node is the result when a mutated operand is not constant, and it is
    handed to [evaluateOp], whose literal is the result, when both are
    constant. *)
Theorem mutate_binary_rebuilds_and_folds (v : BinaryOpNode) :
  In (BinaryOpNode_.expr_type v) [kMod; kAnd; kXor; kLshift; kRshift] ->
  exists mutate,
    PolynomialTransformer_mutate promoteTypes evaluateOp v = Some mutate
    /\ forall this this1 this2 arena arena1 arena2 lhs_new rhs_new,
         accept_mutator (BinaryOpNode_.lhs v) this arena
           = Ok (lhs_new, this1, arena1) ->
         accept_mutator (BinaryOpNode_.rhs v) this1 arena1
           = Ok (rhs_new, this2, arena2) ->
         let unchanged :=
           ptr_eqb (BinaryOpNode_.lhs v) lhs_new
           && ptr_eqb (BinaryOpNode_.rhs v) rhs_new in
         let constant := isConstant lhs_new && isConstant rhs_new in
         let rebuilt dt :=
           BinaryOp (mkBinaryOpNode arena2 dt (BinaryOpNode_.expr_type v)
                       lhs_new rhs_new false) in
         (unchanged = true -> constant = false ->
          mutate this arena = Ok (BinaryOp v, this2, arena2))
         /\ (unchanged = false -> constant = false ->
             forall dt,
               promoteTypes (dtype lhs_new) (dtype rhs_new) = Ok dt ->
               mutate this arena = Ok (rebuilt dt, this2, N.succ arena2))
         /\ (unchanged = true -> constant = true ->
             mutate this arena =
             ' (folded, arena3) <- evaluateOp (BinaryOp v) arena2 ;;
             Ok (folded, this2, arena3))
         /\ (unchanged = false -> constant = true ->
             forall dt,
               promoteTypes (dtype lhs_new) (dtype rhs_new) = Ok dt ->
               mutate this arena =
               ' (folded, arena3) <-
                 evaluateOp (rebuilt dt) (N.succ arena2) ;;
               Ok (folded, this2, arena3)).
Proof.
  intros Hkind.
  exists (fun this arena =>
            mutateBinaryOp promoteTypes evaluateOp v this false arena).
  split.
  - unfold PolynomialTransformer_mutate.
    simpl in Hkind.
    destruct Hkind as [<- | [<- | [<- | [<- | [<- | []]]]]]; reflexivity.
  - intros this this1 this2 arena arena1 arena2 lhs_new rhs_new Hl Hr.
    cbv zeta.
    rewrite (mutateBinaryOp_after_operands v this false arena Hl Hr).
    assert (Hflag :
      match BinaryOpNode_.expr_type v with
      | kMax | kMin => false
      | _ => false
      end = false) by (destruct (BinaryOpNode_.expr_type v); reflexivity).
    repeat split.
    + intros -> ->. reflexivity.
    + intros -> -> dt Hdt.
      rewrite (newBinaryOpOfType_Ok _ _ _ _ _ Hdt), Hflag. reflexivity.
    + intros -> ->. reflexivity.
    + intros -> -> dt Hdt.
      rewrite (newBinaryOpOfType_Ok _ _ _ _ _ Hdt), Hflag. reflexivity.
Qed.

(** C3.  For a Max or Min node, the node [mutate] returns (or hands to
    [evaluateOp] when both mutated operands are constant) carries the
    NaN-propagation flag of the input node: it is the input node itself
    when no operand changed, and otherwise a new node of the same kind
    over the mutated operands with the input node's flag. *)
Theorem mutate_max_min_keeps_propagate_nans (v : BinaryOpNode) :
  In (BinaryOpNode_.expr_type v) [kMax; kMin] ->
  exists mutate,
    PolynomialTransformer_mutate promoteTypes evaluateOp v = Some mutate
    /\ forall this this1 this2 arena arena1 arena2 lhs_new rhs_new,
         accept_mutator (BinaryOpNode_.lhs v) this arena
           = Ok (lhs_new, this1, arena1) ->
         accept_mutator (BinaryOpNode_.rhs v) this1 arena1
           = Ok (rhs_new, this2, arena2) ->
         let unchanged :=
           ptr_eqb (BinaryOpNode_.lhs v) lhs_new
           && ptr_eqb (BinaryOpNode_.rhs v) rhs_new in
         let finish (node : BinaryOpNode) (arena3 : Arena) :=
           if isConstant lhs_new && isConstant rhs_new
           then ' (folded, arena4) <- evaluateOp (BinaryOp node) arena3 ;;
                Ok (folded, this2, arena4)
           else Ok (BinaryOp node, this2, arena3) in
         (unchanged = true -> mutate this arena = finish v arena2)
         /\ (unchanged = false ->
             forall dt,
               promoteTypes (dtype lhs_new) (dtype rhs_new) = Ok dt ->
               exists node,
                 mutate this arena = finish node (N.succ arena2)
                 /\ BinaryOpNode_.propagate_nans node
                    = BinaryOpNode_.propagate_nans v
                 /\ BinaryOpNode_.expr_type node = BinaryOpNode_.expr_type v
                 /\ BinaryOpNode_.lhs node = lhs_new
                 /\ BinaryOpNode_.rhs node = rhs_new).
Proof.
  intros Hkind.
  exists (fun this arena =>
            mutateBinaryOp promoteTypes evaluateOp v this
              (BinaryOpNode_.propagate_nans v) arena).
  split.
  - unfold PolynomialTransformer_mutate.
    simpl in Hkind. destruct Hkind as [<- | [<- | []]]; reflexivity.
  - intros this this1 this2 arena arena1 arena2 lhs_new rhs_new Hl Hr.
    cbv zeta.
    rewrite (mutateBinaryOp_after_operands v this _ arena Hl Hr).
    split.
    + intros ->. simpl.
      destruct (isConstant lhs_new && isConstant rhs_new); reflexivity.
    + intros -> dt Hdt.
      rewrite (newBinaryOpOfType_Ok _ _ _ _ _ Hdt). simpl.
      eexists. split; [reflexivity |].
      simpl. repeat split.
      simpl in Hkind. destruct Hkind as [<- | [<- | []]]; reflexivity.
Qed.

End MutatorFacts.

(** [x % 2]: the left operand is replaced by the mutator, the node is
    rebuilt as a Mod over the new operand and returned unfolded. *)
Lemma mutate_binary_rebuilds_and_folds_witness :
  exists mutate,
    PolynomialTransformer_mutate Sample.promoteTypes Sample.evaluateOp
      Sample.mod_x_2 = Some mutate
    /\ mutate Sample.transformer 20%N
       = Ok (BinaryOp (mkBinaryOpNode 21%N Sample.int1 kMod
                         (Var 20%N Sample.int1 "x") Sample.two false),
             Sample.transformer, 22%N).
Proof.
  destruct (mutate_binary_rebuilds_and_folds Sample.promoteTypes
              Sample.evaluateOp Sample.mod_x_2 (or_introl eq_refl))
    as (mutate & Hsome & Hspec).
  exists mutate. split; [exact Hsome |].
  exact (proj1 (proj2
           (Hspec Sample.transformer Sample.transformer Sample.transformer
                  20%N 21%N 21%N (Var 20%N Sample.int1 "x") Sample.two
                  eq_refl eq_refl))
           eq_refl eq_refl Sample.int1 eq_refl).
Defined.

(** [3 % 2]: no operand changes, both are literals, the original node is
    folded to the literal [1]. *)
Example mutate_Mod_folds_literals :
  PolynomialTransformer_mutate_Mod Sample.promoteTypes Sample.evaluateOp
    Sample.mod_3_2 Sample.transformer 20%N
  = Ok (Imm 20%N Sample.int1 1, Sample.transformer, 21%N).
Proof. reflexivity. Qed.

(** [max(x, 2)] with the flag set: the rebuilt Max has the flag set. *)
Lemma mutate_max_min_keeps_propagate_nans_witness :
  exists mutate,
    PolynomialTransformer_mutate Sample.promoteTypes Sample.evaluateOp
      Sample.max_x_2 = Some mutate
    /\ exists node,
         mutate Sample.transformer 20%N
           = Ok (BinaryOp node, Sample.transformer, 22%N)
         /\ BinaryOpNode_.propagate_nans node = true
         /\ BinaryOpNode_.expr_type node = kMax.
Proof.
  destruct (mutate_max_min_keeps_propagate_nans Sample.promoteTypes
              Sample.evaluateOp Sample.max_x_2 (or_introl eq_refl))
    as (mutate & Hsome & Hspec).
  exists mutate. split; [exact Hsome |].
  destruct (proj2
              (Hspec Sample.transformer Sample.transformer Sample.transformer
                     20%N 21%N 21%N (Var 20%N Sample.int1 "x") Sample.two
                     eq_refl eq_refl)
              eq_refl Sample.int1 eq_refl)
    as (node & Hrun & Hflag & Hkind & _).
  exists node. split; [exact Hrun |]. split; [exact Hflag | exact Hkind].
Defined.

(** [min(3, 2)] with the flag set: both operands are literals, the result
    is the folded literal, which has no flag. *)
Example mutate_Min_folds_literals :
  PolynomialTransformer_mutate_Min Sample.promoteTypes Sample.evaluateOp
    Sample.min_3_2 Sample.transformer 20%N
  = Ok (Imm 20%N Sample.int1 2, Sample.transformer, 21%N).
Proof. reflexivity. Qed.

(* ================================================================== *)
(** ** The facade *)

Section FacadeFacts.

Variable Stmt : Type.
Variable HashProvider_default : HashProvider.
Context {PolynomialTransformer_mutator : IRMutator Stmt PolynomialTransformer}.
Context {TermExpander_mutator : IRMutator Stmt TermExpander}.


End FacadeFacts.

(** With mutators that clone variables, [simplify] clones [x] twice: once
    per pass. *)
Example simplify_clones_twice :
  IRSimplifier_simplify Sample.hasher Sample.x 20%N
  = Ok (Var 21%N Sample.int1 "x", 22%N)
  /\ IRSimplifier_simplify_stmt Sample.hasher [Sample.x; Sample.two] 20%N
     = Ok ([Var 21%N Sample.int1 "x"; Sample.two], 22%N).
Proof. split; reflexivity. Qed.

(** With a first pass that marks the transformer and a second pass that
    reads the hash provider behind [simplifier_], [simplify] returns the
    marked hashes, 3 for the literal 2: the expander reached the
    transformer the first pass ran on, not another new one, whose
    provider gives 2. *)
Example simplify_expander_reads_marked_transformer :
  @IRSimplifier_simplify Sample.Stmt Sample.hasher
     Marking.transformer_mutator Marking.expander_mutator Sample.two 20%N
  = Ok (Imm 20%N Sample.int1 3, 21%N)
  /\ @IRSimplifier_simplify_stmt Sample.Stmt Sample.hasher
       Marking.transformer_mutator Marking.expander_mutator
       [Sample.two; Sample.three] 20%N
     = Ok ([Imm 20%N Sample.int1 3; Imm 21%N Sample.int1 4], 22%N)
  /\ @accept_mutator Sample.Stmt TermExpander Marking.expander_mutator
       Sample.two (TermExpander_new (PolynomialTransformer_new Sample.hasher))
       20%N
     = Ok (Imm 20%N Sample.int1 2,
           TermExpander_new (PolynomialTransformer_new Sample.hasher), 21%N).
Proof. repeat split. Qed.

(* ================================================================== *)
(** * Further properties of the simplifier header *)

Section MoreConstructorFacts.

Variable promoteTypes : Dtype -> Dtype -> result Dtype.
Variable hasher : HashProvider.

(** The map-based helpers and constructors do what the vector-based ones
    do on the values of the map, taken in iteration order: same promoted
    dtype, same failure, same object. *)
Theorem map_constructors_agree_with_vector_constructors (this : addr)
  (s : Expr) :
  (forall (ExprType : Type) (H : ExprNode ExprType)
          (m : unordered_map ExprType),
     promoteTypesMap promoteTypes s m
       = promoteTypesVec promoteTypes s (map snd m))
  /\ (forall varmap : unordered_map Expr,
        Term_map promoteTypes this hasher s varmap
          = Term_vector promoteTypes this hasher s (map snd varmap))
  /\ (forall varmap : unordered_map Term,
        Polynomial_map promoteTypes this hasher s varmap
          = Polynomial_vector promoteTypes this hasher s (map snd varmap)).
Proof.
  assert (Hmap : forall (ExprType : Type) (H : ExprNode ExprType)
                        (m : unordered_map ExprType),
             promoteTypesMap promoteTypes s m
               = promoteTypesVec promoteTypes s (map snd m)).
  { intros ExprType H m. unfold promoteTypesMap, promoteTypesVec.
    rewrite (for_each_map_snd (promote_loop_body promoteTypes) m).
    reflexivity. }
  split; [exact Hmap |]. split.
  - intros varmap. unfold Term_map, Term_vector.
    rewrite Hmap, addComponents_of_map_app. reflexivity.
  - intros varmap. unfold Polynomial_map, Polynomial_vector.
    rewrite Hmap, addComponents_of_map_app. reflexivity.
Qed.

(** The variadic constructors complete exactly when the dtype promotion
    goes through and the scalar is constant.  The promotion runs first: a
    failing promotion is the failure reported, also for a non-constant
    scalar; the [CHECK] aborts only after a successful promotion. *)
Theorem variadic_constructors_complete_iff (this : addr) (s : Expr) :
  (forall ts t,
     Term_variadic promoteTypes this hasher s ts = Ok t
     <-> isConstant s = true
         /\ exists dt, promoteTypesVar promoteTypes s ts = Ok dt
                       /\ t = mkTerm this dt (Term_sort hasher ts) s)
  /\ (forall ts f,
        promoteTypesVar promoteTypes s ts = Err f ->
        Term_variadic promoteTypes this hasher s ts = Err f)
  /\ (forall ts dt,
        promoteTypesVar promoteTypes s ts = Ok dt ->
        isConstant s = false ->
        Term_variadic promoteTypes this hasher s ts
          = Err (check_failure "s->isConstant()"))
  /\ (forall ts p,
        Polynomial_variadic promoteTypes this hasher s ts = Ok p
        <-> isConstant s = true
            /\ exists dt,
                 promoteTypesVar promoteTypes s (map upcast ts) = Ok dt
                 /\ p = mkPolynomial this dt (Polynomial_sort hasher ts) s)
  /\ (forall ts f,
        promoteTypesVar promoteTypes s (map upcast ts) = Err f ->
        Polynomial_variadic promoteTypes this hasher s ts = Err f)
  /\ (forall ts dt,
        promoteTypesVar promoteTypes s (map upcast ts) = Ok dt ->
        isConstant s = false ->
        Polynomial_variadic promoteTypes this hasher s ts
          = Err (check_failure "s->isConstant()")).
Proof.
  assert (HT : forall ts t,
     Term_variadic promoteTypes this hasher s ts = Ok t
     <-> isConstant s = true
         /\ exists dt, promoteTypesVar promoteTypes s ts = Ok dt
                       /\ t = mkTerm this dt (Term_sort hasher ts) s).
  { intros ts t. unfold Term_variadic. rewrite addComponent_app. simpl.
    destruct (promoteTypesVar promoteTypes s ts) as [dt | f]; simpl.
    - destruct (isConstant s); simpl.
      + split.
        * intros [= <-]. split; [reflexivity |].
          exists dt. split; reflexivity.
        * intros (_ & dt' & [= <-] & ->). reflexivity.
      + split; [discriminate | intros (Hs & _); discriminate Hs].
    - split; [discriminate | intros (_ & dt & Hdt & _); discriminate Hdt]. }
  assert (HP : forall ts p,
     Polynomial_variadic promoteTypes this hasher s ts = Ok p
     <-> isConstant s = true
         /\ exists dt,
              promoteTypesVar promoteTypes s (map upcast ts) = Ok dt
              /\ p = mkPolynomial this dt (Polynomial_sort hasher ts) s).
  { intros ts p. unfold Polynomial_variadic. rewrite addComponent_app. simpl.
    destruct (promoteTypesVar promoteTypes s (map upcast ts)) as [dt | f];
      simpl.
    - destruct (isConstant s); simpl.
      + split.
        * intros [= <-]. split; [reflexivity |].
          exists dt. split; reflexivity.
        * intros (_ & dt' & [= <-] & ->). reflexivity.
      + split; [discriminate | intros (Hs & _); discriminate Hs].
    - split; [discriminate | intros (_ & dt & Hdt & _); discriminate Hdt]. }
  split; [exact HT |]. split; [| split; [| split; [exact HP | split]]].
  - intros ts f Hf. unfold Term_variadic. rewrite Hf. reflexivity.
  - intros ts dt Hdt Hs. unfold Term_variadic. rewrite Hdt, Hs. reflexivity.
  - intros ts f Hf. unfold Polynomial_variadic. rewrite Hf. reflexivity.
  - intros ts dt Hdt Hs. unfold Polynomial_variadic. rewrite Hdt, Hs.
    reflexivity.
Qed.

End MoreConstructorFacts.

(** The variable [x] as scalar: the promotion goes through and the
    [CHECK] aborts; the literal 2 as scalar: the object is built. *)
Lemma variadic_constructors_complete_iff_witness :
  promoteTypesVar Sample.promoteTypes Sample.x [Sample.y] = Ok Sample.int1
  /\ isConstant Sample.x = false
  /\ Term_variadic Sample.promoteTypes 30%N Sample.hasher Sample.x
       [Sample.y]
     = Err (check_failure "s->isConstant()")
  /\ Term_variadic Sample.promoteTypes 30%N Sample.hasher Sample.two
       [Sample.y]
     = Ok (mkTerm 30%N Sample.int1 (Term_sort Sample.hasher [Sample.y])
             Sample.two).
Proof.
  split; [reflexivity |].
  split; [reflexivity |].
  split.
  - exact (proj1 (proj2 (proj2
             (variadic_constructors_complete_iff Sample.promoteTypes
                Sample.hasher 30%N Sample.x)))
             [Sample.y] Sample.int1 eq_refl eq_refl).
  - apply (proj1 (variadic_constructors_complete_iff Sample.promoteTypes
                    Sample.hasher 30%N Sample.two)).
    split; [reflexivity |].
    exists Sample.int1. split; reflexivity.
Defined.

Section MorePromotionFacts.

Variable promoteTypes : Dtype -> Dtype -> result Dtype.

Lemma promote_all_app {ExprType : Type} `{ExprNode ExprType}
  (v w : list ExprType) (t : Dtype) :
  promote_all promoteTypes (v ++ w) t =
  t' <- promote_all promoteTypes v t ;; promote_all promoteTypes w t'.
Proof.
  unfold promote_all. apply for_each_app.
Qed.

(** The scalar of [promoteTypesVec(s, v)], [promoteTypesMap(s, m)] and a
    constant first operand of [promoteTypesVar] enter the promotion of a
    non-empty container through their scalar type only: two scalars of the
    same scalar type and different lane counts give the same result. *)
Theorem scalar_lanes_are_ignored (s1 s2 : Expr) :
  scalar_type (dtype s1) = scalar_type (dtype s2) ->
  (forall (ExprType : Type) (H : ExprNode ExprType) (v0 : ExprType)
          (v : list ExprType),
     promoteTypesVec promoteTypes s1 (v0 :: v)
       = promoteTypesVec promoteTypes s2 (v0 :: v))
  /\ (forall (ExprType : Type) (H : ExprNode ExprType)
             (p0 : SimplifierHashType * ExprType)
             (m : unordered_map ExprType),
        promoteTypesMap promoteTypes s1 (p0 :: m)
          = promoteTypesMap promoteTypes s2 (p0 :: m))
  /\ (isConstant s1 = true -> isConstant s2 = true ->
      forall e' es,
        promoteTypesVar promoteTypes s1 (e' :: es)
          = promoteTypesVar promoteTypes s2 (e' :: es)).
Proof.
  intros Hst. split; [| split].
  - intros ExprType H v0 v.
    rewrite !(proj1 (promoteTypesVec_scalar_takes_first_lanes
                       promoteTypes _)), Hst.
    reflexivity.
  - intros ExprType H p0 m.
    rewrite !(proj2 (promoteTypesVec_scalar_takes_first_lanes
                       promoteTypes _)), Hst.
    reflexivity.
  - intros H1 H2 e' es.
    rewrite !promoteTypesVar_constant_adopts_lanes by assumption.
    rewrite Hst. reflexivity.
Qed.

(** In [promoteTypesVar] the last operand contributes its dtype as it is:
    whether it is constant is never consulted, so a trailing constant does
    not take the lane count of its siblings. *)
Theorem promoteTypesVar_last_operand_by_dtype (e : Expr) (es : list Expr)
  (l1 l2 : Expr) :
  dtype l1 = dtype l2 ->
  promoteTypesVar promoteTypes e (es ++ [l1])
    = promoteTypesVar promoteTypes e (es ++ [l2]).
Proof.
  intros Hd. revert e. induction es as [| e' es IH]; intros e.
  - simpl. rewrite Hd. reflexivity.
  - change ((e' :: es) ++ [l1]) with (e' :: (es ++ [l1])).
    change ((e' :: es) ++ [l2]) with (e' :: (es ++ [l2])).
    simpl. rewrite (IH e'). reflexivity.
Qed.

(** The vector promotion is incremental: past a non-empty prefix, the
    promotion of the whole vector is the fold of the remaining elements
    onto the prefix's result.  So a failure of [promoteTypes] at an
    element is the result, whatever follows that element, and no Term is
    built over such a vector. *)
Theorem promoteTypesVec_is_incremental {ExprType : Type}
  `{ExprNode ExprType} (s : Expr) (v0 : ExprType) (v1 : list ExprType) :
  (forall v2,
     promoteTypesVec promoteTypes s ((v0 :: v1) ++ v2) =
     t <- promoteTypesVec promoteTypes s (v0 :: v1) ;;
     promote_all promoteTypes v2 t)
  /\ (forall t e v2 f,
        promoteTypesVec promoteTypes s (v0 :: v1) = Ok t ->
        promoteTypes t (dtype (upcast e)) = Err f ->
        promoteTypesVec promoteTypes s ((v0 :: v1) ++ e :: v2) = Err f).
Proof.
  assert (Hinc : forall v2,
     promoteTypesVec promoteTypes s ((v0 :: v1) ++ v2) =
     t <- promoteTypesVec promoteTypes s (v0 :: v1) ;;
     promote_all promoteTypes v2 t).
  { intros v2.
    change ((v0 :: v1) ++ v2) with (v0 :: (v1 ++ v2)).
    rewrite !(proj1 (promoteTypesVec_scalar_takes_first_lanes
                       promoteTypes _)).
    change (v0 :: (v1 ++ v2)) with ((v0 :: v1) ++ v2).
    apply promote_all_app. }
  split; [exact Hinc |].
  intros t e v2 f Ht Hf. rewrite Hinc, Ht. simpl.
  unfold promote_all. simpl. rewrite Hf. reflexivity.
Qed.

(** Operands of one dtype [d] that [promoteTypes] maps to itself: a
    scalar of [d]'s scalar type, of any lane count, and a non-empty list
    of operands of dtype [d] promote to [d], and for a constant scalar the
    variadic and the vector constructor build the same Term. *)
Theorem uniform_operands_keep_their_dtype (d : Dtype) (s e0 : Expr)
  (es : list Expr) :
  promoteTypes d d = Ok d ->
  scalar_type (dtype s) = scalar_type d ->
  Forall (fun e => dtype e = d) (e0 :: es) ->
  promoteTypesVec promoteTypes s (e0 :: es) = Ok d
  /\ (isConstant s = true ->
      promoteTypesVar promoteTypes s (e0 :: es) = Ok d
      /\ forall this hasher,
           Term_variadic promoteTypes this hasher s (e0 :: es)
             = Term_vector promoteTypes this hasher s (e0 :: es)
           /\ Term_vector promoteTypes this hasher s (e0 :: es)
              = Ok (mkTerm this d (Term_sort hasher (e0 :: es)) s)).
Proof.
  intros Hdd Hs Hall.
  assert (Hd : mkDtype (scalar_type d) (lanes d) = d) by (destruct d; reflexivity).
  assert (Hfold : forall l : list Expr,
             Forall (fun e => dtype e = d) l ->
             promote_all promoteTypes l d = Ok d).
  { induction l as [| a l IH]; intros Hl; [reflexivity |].
    pose proof (Forall_inv Hl) as Ha.
    pose proof (Forall_inv_tail Hl) as Hl'.
    unfold promote_all. simpl. unfold upcast, ExprNode_Expr.
    rewrite Ha, Hdd. simpl. apply IH. exact Hl'. }
  assert (Hvec : promoteTypesVec promoteTypes s (e0 :: es) = Ok d).
  { rewrite (proj1 (promoteTypesVec_scalar_takes_first_lanes
                      promoteTypes s)).
    pose proof (Forall_inv Hall) as H0.
    unfold upcast, ExprNode_Expr. rewrite Hs, H0, Hd.
    apply Hfold. exact Hall. }
  assert (Hvar : forall l e,
             Forall (fun e => dtype e = d) l ->
             dtype e = d \/ (isConstant e = true
                             /\ scalar_type (dtype e) = scalar_type d) ->
             l <> [] \/ dtype e = d ->
             promoteTypesVar promoteTypes e l = Ok d).
  { induction l as [| a l IH]; intros e Hl He Hne.
    - simpl. destruct Hne as [Hne | Hne]; [congruence | rewrite Hne; reflexivity].
    - pose proof (Forall_inv Hl) as Ha.
      pose proof (Forall_inv_tail Hl) as Hl'.
      simpl. rewrite (IH a Hl' (or_introl Ha) (or_intror Ha)). simpl.
      destruct He as [He | [Hc Hst]].
      + rewrite He. destruct (isConstant e); rewrite ?Hd; exact Hdd.
      + rewrite Hc, Hst, Hd. exact Hdd. }
  split; [exact Hvec |].
  intros Hc.
  assert (Hvar' : promoteTypesVar promoteTypes s (e0 :: es) = Ok d).
  { apply Hvar; [exact Hall | right; split; assumption | left; discriminate]. }
  split; [exact Hvar' |].
  intros this hasher. unfold Term_variadic, Term_vector.
  rewrite Hvar', Hvec, Hc. simpl. rewrite addComponent_app.
  split; reflexivity.
Qed.

End MorePromotionFacts.

Lemma scalar_lanes_are_ignored_witness :
  scalar_type (dtype Sample.two) = scalar_type (dtype Sample2.two4)
  /\ promoteTypesVec Sample.promoteTypes Sample.two [Sample.z4]
     = promoteTypesVec Sample.promoteTypes Sample2.two4 [Sample.z4]
  /\ promoteTypesVec Sample.promoteTypes Sample2.two4 [Sample.z4]
     = Ok Sample.int4.
Proof.
  split; [reflexivity |].
  split; [| reflexivity].
  exact (proj1 (scalar_lanes_are_ignored Sample.promoteTypes
                  Sample.two Sample2.two4 eq_refl)
               Expr _ Sample.z4 []).
Defined.

(** A trailing one-lane literal behind a four-lane variable fails like a
    trailing one-lane variable does; a leading literal would have been
    widened. *)
Lemma promoteTypesVar_last_operand_by_dtype_witness :
  dtype Sample.two = dtype Sample.y
  /\ promoteTypesVar Sample.promoteTypes Sample.z4 [Sample.two]
     = promoteTypesVar Sample.promoteTypes Sample.z4 [Sample.y]
  /\ promoteTypesVar Sample.promoteTypes Sample.z4 [Sample.y]
     = Err (malformed_input "promoting types with different lanes").
Proof.
  split; [reflexivity |].
  split; [| reflexivity].
  exact (promoteTypesVar_last_operand_by_dtype Sample.promoteTypes
           Sample.z4 [] Sample.two Sample.y eq_refl).
Defined.

Lemma promoteTypesVec_is_incremental_witness :
  promoteTypesVec Sample.promoteTypes Sample.two [Sample.x] = Ok Sample.int1
  /\ Sample.promoteTypes Sample.int1 (dtype Sample.z4)
     = Err (malformed_input "promoting types with different lanes")
  /\ promoteTypesVec Sample.promoteTypes Sample.two
       ([Sample.x] ++ Sample.z4 :: [Sample.y])
     = Err (malformed_input "promoting types with different lanes").
Proof.
  split; [reflexivity |].
  split; [reflexivity |].
  exact (proj2 (promoteTypesVec_is_incremental Sample.promoteTypes
                  Sample.two Sample.x [])
               Sample.int1 Sample.z4 [Sample.y] _ eq_refl eq_refl).
Defined.

Lemma uniform_operands_keep_their_dtype_witness :
  Sample.promoteTypes Sample.int1 Sample.int1 = Ok Sample.int1
  /\ Term_variadic Sample.promoteTypes 30%N Sample.hasher Sample.two
       [Sample.y; Sample.x]
     = Term_vector Sample.promoteTypes 30%N Sample.hasher Sample.two
         [Sample.y; Sample.x].
Proof.
  split; [reflexivity |].
  assert (Hall : Forall (fun e => dtype e = Sample.int1)
                         [Sample.y; Sample.x])
    by (constructor; [reflexivity | constructor; [reflexivity | constructor]]).
  exact (proj1 (proj2 (proj2
                   (uniform_operands_keep_their_dtype Sample.promoteTypes
                      (d := Sample.int1) Sample.two eq_refl eq_refl Hall)
                   eq_refl) 30%N Sample.hasher)).
Defined.

Section MoreMutatorFacts.

Variable Stmt : Type.
Variable promoteTypes : Dtype -> Dtype -> result Dtype.
Variable evaluateOp : Expr -> Arena -> result (Expr * Arena).

(** [mutateBinaryOp] recovers from nothing: a failure of the mutator on
    the left operand, on the right operand, of the rebuild or of
    [evaluateOp] is the failure of the whole call. *)
Theorem mutateBinaryOp_propagates_failures {Self : Type}
  `{IRMutator Stmt Self} (v : BinaryOpNode) (mutator : Self)
  (option : bool) (arena : Arena) :
  (forall f,
     accept_mutator (BinaryOpNode_.lhs v) mutator arena = Err f ->
     mutateBinaryOp promoteTypes evaluateOp v mutator option arena = Err f)
  /\ (forall lhs_new mutator1 arena1 f,
        accept_mutator (BinaryOpNode_.lhs v) mutator arena
          = Ok (lhs_new, mutator1, arena1) ->
        accept_mutator (BinaryOpNode_.rhs v) mutator1 arena1 = Err f ->
        mutateBinaryOp promoteTypes evaluateOp v mutator option arena
          = Err f)
  /\ (forall lhs_new rhs_new mutator1 mutator2 arena1 arena2,
        accept_mutator (BinaryOpNode_.lhs v) mutator arena
          = Ok (lhs_new, mutator1, arena1) ->
        accept_mutator (BinaryOpNode_.rhs v) mutator1 arena1
          = Ok (rhs_new, mutator2, arena2) ->
        (forall f,
           ptr_eqb (BinaryOpNode_.lhs v) lhs_new
             && ptr_eqb (BinaryOpNode_.rhs v) rhs_new = false ->
           newBinaryOpOfType promoteTypes (BinaryOpNode_.expr_type v)
             lhs_new rhs_new option arena2 = Err f ->
           mutateBinaryOp promoteTypes evaluateOp v mutator option arena
             = Err f)
        /\ (forall f,
              ptr_eqb (BinaryOpNode_.lhs v) lhs_new
                && ptr_eqb (BinaryOpNode_.rhs v) rhs_new = true ->
              isConstant lhs_new && isConstant rhs_new = true ->
              evaluateOp (BinaryOp v) arena2 = Err f ->
              mutateBinaryOp promoteTypes evaluateOp v mutator option arena
                = Err f)
        /\ (forall node arena3 f,
              ptr_eqb (BinaryOpNode_.lhs v) lhs_new
                && ptr_eqb (BinaryOpNode_.rhs v) rhs_new = false ->
              newBinaryOpOfType promoteTypes (BinaryOpNode_.expr_type v)
                lhs_new rhs_new option arena2 = Ok (node, arena3) ->
              isConstant lhs_new && isConstant rhs_new = true ->
              evaluateOp node arena3 = Err f ->
              mutateBinaryOp promoteTypes evaluateOp v mutator option arena
                = Err f)).
Proof.
  split; [| split].
  - intros f Hl. unfold mutateBinaryOp. rewrite Hl. reflexivity.
  - intros lhs_new mutator1 arena1 f Hl Hr.
    unfold mutateBinaryOp. rewrite Hl. simpl. rewrite Hr. reflexivity.
  - intros lhs_new rhs_new mutator1 mutator2 arena1 arena2 Hl Hr.
    rewrite (mutateBinaryOp_after_operands promoteTypes evaluateOp
               v mutator option arena Hl Hr).
    split; [| split].
    + intros f Hu Hn. rewrite Hu, Hn. reflexivity.
    + intros f Hu Hc He. rewrite Hu, Hc. simpl. rewrite He. reflexivity.
    + intros node arena3 f Hu Hn Hc He. rewrite Hu, Hn, Hc. simpl.
      rewrite He. reflexivity.
Qed.

End MoreMutatorFacts.

(** A RoundOff node over two literals: the operands are left alone and
    constant, the sample evaluator has no rule for RoundOff, and its
    failure is the result. *)
Lemma mutateBinaryOp_propagates_failures_witness :
  Sample.evaluateOp (BinaryOp Sample2.roundoff_3_2) 20%N
    = Err (other_failure "unsupported operator")
  /\ mutateBinaryOp Sample.promoteTypes Sample.evaluateOp
       Sample2.roundoff_3_2 Sample.transformer false 20%N
     = Err (other_failure "unsupported operator").
Proof.
  split; [reflexivity |].
  exact (proj1 (proj2
           (proj2 (proj2
              (mutateBinaryOp_propagates_failures Sample.promoteTypes
                 Sample.evaluateOp Sample2.roundoff_3_2 Sample.transformer
                 false 20%N))
              Sample.three Sample.two Sample.transformer Sample.transformer
              20%N 20%N eq_refl eq_refl))
           _ eq_refl eq_refl eq_refl).
Defined.

(* ================================================================== *)
(** * Properties of the tensor library files *)

Module c10_facts.

Import c10.
Local Open Scope outcome_scope.
Local Open Scope Z_scope.
Local Unset Implicit Arguments.

Lemma bind_Returns_inv {A B : Type} (m : outcome A) (k : A -> outcome B)
  (b : B) :
  bind m k = Returns b -> exists a, m = Returns a /\ k a = Returns b.
Proof.
  destruct m as [a | e |]; simpl; intros Hk; try discriminate Hk.
  exists a. split; [reflexivity | exact Hk].
Qed.

Lemma equals_eq (a b : IntArrayRef) : equals a b = true <-> a = b.
Proof.
  revert b. induction a as [| x a IH]; intros [| y b]; simpl;
    try (split; [discriminate | discriminate]).
  - split; reflexivity.
  - rewrite andb_true_iff, Z.eqb_eq, IH. split.
    + intros [-> ->]. reflexivity.
    + intros [= -> ->]. split; reflexivity.
Qed.

Lemma equals_neq (a b : IntArrayRef) : equals a b = false <-> a <> b.
Proof.
  rewrite <- equals_eq. destruct (equals a b); split; congruence.
Qed.

Lemma to_int_small (z : Z) : 0 <= z < 2 ^ 31 -> to_int z = z.
Proof.
  intros Hz. unfold to_int. rewrite Z.mod_small; lia.
Qed.

Lemma to_size_t_small (z : Z) : 0 <= z < 2 ^ 64 -> to_size_t z = z.
Proof.
  intros Hz. unfold to_size_t. apply Z.mod_small. exact Hz.
Qed.

Lemma product_app (l1 l2 : list Z) :
  product (l1 ++ l2) = product l1 * product l2.
Proof.
  unfold product. induction l1 as [| x l1 IH]; simpl.
  - destruct (fold_right Z.mul 1 l2); reflexivity.
  - rewrite IH. ring.
Qed.

Lemma product_nonneg (l : list Z) :
  Forall (fun x => 0 <= x) l -> 0 <= product l.
Proof.
  unfold product. induction 1 as [| x l Hx Hl IH]; simpl; [lia | nia].
Qed.

Lemma product_pos (l : list Z) :
  Forall (fun x => 0 < x) l -> 0 < product l.
Proof.
  unfold product. induction 1 as [| x l Hx Hl IH]; simpl; [lia | nia].
Qed.

Lemma product_zero (l : list Z) : In 0 l -> product l = 0.
Proof.
  unfold product. induction l as [| x l IH]; simpl; intros Hin.
  - contradiction.
  - destruct Hin as [-> | Hin]; [reflexivity |].
    rewrite (IH Hin). ring.
Qed.

(** [accumulate] returns exactly when every partial product fits, and
    then it returns the product. *)
Lemma accumulate_multiplies_Returns (l : list Z) (init r : Z) :
  accumulate_multiplies l init = Returns r
  <-> products_fit init l /\ r = init * product l.
Proof.
  revert init. induction l as [| x l IH]; intros init; simpl.
  - unfold product. simpl. split.
    + intros [= <-]. split; [exact I | ring].
    + intros [_ ->]. f_equal. ring.
  - unfold mul_int64. destruct (in_int64 (init * x)) eqn:Hfit; simpl.
    + rewrite IH. unfold product. simpl. split.
      * intros [Hl ->]. split; [split; [reflexivity | exact Hl] | ring].
      * intros [[_ Hl] ->]. split; [exact Hl | ring].
    + split; [discriminate | intros [[Hx _] _]; discriminate Hx].
Qed.

Lemma accumulate_multiplies_never_throws (l : list Z) (init : Z) e :
  accumulate_multiplies l init <> Throws e.
Proof.
  revert init. induction l as [| x l IH]; intros init; simpl.
  - discriminate.
  - unfold mul_int64. destruct (in_int64 (init * x)); simpl.
    + apply IH.
    + discriminate.
Qed.

(** Positive sizes whose product is an [int64_t]: every partial product
    is one too. *)
Lemma products_fit_positive (l : list Z) (init : Z) :
  0 < init -> Forall (fun x => 0 < x) l -> init * product l < 2 ^ 63 ->
  products_fit init l.
Proof.
  revert init. induction l as [| x l IH]; intros init Hi Hall Hp; simpl.
  - exact I.
  - pose proof (Forall_inv Hall) as Hx.
    pose proof (Forall_inv_tail Hall) as Hl.
    pose proof (product_pos _ Hl) as Hpl.
    unfold product in *. simpl in Hp.
    assert (Hix : 0 < init * x) by nia.
    split.
    + unfold in_int64. apply andb_true_iff. split.
      * apply Z.leb_le. lia.
      * apply Z.ltb_lt.
        assert (init * x <= init * x * fold_right Z.mul 1 l) by nia.
        nia.
    + apply IH; [exact Hix | exact Hl |].
      replace (init * x * fold_right Z.mul 1 l)
        with (init * (x * fold_right Z.mul 1 l)) by ring.
      exact Hp.
Qed.

End c10_facts.

Module LayerNorm_facts.

Import c10 c10_facts LayerNorm.
Local Open Scope outcome_scope.
Local Open Scope Z_scope.
Local Unset Implicit Arguments.

Section Facts.

Variable Tensor : Type.
Variable defined : Tensor -> bool.
Variable sizes : Tensor -> IntArrayRef.
Variable is_contiguous : Tensor -> bool.
Variable contiguous : Tensor -> Tensor.
Variable show_IntArrayRef : IntArrayRef -> string.
Variable show_int64 : Z -> string.

Local Abbreviation prepare :=
  (_prepare_layer_norm_inputs defined sizes is_contiguous contiguous
     show_IntArrayRef show_int64).

(** The suffix test of the code, read as a statement on the two shapes. *)
Lemma suffix_test (input_shape normalized_shape : IntArrayRef) :
  Z.of_nat (List.length normalized_shape) < 2 ^ 31 ->
  Z.of_nat (List.length input_shape) < 2 ^ 31 ->
  ((Z.of_nat (List.length input_shape)
      <? to_int (Z.of_nat (List.length normalized_shape)))
   || negb (equals
              (slice (Z.of_nat (List.length input_shape)
                      - to_int (Z.of_nat (List.length normalized_shape)))
                     input_shape)
              normalized_shape)) = false
  <-> exists leading, input_shape = leading ++ normalized_shape.
Proof.
  intros Hn Hi. rewrite (to_int_small (Z.of_nat _)) by lia.
  rewrite orb_false_iff, negb_false_iff, Z.ltb_ge, equals_eq.
  unfold slice. split.
  - intros [Hle Hskip].
    set (k := Z.to_nat (Z.of_nat (List.length input_shape)
                        - Z.of_nat (List.length normalized_shape))) in *.
    exists (firstn k input_shape).
    transitivity (firstn k input_shape ++ skipn k input_shape).
    + symmetry. apply firstn_skipn.
    + f_equal. exact Hskip.
  - intros [leading ->]. rewrite length_app. split; [lia |].
    replace (Z.to_nat _) with (List.length leading) by lia.
    rewrite skipn_app, skipn_all, Nat.sub_diag. reflexivity.
Qed.

(** Past its checks, the function is the two accumulations. *)
Lemma prepare_past_checks (input weight bias : Tensor)
  (leading normalized_shape : IntArrayRef) :
  Z.of_nat (List.length normalized_shape) < 2 ^ 31 ->
  Z.of_nat (List.length (sizes input)) < 2 ^ 31 ->
  normalized_shape <> [] ->
  defined weight = false \/ sizes weight = normalized_shape ->
  defined bias = false \/ sizes bias = normalized_shape ->
  sizes input = leading ++ normalized_shape ->
  prepare input normalized_shape weight bias =
  M <- accumulate_multiplies leading 1 ;;
  N <- accumulate_multiplies normalized_shape 1 ;;
  Returns (if is_contiguous input then input else contiguous input,
           if is_contiguous weight then weight else contiguous weight,
           if is_contiguous bias then bias else contiguous bias, M, N).
Proof.
  intros Hn Hi Hne Hw Hb Hshape. unfold _prepare_layer_norm_inputs, dim.
  assert (Hlen : 1 <= Z.of_nat (List.length normalized_shape))
    by (destruct normalized_shape; [congruence | simpl; lia]).
  assert (Hc1 : (1 <=? to_int (Z.of_nat (List.length normalized_shape)))
                = true)
    by (rewrite to_int_small by lia; apply Z.leb_le; exact Hlen).
  rewrite Hc1. simpl.
  assert (Hc2 : negb (defined weight)
                || equals (sizes weight) normalized_shape = true).
  { destruct Hw as [-> | ->]; [reflexivity |].
    rewrite (proj2 (equals_eq _ _) eq_refl). apply orb_true_r. }
  assert (Hc3 : negb (defined bias)
                || equals (sizes bias) normalized_shape = true).
  { destruct Hb as [-> | ->]; [reflexivity |].
    rewrite (proj2 (equals_eq _ _) eq_refl). apply orb_true_r. }
  rewrite Hc2, Hc3. simpl.
  rewrite (proj2 (suffix_test (sizes input) normalized_shape Hn Hi))
    by (exists leading; exact Hshape).
  rewrite Hshape in *. rewrite length_app in *.
  rewrite (to_int_small (Z.of_nat (List.length normalized_shape)))
    by lia.
  rewrite to_int_small by lia.
  replace (Z.to_nat _) with (List.length leading) by lia.
  rewrite firstn_app, firstn_all, Nat.sub_diag, app_nil_r.
  rewrite skipn_app, skipn_all, Nat.sub_diag. reflexivity.
Qed.

(** The three [TORCH_CHECK] conditions, read as statements. *)
Lemma check_normalized_ndim (normalized_shape : IntArrayRef) :
  Z.of_nat (List.length normalized_shape) < 2 ^ 31 ->
  normalized_shape <> [] ->
  (1 <=? to_int (Z.of_nat (List.length normalized_shape))) = true.
Proof.
  intros Hn Hne. rewrite to_int_small by lia. apply Z.leb_le.
  destruct normalized_shape; [congruence | simpl; lia].
Qed.

Lemma check_shape_passes (t : Tensor) (normalized_shape : IntArrayRef) :
  defined t = false \/ sizes t = normalized_shape ->
  negb (defined t) || equals (sizes t) normalized_shape = true.
Proof.
  intros [-> | ->]; [reflexivity |].
  rewrite (proj2 (equals_eq _ _) eq_refl). apply orb_true_r.
Qed.

Lemma check_shape_fails (t : Tensor) (normalized_shape : IntArrayRef) :
  defined t = true -> sizes t <> normalized_shape ->
  negb (defined t) || equals (sizes t) normalized_shape = false.
Proof.
  intros -> Hneq. rewrite (proj2 (equals_neq _ _) Hneq). reflexivity.
Qed.

(** The checks of [_prepare_layer_norm_inputs], in the order they fire:
    an empty [normalized_shape]; a defined weight of another shape; a
    defined bias of another shape; an input whose shape does not end in
    [normalized_shape].  Each throws its own [c10::Error]. *)
Theorem prepare_layer_norm_inputs_rejects (input weight bias : Tensor)
  (normalized_shape : IntArrayRef) :
  Z.of_nat (List.length normalized_shape) < 2 ^ 31 ->
  Z.of_nat (List.length (sizes input)) < 2 ^ 31 ->
  (normalized_shape = [] ->
   prepare input normalized_shape weight bias
     = Throws (Error (normalized_shape_message show_IntArrayRef [])))
  /\ (normalized_shape <> [] ->
      defined weight = true -> sizes weight <> normalized_shape ->
      prepare input normalized_shape weight bias
        = Throws (Error (shape_mismatch_message sizes show_IntArrayRef
                           "weight" weight normalized_shape)))
  /\ (normalized_shape <> [] ->
      defined weight = false \/ sizes weight = normalized_shape ->
      defined bias = true -> sizes bias <> normalized_shape ->
      prepare input normalized_shape weight bias
        = Throws (Error (shape_mismatch_message sizes show_IntArrayRef
                           "bias" bias normalized_shape)))
  /\ (normalized_shape <> [] ->
      defined weight = false \/ sizes weight = normalized_shape ->
      defined bias = false \/ sizes bias = normalized_shape ->
      (forall leading, sizes input <> leading ++ normalized_shape) ->
      prepare input normalized_shape weight bias
        = Throws (Error (input_shape_message show_IntArrayRef show_int64
                           normalized_shape (sizes input)))).
Proof.
  intros Hn Hi.
  split; [| split; [| split]].
  - intros ->. reflexivity.
  - intros Hne Hd Hs. unfold _prepare_layer_norm_inputs.
    rewrite (check_normalized_ndim _ Hn Hne),
      (check_shape_fails weight _ Hd Hs).
    reflexivity.
  - intros Hne Hw Hd Hs. unfold _prepare_layer_norm_inputs.
    rewrite (check_normalized_ndim _ Hn Hne),
      (check_shape_passes weight _ Hw), (check_shape_fails bias _ Hd Hs).
    reflexivity.
  - intros Hne Hw Hb Hshape. unfold _prepare_layer_norm_inputs, dim.
    rewrite (check_normalized_ndim _ Hn Hne),
      (check_shape_passes weight _ Hw), (check_shape_passes bias _ Hb).
    simpl.
    destruct (_ || _) eqn:Htest; [reflexivity |].
    apply (suffix_test (sizes input) normalized_shape Hn Hi) in Htest.
    destruct Htest as [leading Hl]. elim (Hshape leading Hl).
Qed.

(** [_prepare_layer_norm_inputs] returns exactly when the input's shape is
    some leading sizes followed by a non-empty [normalized_shape], the
    defined ones of weight and bias have that shape, and the two products
    fit in [int64_t].  It then returns [M], the product of the leading
    sizes, and [N], the product of [normalized_shape], so that [M * N] is
    the number of elements of the input, and the three tensors made
    contiguous where they were not. *)
Theorem prepare_layer_norm_inputs_returns (input weight bias : Tensor)
  (normalized_shape : IntArrayRef) (X gamma beta : Tensor) (M N : Z) :
  Z.of_nat (List.length normalized_shape) < 2 ^ 31 ->
  Z.of_nat (List.length (sizes input)) < 2 ^ 31 ->
  (prepare input normalized_shape weight bias
     = Returns (X, gamma, beta, M, N)
   <-> normalized_shape <> []
       /\ (defined weight = false \/ sizes weight = normalized_shape)
       /\ (defined bias = false \/ sizes bias = normalized_shape)
       /\ (exists leading,
             sizes input = leading ++ normalized_shape
             /\ products_fit 1 leading
             /\ M = product leading)
       /\ products_fit 1 normalized_shape
       /\ N = product normalized_shape
       /\ X = (if is_contiguous input then input else contiguous input)
       /\ gamma = (if is_contiguous weight then weight
                   else contiguous weight)
       /\ beta = (if is_contiguous bias then bias else contiguous bias))
  /\ (prepare input normalized_shape weight bias
        = Returns (X, gamma, beta, M, N) ->
      M * N = product (sizes input)).
Proof.
  intros Hn Hi.
  assert (Hfwd : prepare input normalized_shape weight bias
                   = Returns (X, gamma, beta, M, N) ->
    normalized_shape <> []
    /\ (defined weight = false \/ sizes weight = normalized_shape)
    /\ (defined bias = false \/ sizes bias = normalized_shape)
    /\ (exists leading,
          sizes input = leading ++ normalized_shape
          /\ products_fit 1 leading
          /\ M = product leading)
    /\ products_fit 1 normalized_shape
    /\ N = product normalized_shape
    /\ X = (if is_contiguous input then input else contiguous input)
    /\ gamma = (if is_contiguous weight then weight else contiguous weight)
    /\ beta = (if is_contiguous bias then bias else contiguous bias)).
  { intros Hrun.
    assert (Hne : normalized_shape <> []).
    { intros He. rewrite He in Hrun. discriminate Hrun. }
    assert (Hw : defined weight = false \/ sizes weight = normalized_shape).
    { destruct (defined weight) eqn:Hd; [| left; reflexivity].
      destruct (equals (sizes weight) normalized_shape) eqn:He.
      - right. apply equals_eq. exact He.
      - apply equals_neq in He. unfold _prepare_layer_norm_inputs in Hrun.
        rewrite (check_normalized_ndim _ Hn Hne),
          (check_shape_fails weight _ Hd He) in Hrun.
        discriminate Hrun. }
    assert (Hb : defined bias = false \/ sizes bias = normalized_shape).
    { destruct (defined bias) eqn:Hd; [| left; reflexivity].
      destruct (equals (sizes bias) normalized_shape) eqn:He.
      - right. apply equals_eq. exact He.
      - apply equals_neq in He. unfold _prepare_layer_norm_inputs in Hrun.
        rewrite (check_normalized_ndim _ Hn Hne),
          (check_shape_passes weight _ Hw),
          (check_shape_fails bias _ Hd He) in Hrun.
        discriminate Hrun. }
    assert (Hshape : exists leading,
               sizes input = leading ++ normalized_shape).
    { apply (suffix_test (sizes input) normalized_shape Hn Hi).
      destruct (_ || _) eqn:Htest; [| reflexivity].
      exfalso. unfold _prepare_layer_norm_inputs, dim in Hrun.
      rewrite Htest in Hrun.
      destruct (TORCH_CHECK _ _); simpl in Hrun; try discriminate Hrun.
      destruct (TORCH_CHECK _ _); simpl in Hrun; try discriminate Hrun.
      destruct (TORCH_CHECK _ _); simpl in Hrun; discriminate Hrun. }
    destruct Hshape as [leading Hshape].
    rewrite (prepare_past_checks input weight bias leading normalized_shape
               Hn Hi Hne Hw Hb Hshape)
      in Hrun.
    apply bind_Returns_inv in Hrun. destruct Hrun as (M' & HM & Hrun).
    apply bind_Returns_inv in Hrun. destruct Hrun as (N' & HN & Hrun).
    injection Hrun as <- <- <- <- <-.
    apply accumulate_multiplies_Returns in HM, HN.
    destruct HM as [HfM ->]. destruct HN as [HfN ->].
    repeat split; try assumption; try ring.
    exists leading. repeat split; [exact Hshape | exact HfM | ring]. }
  split; [split; [exact Hfwd |] |].
  - intros (Hne & Hw & Hb & (leading & Hshape & HfM & ->) & HfN & -> & ->
            & -> & ->).
    rewrite (prepare_past_checks input weight bias leading normalized_shape
               Hn Hi Hne Hw Hb Hshape).
    rewrite (proj2 (accumulate_multiplies_Returns leading 1 _)
               (conj HfM (eq_sym (Z.mul_1_l _)))).
    simpl.
    rewrite (proj2 (accumulate_multiplies_Returns normalized_shape 1 _)
               (conj HfN (eq_sym (Z.mul_1_l _)))).
    reflexivity.
  - intros Hrun. apply Hfwd in Hrun.
    destruct Hrun as (_ & _ & _ & (leading & Hshape & _ & ->) & _ & -> & _).
    rewrite Hshape, product_app. reflexivity.
Qed.

Variable double : Type.
Variable ScalarType_ : Type.
Variable MemoryFormat : Type.
Variable scalar_type : Tensor -> ScalarType_.
Variable suggest_memory_format : Tensor -> MemoryFormat.
Variable _empty_affine_quantized :
  IntArrayRef -> ScalarType_ -> double -> Z -> MemoryFormat -> Tensor.
Variable quantized_layer_norm_stub :
  Tensor -> Tensor -> Tensor -> Z -> Z -> double -> Tensor -> outcome Tensor.

(** [quantized_layer_norm_impl] on an input that passes the checks: with a
    zero among the leading sizes [M] is zero, the kernel is not run and
    the output is the tensor as allocated; with positive leading sizes,
    and so with none at all, the kernel is run on the prepared tensors
    with the two products, whatever [normalized_shape] holds. *)
Theorem quantized_layer_norm_impl_runs_kernel_iff_rows
  (input weight bias : Tensor) (leading normalized_shape : IntArrayRef)
  (eps output_scale : double) (output_zero_point : Z) :
  Z.of_nat (List.length normalized_shape) < 2 ^ 31 ->
  Z.of_nat (List.length (sizes input)) < 2 ^ 31 ->
  normalized_shape <> [] ->
  defined weight = false \/ sizes weight = normalized_shape ->
  defined bias = false \/ sizes bias = normalized_shape ->
  sizes input = leading ++ normalized_shape ->
  products_fit 1 leading ->
  products_fit 1 normalized_shape ->
  let X := if is_contiguous input then input else contiguous input in
  let gamma := if is_contiguous weight then weight else contiguous weight in
  let beta := if is_contiguous bias then bias else contiguous bias in
  let Y := _empty_affine_quantized (sizes X) (scalar_type X) output_scale
             output_zero_point (suggest_memory_format X) in
  let run :=
    quantized_layer_norm_impl defined sizes is_contiguous contiguous
      show_IntArrayRef show_int64 scalar_type suggest_memory_format
      _empty_affine_quantized quantized_layer_norm_stub
      input normalized_shape weight bias eps output_scale
      output_zero_point in
  (In 0 leading -> run = Returns Y)
  /\ (Forall (fun size => 0 < size) leading ->
      run = quantized_layer_norm_stub X gamma beta (product leading)
              (product normalized_shape) eps Y).
Proof.
  intros Hn Hi Hne Hw Hb Hshape HfM HfN X gamma beta Y run.
  assert (Hrun : prepare input normalized_shape weight bias
                 = Returns (X, gamma, beta, product leading,
                            product normalized_shape)).
  { rewrite (prepare_past_checks input weight bias leading normalized_shape
               Hn Hi Hne Hw Hb Hshape).
    rewrite (proj2 (accumulate_multiplies_Returns leading 1 _)
               (conj HfM (eq_sym (Z.mul_1_l _)))).
    simpl.
    rewrite (proj2 (accumulate_multiplies_Returns normalized_shape 1 _)
               (conj HfN (eq_sym (Z.mul_1_l _)))).
    reflexivity. }
  subst run. unfold quantized_layer_norm_impl. rewrite Hrun. simpl.
  split.
  - intros Hz. rewrite (product_zero _ Hz). reflexivity.
  - intros Hpos. pose proof (product_pos _ Hpos) as Hp.
    apply Z.ltb_lt in Hp. rewrite Hp. reflexivity.
Qed.

End Facts.

Import LayerNormSample.

(** A defined weight of shape [4, 3] against [normalized_shape = [3, 4]]. *)
Lemma prepare_layer_norm_inputs_rejects_witness :
  _prepare_layer_norm_inputs defined sizes is_contiguous contiguous
    show_IntArrayRef show_int64 input [3; 4] bad_weight no_bias
  = Throws (Error (shape_mismatch_message sizes show_IntArrayRef "weight"
                     bad_weight [3; 4])).
Proof.
  refine (proj1 (proj2
            (prepare_layer_norm_inputs_rejects Tensor defined sizes
               is_contiguous contiguous show_IntArrayRef show_int64
               input bad_weight no_bias [3; 4] _ _)) _ _ _).
  - reflexivity.
  - reflexivity.
  - discriminate.
  - reflexivity.
  - discriminate.
Defined.

(** An input of shape [2, 3, 4] normalized over [3, 4]: two rows of twelve
    elements. *)
Lemma prepare_layer_norm_inputs_returns_witness :
  _prepare_layer_norm_inputs defined sizes is_contiguous contiguous
    show_IntArrayRef show_int64 input [3; 4] weight no_bias
  = Returns (contiguous input, weight, no_bias, 2, 12)
  /\ 2 * 12 = product (sizes input).
Proof.
  assert (Hrun :
    _prepare_layer_norm_inputs defined sizes is_contiguous contiguous
      show_IntArrayRef show_int64 input [3; 4] weight no_bias
    = Returns (contiguous input, weight, no_bias, 2, 12)).
  { refine (proj2 (proj1
              (prepare_layer_norm_inputs_returns Tensor defined sizes
                 is_contiguous contiguous show_IntArrayRef show_int64
                 input weight no_bias [3; 4] (contiguous input) weight
                 no_bias 2 12 _ _)) _).
    - reflexivity.
    - reflexivity.
    - split; [discriminate |].
      split; [right; reflexivity |].
      split; [left; reflexivity |].
      split; [exists [2]; repeat split |].
      repeat split. }
  split; [exact Hrun |].
  refine (proj2
            (prepare_layer_norm_inputs_returns Tensor defined sizes
               is_contiguous contiguous show_IntArrayRef show_int64
               input weight no_bias [3; 4] (contiguous input) weight
               no_bias 2 12 _ _) Hrun).
  - reflexivity.
  - reflexivity.
Defined.

(** An input of shape [2, 0, 3, 4]: no rows, the kernel is not run. *)
Lemma quantized_layer_norm_impl_runs_kernel_iff_rows_witness :
  quantized_layer_norm_impl defined sizes is_contiguous contiguous
    show_IntArrayRef show_int64 (fun _ => tt) (fun _ => tt)
    _empty_affine_quantized quantized_layer_norm_stub
    empty_input [3; 4] weight no_bias tt tt 0
  = Returns (mkTensor true [2; 0; 3; 4] true).
Proof.
  refine (proj1
            (quantized_layer_norm_impl_runs_kernel_iff_rows Tensor defined
               sizes is_contiguous contiguous show_IntArrayRef show_int64
               unit unit unit (fun _ => tt) (fun _ => tt)
               _empty_affine_quantized quantized_layer_norm_stub
               empty_input weight no_bias [2; 0] [3; 4] tt tt 0
               _ _ _ _ _ _ _ _) _).
  - reflexivity.
  - reflexivity.
  - discriminate.
  - right. reflexivity.
  - left. reflexivity.
  - reflexivity.
  - repeat split.
  - repeat split.
  - right. left. reflexivity.
Defined.

End LayerNorm_facts.

Module Buffer_facts.

Import c10 c10_facts Gather.
Local Open Scope outcome_scope.
Local Open Scope Z_scope.
Local Unset Implicit Arguments.

Lemma read_in_range {A : Type} (buffer : list A) (off : Z) :
  0 <= off < Z.of_nat (List.length buffer) ->
  exists a, read buffer off = Returns a
            /\ nth_error buffer (Z.to_nat off) = Some a.
Proof.
  intros Hoff. unfold read.
  replace ((0 <=? off) && (off <? Z.of_nat (List.length buffer)))
    with true by (symmetry; apply andb_true_iff; split;
                  [apply Z.leb_le | apply Z.ltb_lt]; lia).
  destruct (nth_error buffer (Z.to_nat off)) as [a |] eqn:Hnth.
  - exists a. split; reflexivity.
  - apply nth_error_None in Hnth. lia.
Qed.

Lemma read_out_of_range {A : Type} (buffer : list A) (off : Z) :
  ~ (0 <= off < Z.of_nat (List.length buffer)) ->
  read buffer off = Undefined.
Proof.
  intros Hoff. unfold read.
  destruct ((0 <=? off) && (off <? Z.of_nat (List.length buffer)))
    eqn:Htest; [| reflexivity].
  apply andb_true_iff in Htest. destruct Htest as [H1 H2].
  apply Z.leb_le in H1. apply Z.ltb_lt in H2. lia.
Qed.

Lemma read_at (indices : list Z) (i : Z) :
  0 <= i < Z.of_nat (List.length indices) ->
  read indices i = Returns (at_ indices i).
Proof.
  intros Hi. destruct (read_in_range indices i Hi) as (a & Hr & Hn).
  rewrite Hr. f_equal. unfold at_.
  symmetry. apply nth_error_nth. exact Hn.
Qed.

Lemma length_update {A : Type} (buffer : list A) (n : nat) (a : A) :
  List.length (update buffer n a) = List.length buffer.
Proof.
  revert n. induction buffer as [| b buffer IH]; intros [| n]; simpl;
    try reflexivity.
  rewrite IH. reflexivity.
Qed.

Lemma nth_error_update_eq {A : Type} (buffer : list A) (n : nat) (a : A) :
  (n < List.length buffer)%nat -> nth_error (update buffer n a) n = Some a.
Proof.
  revert n. induction buffer as [| b buffer IH]; intros [| n]; simpl;
    intros Hn; try lia.
  - reflexivity.
  - apply IH. lia.
Qed.

Lemma nth_error_update_neq {A : Type} (buffer : list A) (n m : nat) (a : A) :
  n <> m -> nth_error (update buffer n a) m = nth_error buffer m.
Proof.
  revert n m. induction buffer as [| b buffer IH]; intros [| n] [| m] Hnm;
    simpl; try reflexivity; try congruence.
  apply IH. congruence.
Qed.

Lemma write_in_range {A : Type} (buffer : list A) (off : Z) (a : A) :
  0 <= off < Z.of_nat (List.length buffer) ->
  write buffer off a = Returns (update buffer (Z.to_nat off) a).
Proof.
  intros Hoff. unfold write.
  replace ((0 <=? off) && (off <? Z.of_nat (List.length buffer)))
    with true by (symmetry; apply andb_true_iff; split;
                  [apply Z.leb_le | apply Z.ltb_lt]; lia).
  reflexivity.
Qed.

Lemma iterate_app {I S : Type} (body : I -> S -> outcome S)
  (l1 l2 : list I) (s : S) :
  iterate body (l1 ++ l2) s = s' <- iterate body l1 s ;; iterate body l2 s'.
Proof.
  revert s. induction l1 as [| i l1 IH]; intros s; simpl.
  - reflexivity.
  - destruct (body i s) as [s1 | e |]; simpl; [apply IH | | ]; reflexivity.
Qed.

Lemma iterate_ext_in {I S : Type} (body body' : I -> S -> outcome S)
  (l : list I) (s : S) :
  (forall i s, In i l -> body i s = body' i s) ->
  iterate body l s = iterate body' l s.
Proof.
  revert s. induction l as [| i l IH]; intros s Hext; simpl.
  - reflexivity.
  - rewrite (Hext i s (or_introl eq_refl)).
    destruct (body' i s) as [s1 | e |]; simpl; try reflexivity.
    apply IH. intros i' s' Hin. apply Hext. right. exact Hin.
Qed.

Lemma In_upto (n i : Z) : In i (upto n) <-> 0 <= i < n.
Proof.
  unfold upto. rewrite in_map_iff. split.
  - intros (k & <- & Hk). apply in_seq in Hk. lia.
  - intros Hi. exists (Z.to_nat i). split; [lia |].
    apply in_seq. lia.
Qed.

Lemma upto_nonpos (n : Z) : n <= 0 -> upto n = [].
Proof.
  intros Hn. unfold upto. replace (Z.to_nat n) with 0%nat by lia.
  reflexivity.
Qed.

Lemma upto_split (n i : Z) :
  0 <= i < n -> exists rest, upto n = upto i ++ i :: rest.
Proof.
  intros Hi. unfold upto.
  replace (Z.to_nat n)
    with (Z.to_nat i + S (Z.to_nat n - Z.to_nat i - 1))%nat by lia.
  rewrite seq_app, map_app. simpl.
  exists (map Z.of_nat (seq (S (Z.to_nat i))
                            (Z.to_nat n - Z.to_nat i - 1))).
  f_equal. f_equal. lia.
Qed.

Lemma upto_first (n : Z) : 0 < n -> exists rest, upto n = 0 :: rest.
Proof.
  intros Hn. destruct (upto_split n 0 ltac:(lia)) as [rest Hrest].
  exists rest. exact Hrest.
Qed.

(** Copies as cell lists. *)
Lemma copy_cells_app {A : Type} (src : list A) (c1 c2 : list (Z * Z))
  (buffer : list A) :
  copy_cells src (c1 ++ c2) buffer =
  b <- copy_cells src c1 buffer ;; copy_cells src c2 b.
Proof.
  unfold copy_cells.
  revert buffer. induction c1 as [| c c1 IH]; intros buffer; simpl.
  - reflexivity.
  - destruct (bind (read src (snd c)) _) as [b | e |]; simpl;
      [apply IH | |]; reflexivity.
Qed.

Lemma iterate_copy_cells {A : Type} (src : list A)
  (cells_of : Z -> list (Z * Z)) (l : list Z) (buffer : list A) :
  iterate (fun a b => copy_cells src (cells_of a) b) l buffer =
  copy_cells src (flat_map cells_of l) buffer.
Proof.
  revert buffer. induction l as [| a l IH]; intros buffer; simpl.
  - reflexivity.
  - rewrite copy_cells_app.
    destruct (copy_cells src (cells_of a) buffer) as [b | e |]; simpl;
      [apply IH | |]; reflexivity.
Qed.

Lemma iterate_cells {A : Type} (src : list A) (cell_of : Z -> Z * Z)
  (l : list Z) (buffer : list A) :
  iterate (fun k b => v <- read src (snd (cell_of k)) ;;
                      write b (fst (cell_of k)) v) l buffer =
  copy_cells src (map cell_of l) buffer.
Proof.
  unfold copy_cells.
  revert buffer. induction l as [| k l IH]; intros buffer; simpl.
  - reflexivity.
  - destruct (bind (read src (snd (cell_of k))) _) as [b | e |]; simpl;
      [apply IH | |]; reflexivity.
Qed.

(** Copies inside the two buffers all go through; the buffer keeps its
    length, is untouched off the destinations, and at every destination
    holds the source cell copied there. *)
Lemma copy_cells_spec {A : Type} (src : list A) (cells : list (Z * Z))
  (buffer : list A) :
  cells_in_range src buffer cells ->
  exists b,
    copy_cells src cells buffer = Returns b
    /\ List.length b = List.length buffer
    /\ (forall p, 0 <= p -> ~ In p (map fst cells) ->
                  nth_error b (Z.to_nat p) = nth_error buffer (Z.to_nat p))
    /\ (consistent cells ->
        forall c, In c cells ->
                  nth_error b (Z.to_nat (fst c))
                  = nth_error src (Z.to_nat (snd c))).
Proof.
  revert buffer. induction cells as [| c cells IH]; intros buffer Hrange.
  - exists buffer. repeat split; try reflexivity.
    intros _ c [].
  - destruct (Hrange c (or_introl eq_refl)) as [Hd Hs].
    destruct (read_in_range src (snd c) Hs) as (v & Hread & Hv).
    pose proof (write_in_range buffer (fst c) v Hd) as Hwrite.
    set (buffer' := update buffer (Z.to_nat (fst c)) v) in *.
    assert (Hlen' : List.length buffer' = List.length buffer)
      by apply length_update.
    destruct (IH buffer') as (b & Hrun & Hlen & Hkeep & Hcopied).
    { intros c' Hc'. rewrite Hlen'. apply Hrange. right. exact Hc'. }
    exists b. split; [| split; [| split]].
    + unfold copy_cells in *. simpl. rewrite Hread. simpl.
      rewrite Hwrite. simpl. exact Hrun.
    + rewrite Hlen. exact Hlen'.
    + intros p Hp Hnotin. simpl in Hnotin.
      rewrite Hkeep by tauto.
      apply nth_error_update_neq. intros Heq.
      apply Hnotin. left. lia.
    + intros Hcons c0 Hc0.
      destruct (in_dec Z.eq_dec (fst c0) (map fst cells)) as [Hin | Hnotin].
      * apply in_map_iff in Hin. destruct Hin as (c1 & Hfst & Hc1).
        rewrite <- Hfst.
        rewrite (Hcons c0 c1 Hc0 (or_intror Hc1) (eq_sym Hfst)).
        apply Hcopied; [| exact Hc1].
        intros x y Hx Hy. apply Hcons; right; assumption.
      * destruct Hc0 as [<- | Hc0].
        -- rewrite Hkeep by (tauto || lia).
           subst buffer'. rewrite nth_error_update_eq by lia.
           symmetry. exact Hv.
        -- elim Hnotin. apply in_map. exact Hc0.
Qed.

(** The order of the copies does not matter: two lists with the same,
    consistent cells leave the same buffer. *)
Lemma copy_cells_same_cells {A : Type} (src : list A)
  (cells1 cells2 : list (Z * Z)) (buffer : list A) :
  cells_in_range src buffer cells1 ->
  consistent cells1 ->
  (forall c, In c cells1 <-> In c cells2) ->
  copy_cells src cells1 buffer = copy_cells src cells2 buffer.
Proof.
  intros Hrange Hcons Hsame.
  assert (Hrange2 : cells_in_range src buffer cells2)
    by (intros c Hc; apply Hrange, Hsame, Hc).
  assert (Hcons2 : consistent cells2)
    by (intros c c' Hc Hc'; apply Hcons; apply Hsame; assumption).
  destruct (copy_cells_spec src cells1 buffer Hrange)
    as (b1 & -> & Hlen1 & Hkeep1 & Hcopied1).
  destruct (copy_cells_spec src cells2 buffer Hrange2)
    as (b2 & -> & Hlen2 & Hkeep2 & Hcopied2).
  f_equal. apply nth_error_ext. intros n.
  destruct (in_dec Z.eq_dec (Z.of_nat n) (map fst cells1)) as [Hin | Hnotin].
  - apply in_map_iff in Hin. destruct Hin as (c & Hfst & Hc).
    replace n with (Z.to_nat (fst c)) by lia.
    rewrite (Hcopied1 Hcons c Hc).
    rewrite (Hcopied2 Hcons2 c (proj1 (Hsame c) Hc)). reflexivity.
  - replace n with (Z.to_nat (Z.of_nat n)) by lia.
    rewrite Hkeep1 by (lia || exact Hnotin).
    rewrite Hkeep2; [reflexivity | lia |].
    intros Hin. apply Hnotin.
    apply in_map_iff in Hin. destruct Hin as (c & Hfst & Hc).
    apply in_map_iff. exists c. split; [exact Hfst | apply Hsame, Hc].
Qed.

Lemma bind_Returns_r {A : Type} (m : outcome A) :
  bind m (fun a => Returns a) = m.
Proof. destruct m; reflexivity. Qed.

Lemma copy_cells_single {A : Type} (src : list A) (c : Z * Z)
  (buffer : list A) :
  copy_cells src [c] buffer = v <- read src (snd c) ;; write buffer (fst c) v.
Proof.
  unfold copy_cells. simpl. apply bind_Returns_r.
Qed.

Lemma In_rows_cells (cells : Z -> Z -> Z -> list (Z * Z)) (f : Z -> Z)
  (A B : Z) (c : Z * Z) :
  In c (flat_map (fun i => flat_map (fun j => cells i (f i) j) (upto B))
                 (upto A))
  <-> exists i j, 0 <= i < A /\ 0 <= j < B /\ In c (cells i (f i) j).
Proof.
  rewrite in_flat_map. split.
  - intros (i & Hi & Hc). apply in_flat_map in Hc.
    destruct Hc as (j & Hj & Hc). apply In_upto in Hi, Hj.
    exists i, j. auto.
  - intros (i & j & Hi & Hj & Hc). exists i. split; [apply In_upto, Hi |].
    apply in_flat_map. exists j. split; [apply In_upto, Hj | exact Hc].
Qed.

Lemma In_cols_cells (cells : Z -> Z -> Z -> list (Z * Z)) (f : Z -> Z)
  (A B : Z) (c : Z * Z) :
  In c (flat_map (fun j => flat_map (fun i => cells i (f i) j) (upto A))
                 (upto B))
  <-> exists i j, 0 <= i < A /\ 0 <= j < B /\ In c (cells i (f i) j).
Proof.
  rewrite in_flat_map. split.
  - intros (j & Hj & Hc). apply in_flat_map in Hc.
    destruct Hc as (i & Hi & Hc). apply In_upto in Hi, Hj.
    exists i, j. auto.
  - intros (i & j & Hi & Hj & Hc). exists j. split; [apply In_upto, Hj |].
    apply in_flat_map. exists i. split; [apply In_upto, Hi | exact Hc].
Qed.

Lemma in_range_at (indices : list Z) (bound i : Z) :
  in_range indices bound -> 0 <= i < Z.of_nat (List.length indices) ->
  0 <= at_ indices i < bound.
Proof.
  unfold in_range, at_. rewrite Forall_forall. intros Hall Hi.
  apply Hall. apply nth_In. lia.
Qed.

Lemma in_range_from_at (indices : list Z) (bound : Z) :
  (forall i, 0 <= i < Z.of_nat (List.length indices) ->
             0 <= at_ indices i < bound) ->
  in_range indices bound.
Proof.
  unfold in_range, at_. rewrite Forall_forall. intros Hat x Hx.
  destruct (In_nth indices x 0 Hx) as (k & Hk & <-).
  specialize (Hat (Z.of_nat k)). rewrite Nat2Z.id in Hat. apply Hat. lia.
Qed.

(** Either every position below [n] passes a test, or there is a first
    one that fails it. *)
Lemma first_false (f : Z -> bool) (n : Z) :
  0 <= n ->
  (forall i, 0 <= i < n -> f i = true)
  \/ (exists i0, 0 <= i0 < n /\ f i0 = false
                 /\ forall i, 0 <= i < i0 -> f i = true).
Proof.
  intros Hn. pattern n. apply natlike_ind; [| | exact Hn].
  - left. intros i Hi. lia.
  - intros m Hm [Hall | (i0 & Hi0 & Hf & Hbefore)].
    + destruct (f m) eqn:Hfm.
      * left. intros i Hi.
        destruct (Z.eq_dec i m) as [-> | Hne]; [exact Hfm | apply Hall; lia].
      * right. exists m. repeat split; try lia; assumption.
    + right. exists i0. repeat split; try lia; assumption.
Qed.

Section Loops.

Context {A : Type}.
Variable src : list A.
Variable indices : list Z.
Variable valid : Z -> bool.
Variable msg : string.
Variable inner : Z -> Z -> Z -> list A -> outcome (list A).
Variable cells : Z -> Z -> Z -> list (Z * Z).
Variable fl : Z.

(** The loop with the index as the outer variable, over positions whose
    index passes the check: one batch of copies per position. *)
Lemma rows_loop (l : list Z) (buffer : list A) :
  (forall i, In i l ->
             0 <= i < Z.of_nat (List.length indices)
             /\ valid (at_ indices i) = true) ->
  (forall i j b, In i l -> 0 <= j < fl ->
                 inner i (at_ indices i) j b
                 = copy_cells src (cells i (at_ indices i) j) b) ->
  iterate (fun i b =>
             source_i <- read indices i ;;
             _ <- TORCH_CHECK_INDEX (valid source_i) msg ;;
             iterate (fun j b => inner i source_i j b) (upto fl) b)
          l buffer
  = copy_cells src
      (flat_map (fun i => flat_map (fun j => cells i (at_ indices i) j)
                                   (upto fl)) l)
      buffer.
Proof.
  intros Hl Hinner.
  rewrite <- iterate_copy_cells.
  apply iterate_ext_in. intros i b Hi.
  destruct (Hl i Hi) as [Hrange Hvalid].
  rewrite (read_at indices i Hrange). simpl. rewrite Hvalid. simpl.
  rewrite <- iterate_copy_cells.
  apply iterate_ext_in. intros j b' Hj.
  apply Hinner; [exact Hi | apply In_upto; exact Hj].
Qed.

(** The same with the index as the inner variable. *)
Lemma cols_loop (l : list Z) (buffer : list A) :
  (forall i, In i l ->
             0 <= i < Z.of_nat (List.length indices)
             /\ valid (at_ indices i) = true) ->
  (forall i j b, In i l -> 0 <= j < fl ->
                 inner i (at_ indices i) j b
                 = copy_cells src (cells i (at_ indices i) j) b) ->
  iterate (fun j b =>
             iterate (fun i b =>
                        source_i <- read indices i ;;
                        _ <- TORCH_CHECK_INDEX (valid source_i) msg ;;
                        inner i source_i j b)
                     l b)
          (upto fl) buffer
  = copy_cells src
      (flat_map (fun j => flat_map (fun i => cells i (at_ indices i) j) l)
                (upto fl))
      buffer.
Proof.
  intros Hl Hinner.
  rewrite <- iterate_copy_cells.
  apply iterate_ext_in. intros j b Hj.
  rewrite <- iterate_copy_cells.
  apply iterate_ext_in. intros i b' Hi.
  destruct (Hl i Hi) as [Hrange Hvalid].
  rewrite (read_at indices i Hrange). simpl. rewrite Hvalid. simpl.
  apply Hinner; [exact Hi | apply In_upto; exact Hj].
Qed.

(** With a first index that fails the check, the loop that checks once
    per position throws; the loop that checks inside the inner loop throws
    when the inner loop is entered, that is when [fl] is positive, and
    otherwise returns having checked nothing. *)
Lemma loops_throw (i0 : Z) (buffer : list A) :
  0 <= i0 < Z.of_nat (List.length indices) ->
  valid (at_ indices i0) = false ->
  (forall i, 0 <= i < i0 -> valid (at_ indices i) = true) ->
  (forall i j b, 0 <= i < i0 -> 0 <= j < fl ->
                 inner i (at_ indices i) j b
                 = copy_cells src (cells i (at_ indices i) j) b) ->
  (forall i j c, 0 <= i < i0 -> 0 <= j < fl ->
                 In c (cells i (at_ indices i) j) ->
                 0 <= fst c < Z.of_nat (List.length buffer)
                 /\ 0 <= snd c < Z.of_nat (List.length src)) ->
  iterate (fun i b =>
             source_i <- read indices i ;;
             _ <- TORCH_CHECK_INDEX (valid source_i) msg ;;
             iterate (fun j b => inner i source_i j b) (upto fl) b)
          (upto (Z.of_nat (List.length indices))) buffer
  = Throws (IndexError msg)
  /\ iterate (fun j b =>
                iterate (fun i b =>
                           source_i <- read indices i ;;
                           _ <- TORCH_CHECK_INDEX (valid source_i) msg ;;
                           inner i source_i j b)
                        (upto (Z.of_nat (List.length indices))) b)
             (upto fl) buffer
     = (if 0 <? fl then Throws (IndexError msg) else Returns buffer).
Proof.
  intros Hi0 Hbad Hgood Hinner Hrange.
  destruct (upto_split _ i0 Hi0) as [rest Hsplit].
  assert (Hprefix : forall i, In i (upto i0) ->
             0 <= i < Z.of_nat (List.length indices)
             /\ valid (at_ indices i) = true).
  { intros i Hi. apply In_upto in Hi. split; [lia | apply Hgood; lia]. }
  split.
  - rewrite Hsplit, iterate_app.
    rewrite (rows_loop (upto i0) buffer Hprefix)
      by (intros i j b Hi Hj; apply In_upto in Hi; apply Hinner; lia).
    destruct (copy_cells_spec src
                (flat_map (fun i => flat_map
                             (fun j => cells i (at_ indices i) j)
                             (upto fl)) (upto i0)) buffer)
      as (b & -> & _).
    { intros c Hc. apply in_flat_map in Hc. destruct Hc as (i & Hi & Hc).
      apply in_flat_map in Hc. destruct Hc as (j & Hj & Hc).
      apply In_upto in Hi, Hj. apply (Hrange i j c); auto. }
    simpl. rewrite (read_at indices i0 Hi0). simpl. rewrite Hbad.
    reflexivity.
  - destruct (0 <? fl) eqn:Hfl.
    + apply Z.ltb_lt in Hfl.
      destruct (upto_first fl Hfl) as [rest' ->]. simpl.
      rewrite Hsplit, iterate_app.
      assert (Hpre :
        iterate (fun i b =>
                   source_i <- read indices i ;;
                   _ <- TORCH_CHECK_INDEX (valid source_i) msg ;;
                   inner i source_i 0 b) (upto i0) buffer
        = copy_cells src
            (flat_map (fun i => cells i (at_ indices i) 0) (upto i0))
            buffer).
      { rewrite <- iterate_copy_cells.
        apply iterate_ext_in. intros i b Hi.
        destruct (Hprefix i Hi) as [Hr Hv].
        rewrite (read_at indices i Hr). simpl. rewrite Hv. simpl.
        apply In_upto in Hi. apply Hinner; lia. }
      rewrite Hpre.
      destruct (copy_cells_spec src
                  (flat_map (fun i => cells i (at_ indices i) 0) (upto i0))
                  buffer) as (b & -> & _).
      { intros c Hc. apply in_flat_map in Hc. destruct Hc as (i & Hi & Hc).
        apply In_upto in Hi. apply (Hrange i 0 c); auto. lia. }
      simpl. rewrite (read_at indices i0 Hi0). simpl. rewrite Hbad.
      reflexivity.
    + apply Z.ltb_ge in Hfl. rewrite (upto_nonpos fl Hfl). reflexivity.
Qed.

End Loops.

End Buffer_facts.

Module Kernel_facts.

Import c10 c10_facts TensorView TensorIndexPrototypeKernel Gather.
Import Buffer_facts.
Local Open Scope outcome_scope.
Local Open Scope Z_scope.
Local Unset Implicit Arguments.

Lemma assert_special_case_passes {cell : Type} (self : Tensor cell)
  (index : Tensor Z) (d rows cols cell_size : Z) :
  matrix self rows cols cell_size -> vector index -> d = 0 \/ d = 1 ->
  assert_special_case self index d = Returns tt.
Proof.
  intros (Hs & Hc & _) (Hi & _) Hd. unfold assert_special_case, dim.
  rewrite Hs, Hi, Hc. simpl.
  destruct Hd as [-> | ->]; reflexivity.
Qed.

Lemma numel_vector {cell : Type} (index : Tensor cell) :
  vector index -> numel index = Z.of_nat (List.length (data index)).
Proof.
  intros (Hi & _). unfold numel, product. rewrite Hi. simpl. lia.
Qed.

(** The copies of the [dim = 0] kernels stay inside the buffers and are
    consistent. *)
Lemma dim0_cells_in_range {A : Type} (src buffer : list A)
  (indices : list Z) (n rows cols i j : Z) (c : Z * Z) :
  Z.of_nat (List.length src) = rows * cols ->
  Z.of_nat (List.length buffer) = n * cols ->
  0 <= i < n -> 0 <= at_ indices i < rows -> 0 <= j < cols ->
  In c (dim0_cells cols i (at_ indices i) j) ->
  0 <= fst c < Z.of_nat (List.length buffer)
  /\ 0 <= snd c < Z.of_nat (List.length src).
Proof.
  intros Hsrc Hbuf Hi Hs Hj [<- | []]. simpl. rewrite Hsrc, Hbuf. nia.
Qed.

Lemma dim0_cells_consistent (indices : list Z) (cols : Z)
  (i j i' j' : Z) (c c' : Z * Z) :
  0 <= j < cols -> 0 <= j' < cols ->
  In c (dim0_cells cols i (at_ indices i) j) ->
  In c' (dim0_cells cols i' (at_ indices i') j') ->
  fst c = fst c' -> snd c = snd c'.
Proof.
  intros Hj Hj' [<- | []] [<- | []]. simpl. intros Heq.
  destruct (Z.div_mod_unique cols i i' j j') as [-> ->];
    [left; exact Hj | left; exact Hj' | lia | reflexivity].
Qed.

(** The copies of the [dim = 1] element kernel. *)
Lemma dim1_cells_in_range {A : Type} (src buffer : list A)
  (indices : list Z) (n rows cols i j : Z) (c : Z * Z) :
  Z.of_nat (List.length src) = rows * cols ->
  Z.of_nat (List.length buffer) = rows * n ->
  0 <= i < n -> 0 <= at_ indices i < cols -> 0 <= j < rows ->
  In c (dim1_cells n cols i (at_ indices i) j) ->
  0 <= fst c < Z.of_nat (List.length buffer)
  /\ 0 <= snd c < Z.of_nat (List.length src).
Proof.
  intros Hsrc Hbuf Hi Hs Hj [<- | []]. simpl. rewrite Hsrc, Hbuf. nia.
Qed.

Lemma dim1_cells_consistent (indices : list Z) (n cols : Z)
  (i j i' j' : Z) (c c' : Z * Z) :
  0 <= i < n -> 0 <= i' < n ->
  In c (dim1_cells n cols i (at_ indices i) j) ->
  In c' (dim1_cells n cols i' (at_ indices i') j') ->
  fst c = fst c' -> snd c = snd c'.
Proof.
  intros Hi Hi' [<- | []] [<- | []]. simpl. intros Heq.
  destruct (Z.div_mod_unique n j j' i i') as [-> ->];
    [left; exact Hi | left; exact Hi' | lia | reflexivity].
Qed.

(** The copies of the [dim = 1] byte kernel. *)
Lemma dim1_byte_cells_in_range {A : Type} (src buffer : list A)
  (indices : list Z) (n rows cols ts i j : Z) (c : Z * Z) :
  Z.of_nat (List.length src) = rows * cols * ts ->
  Z.of_nat (List.length buffer) = rows * n * ts ->
  0 <= i < n -> 0 <= at_ indices i < cols -> 0 <= j < rows ->
  In c (dim1_byte_cells n cols ts i (at_ indices i) j) ->
  0 <= fst c < Z.of_nat (List.length buffer)
  /\ 0 <= snd c < Z.of_nat (List.length src).
Proof.
  intros Hsrc Hbuf Hi Hs Hj Hc. unfold dim1_byte_cells in Hc.
  apply in_map_iff in Hc. destruct Hc as (k & <- & Hk).
  apply In_upto in Hk. simpl. rewrite Hsrc, Hbuf.
  assert (0 <= i + j * n <= rows * n - 1) by nia.
  assert (0 <= at_ indices i + j * cols <= rows * cols - 1) by nia.
  nia.
Qed.

Lemma dim1_byte_cells_consistent (indices : list Z) (n cols ts : Z)
  (i j i' j' : Z) (c c' : Z * Z) :
  0 <= i < n -> 0 <= i' < n ->
  In c (dim1_byte_cells n cols ts i (at_ indices i) j) ->
  In c' (dim1_byte_cells n cols ts i' (at_ indices i') j') ->
  fst c = fst c' -> snd c = snd c'.
Proof.
  intros Hi Hi' Hc Hc'. unfold dim1_byte_cells in Hc, Hc'.
  apply in_map_iff in Hc, Hc'.
  destruct Hc as (k & <- & Hk). destruct Hc' as (k' & <- & Hk').
  apply In_upto in Hk, Hk'. simpl. intros Heq.
  destruct (Z.div_mod_unique ts (i + j * n) (i' + j' * n) k k')
    as [Hq ->]; [left; exact Hk | left; exact Hk' | lia |].
  destruct (Z.div_mod_unique n j j' i i') as [-> ->];
    [left; exact Hi | left; exact Hi' | lia | reflexivity].
Qed.

Section Kernels.

Variable scalar_t : Type.
Variable char : Type.
Variable resize_ : forall cell : Type, Tensor cell -> IntArrayRef -> Tensor cell.
Variable elementSize : Tensor char -> Z.
Variable scalar_type_dispatched : Tensor scalar_t -> bool.
Variable not_implemented : string -> Tensor scalar_t -> string.

Ltac prelude Hself Hindex d :=
  rewrite (assert_special_case_passes _ _ d _ _ _ Hself Hindex
             ltac:(first [left; reflexivity | right; reflexivity]));
  rewrite (numel_vector _ Hindex);
  let Hs := fresh "Hs" in
  let Hc := fresh "Hc" in
  let Hrows := fresh "Hrows" in
  let Hcols := fresh "Hcols" in
  let Hlen := fresh "Hlen" in
  let Hfit := fresh "Hfit" in
  let Hsi := fresh "Hsi" in
  let Hn63 := fresh "Hn63" in
  destruct Hself as (Hs & Hc & Hrows & Hcols & Hlen & Hfit);
  destruct Hindex as (Hsi & Hn63);
  unfold size; rewrite Hs;
  do 2 (cbn [bind write read List.length update nth_error Z.to_nat Z.of_nat
             Pos.of_succ_nat Pos.succ Z.leb Z.ltb Z.compare Pos.compare
             Pos.compare_cont andb Z.sub Z.opp Z.add Z.pos_sub Pos.to_nat
             Pos.iter_op Init.Nat.add];
        try change (Pos.to_nat 1) with 1%nat).

(** With every index in range, the [dim = 0] element kernel is its
    copies, in the order of its loops. *)
Lemma ptr_assign_dim0_run (NUMEL_OUTER : bool)
  (result self : Tensor scalar_t) (index : Tensor Z) (rows cols : Z) :
  matrix self rows cols 1 -> vector index ->
  Z.of_nat (List.length (data index)) * cols < 2 ^ 64 ->
  scalar_type_dispatched self = true ->
  in_range (data index) rows ->
  index_select_ptr_assign_dim0_kernel resize_ scalar_type_dispatched
    not_implemented NUMEL_OUTER result self index
  = b <- copy_cells (data self)
           (if NUMEL_OUTER
            then flat_map
                   (fun i => flat_map
                      (fun j => dim0_cells cols i (at_ (data index) i) j)
                      (upto cols))
                   (upto (Z.of_nat (List.length (data index))))
            else flat_map
                   (fun j => flat_map
                      (fun i => dim0_cells cols i (at_ (data index) i) j)
                      (upto (Z.of_nat (List.length (data index)))))
                   (upto cols))
           (data (resize_ scalar_t result
                    [Z.of_nat (List.length (data index)); cols])) ;;
    Returns (with_data
               (resize_ scalar_t result
                  [Z.of_nat (List.length (data index)); cols]) b).
Proof.
  intros Hself Hindex Hfit_res Hdisp Hvalid.
  unfold index_select_ptr_assign_dim0_kernel.
  prelude Hself Hindex 0.
  set (indices := data index) in *.
  set (n := Z.of_nat (List.length indices)) in *.
  rewrite (to_size_t_small cols) by lia.
  rewrite (to_size_t_small n) by lia.
  unfold AT_DISPATCH_ALL_TYPES_AND. rewrite Hdisp.
  unfold for_loop.
  assert (Hin : forall i, In i (upto n) ->
             0 <= i < Z.of_nat (List.length indices)
             /\ (0 <=? at_ indices i) && (at_ indices i <? rows) = true).
  { intros i Hi. apply In_upto in Hi. split; [exact Hi |].
    pose proof (in_range_at indices rows i Hvalid Hi).
    apply andb_true_iff. split; [apply Z.leb_le | apply Z.ltb_lt]; lia. }
  assert (Hinner : forall i j (b : list scalar_t),
     In i (upto n) -> 0 <= j < cols ->
     (v <- read (data self) (to_size_t (at_ indices i * cols) + j) ;;
      write b (to_size_t (i * cols) + j) v)
     = copy_cells (data self) (dim0_cells cols i (at_ indices i) j) b).
  { intros i j b Hi Hj. apply In_upto in Hi.
    pose proof (in_range_at indices rows i Hvalid Hi).
    unfold dim0_cells. rewrite copy_cells_single. simpl.
    rewrite !to_size_t_small by nia. reflexivity. }
  destruct NUMEL_OUTER.
  - pose proof (rows_loop (data self) indices
                  (fun s => (0 <=? s) && (s <? rows))
                  "index out of range in self"
                  (fun i s j b =>
                     v <- read (data self) (to_size_t (s * cols) + j) ;;
                     write b (to_size_t (i * cols) + j) v)
                  (dim0_cells cols) cols (upto n)
                  (data (resize_ scalar_t result [n; cols])) Hin Hinner)
      as Hloop.
    cbv beta in Hloop. rewrite Hloop. reflexivity.
  - pose proof (cols_loop (data self) indices
                  (fun s => (0 <=? s) && (s <? rows))
                  "index out of range in self"
                  (fun i s j b =>
                     v <- read (data self) (to_size_t (s * cols) + j) ;;
                     write b (to_size_t (i * cols) + j) v)
                  (dim0_cells cols) cols (upto n)
                  (data (resize_ scalar_t result [n; cols])) Hin Hinner)
      as Hloop.
    cbv beta in Hloop. rewrite Hloop. reflexivity.
Qed.

(** [index_select_ptr_assign_dim0_kernel], every index in range: both
    instantiations return the resized result with one and the same
    buffer, whose row [i] is row [index[i]] of [self]. *)
Theorem ptr_assign_dim0_selects_rows (result self : Tensor scalar_t)
  (index : Tensor Z) (rows cols : Z) :
  let n := Z.of_nat (List.length (data index)) in
  let resized := resize_ scalar_t result [n; cols] in
  matrix self rows cols 1 -> vector index ->
  Z.of_nat (List.length (data resized)) = n * cols ->
  n * cols < 2 ^ 64 ->
  scalar_type_dispatched self = true ->
  in_range (data index) rows ->
  exists buffer,
    (forall NUMEL_OUTER,
       index_select_ptr_assign_dim0_kernel resize_ scalar_type_dispatched
         not_implemented NUMEL_OUTER result self index
       = Returns (with_data resized buffer))
    /\ List.length buffer = List.length (data resized)
    /\ forall i j, 0 <= i < n -> 0 <= j < cols ->
         nth_error buffer (Z.to_nat (i * cols + j))
         = nth_error (data self)
             (Z.to_nat (at_ (data index) i * cols + j)).
Proof.
  intros n resized Hself Hindex Hres Hfit Hdisp Hvalid.
  pose proof Hself as (_ & _ & _ & _ & Hlen & _).
  set (cells_rows :=
    flat_map (fun i => flat_map
                (fun j => dim0_cells cols i (at_ (data index) i) j)
                (upto cols)) (upto n)).
  set (cells_cols :=
    flat_map (fun j => flat_map
                (fun i => dim0_cells cols i (at_ (data index) i) j)
                (upto n)) (upto cols)).
  assert (Hrange : cells_in_range (data self) (data resized) cells_rows).
  { intros c Hc. apply In_rows_cells in Hc.
    destruct Hc as (i & j & Hi & Hj & Hc).
    apply (dim0_cells_in_range (data self) (data resized) (data index)
             n rows cols i j c); try assumption; try lia.
    apply in_range_at; assumption. }
  assert (Hcons : consistent cells_rows).
  { intros c c' Hc Hc'. apply In_rows_cells in Hc, Hc'.
    destruct Hc as (i & j & Hi & Hj & Hc).
    destruct Hc' as (i' & j' & Hi' & Hj' & Hc').
    apply (dim0_cells_consistent (data index) cols i j i' j');
      assumption. }
  assert (Hsame : forall c, In c cells_rows <-> In c cells_cols).
  { intros c. unfold cells_rows, cells_cols.
    rewrite In_rows_cells, In_cols_cells. reflexivity. }
  destruct (copy_cells_spec (data self) cells_rows (data resized) Hrange)
    as (buffer & Hrun & Hlenb & _ & Hcopied).
  exists buffer. split; [| split].
  - intros NUMEL_OUTER.
    rewrite (ptr_assign_dim0_run NUMEL_OUTER result self index rows cols
               Hself Hindex Hfit Hdisp Hvalid).
    fold n resized cells_rows cells_cols.
    destruct NUMEL_OUTER.
    + rewrite Hrun. reflexivity.
    + rewrite <- (copy_cells_same_cells (data self) cells_rows cells_cols
                    (data resized) Hrange Hcons Hsame).
      rewrite Hrun. reflexivity.
  - exact Hlenb.
  - intros i j Hi Hj.
    apply (Hcopied Hcons (i * cols + j, at_ (data index) i * cols + j)).
    apply In_rows_cells. exists i, j. repeat split; try lia.
    left. reflexivity.
Qed.

(** [index_select_ptr_assign_dim0_kernel], an index out of range: the
    instantiation with the index loop outside throws [IndexError]; the one
    with the index loop inside throws it when [self] has columns, and with
    no columns it checks nothing and returns the resized result. *)
Theorem ptr_assign_dim0_rejects_bad_index (result self : Tensor scalar_t)
  (index : Tensor Z) (rows cols : Z) :
  let n := Z.of_nat (List.length (data index)) in
  let resized := resize_ scalar_t result [n; cols] in
  matrix self rows cols 1 -> vector index ->
  Z.of_nat (List.length (data resized)) = n * cols ->
  n * cols < 2 ^ 64 ->
  scalar_type_dispatched self = true ->
  ~ in_range (data index) rows ->
  index_select_ptr_assign_dim0_kernel resize_ scalar_type_dispatched
    not_implemented true result self index
  = Throws (IndexError "index out of range in self")
  /\ index_select_ptr_assign_dim0_kernel resize_ scalar_type_dispatched
       not_implemented false result self index
     = (if 0 <? cols
        then Throws (IndexError "index out of range in self")
        else Returns (with_data resized (data resized))).
Proof.
  intros n resized Hself Hindex Hres Hfit_res Hdisp Hbad.
  unfold index_select_ptr_assign_dim0_kernel.
  prelude Hself Hindex 0.
  set (indices := data index) in *.
  fold n resized.
  assert (Hn : 0 <= n < 2 ^ 63) by (subst n; lia).
  rewrite (to_size_t_small cols) by lia.
  rewrite (to_size_t_small n) by lia.
  unfold AT_DISPATCH_ALL_TYPES_AND. rewrite Hdisp.
  unfold for_loop.
  set (valid := fun s => (0 <=? s) && (s <? rows)).
  assert (Hvalid : forall s, valid s = true <-> 0 <= s < rows).
  { intros s. unfold valid. rewrite andb_true_iff, Z.leb_le, Z.ltb_lt.
    reflexivity. }
  destruct (first_false (fun i => valid (at_ indices i)) n (proj1 Hn))
    as [Hall | (i0 & Hi0 & Hf & Hbefore)].
  { elim Hbad. apply in_range_from_at. intros i Hi.
    apply Hvalid, Hall. exact Hi. }
  destruct (loops_throw (data self) indices valid
              "index out of range in self"
              (fun i s j b =>
                 v <- read (data self) (to_size_t (s * cols) + j) ;;
                 write b (to_size_t (i * cols) + j) v)
              (dim0_cells cols) cols i0 (data resized) Hi0 Hf Hbefore)
    as [Hrows_loop Hcols_loop].
  { intros i j b Hi Hj.
    pose proof (proj1 (Hvalid _) (Hbefore i Hi)).
    unfold dim0_cells. rewrite copy_cells_single. simpl.
    rewrite !to_size_t_small by nia. reflexivity. }
  { intros i j c Hi Hj Hcell.
    apply (dim0_cells_in_range (data self) (data resized) indices
             n rows cols i j c); try assumption; try lia.
    apply Hvalid, Hbefore, Hi. }
  fold n in Hrows_loop, Hcols_loop. unfold valid in *.
  cbv beta in Hrows_loop, Hcols_loop.
  rewrite Hrows_loop, Hcols_loop. split; [reflexivity |].
  destruct (0 <? cols); reflexivity.
Qed.

Lemma dim1_check (cols s : Z) :
  0 <= cols < 2 ^ 63 -> - 2 ^ 63 <= s < 2 ^ 63 ->
  ((0 <=? s) && (to_size_t s <? cols) = true <-> 0 <= s < cols).
Proof.
  intros Hcols Hs. rewrite andb_true_iff, Z.leb_le, Z.ltb_lt. split.
  - intros [H0 Hlt]. rewrite to_size_t_small in Hlt by lia. lia.
  - intros Hr. rewrite to_size_t_small by lia. lia.
Qed.

Lemma ptr_assign_dim1_run (NUMEL_OUTER : bool)
  (result self : Tensor scalar_t) (index : Tensor Z) (rows cols : Z) :
  matrix self rows cols 1 -> vector index ->
  scalar_type_dispatched self = true ->
  in_range (data index) cols ->
  index_select_ptr_assign_dim1_kernel resize_ scalar_type_dispatched
    not_implemented NUMEL_OUTER result self index
  = b <- copy_cells (data self)
           (if NUMEL_OUTER
            then flat_map
                   (fun i => flat_map
                      (fun j => dim1_cells
                                  (Z.of_nat (List.length (data index))) cols
                                  i (at_ (data index) i) j)
                      (upto rows))
                   (upto (Z.of_nat (List.length (data index))))
            else flat_map
                   (fun j => flat_map
                      (fun i => dim1_cells
                                  (Z.of_nat (List.length (data index))) cols
                                  i (at_ (data index) i) j)
                      (upto (Z.of_nat (List.length (data index)))))
                   (upto rows))
           (data (resize_ scalar_t result
                    [rows; Z.of_nat (List.length (data index))])) ;;
    Returns (with_data
               (resize_ scalar_t result
                  [rows; Z.of_nat (List.length (data index))]) b).
Proof.
  intros Hself Hindex Hdisp Hvalid.
  unfold index_select_ptr_assign_dim1_kernel.
  prelude Hself Hindex 1.
  set (indices := data index) in *.
  set (n := Z.of_nat (List.length indices)) in *.
  rewrite (to_size_t_small cols) by lia.
  rewrite (to_size_t_small rows) by lia.
  unfold AT_DISPATCH_ALL_TYPES_AND. rewrite Hdisp.
  unfold for_loop.
  assert (Hin : forall i, In i (upto n) ->
             0 <= i < Z.of_nat (List.length indices)
             /\ (0 <=? at_ indices i)
                && (to_size_t (at_ indices i) <? cols) = true).
  { intros i Hi. apply In_upto in Hi. split; [exact Hi |].
    pose proof (in_range_at indices cols i Hvalid Hi).
    apply dim1_check; lia. }
  assert (Hinner : forall i j (b : list scalar_t),
     In i (upto n) -> 0 <= j < rows ->
     (v <- read (data self)
             (to_size_t (at_ indices i + to_size_t (j * cols))) ;;
      write b (i + j * n) v)
     = copy_cells (data self) (dim1_cells n cols i (at_ indices i) j) b).
  { intros i j b Hi Hj. apply In_upto in Hi.
    pose proof (in_range_at indices cols i Hvalid Hi).
    unfold dim1_cells. rewrite copy_cells_single. simpl.
    rewrite (to_size_t_small (j * cols)) by nia.
    rewrite to_size_t_small by nia. reflexivity. }
  destruct NUMEL_OUTER.
  - pose proof (rows_loop (data self) indices
                  (fun s => (0 <=? s) && (to_size_t s <? cols))
                  "index out of range in self"
                  (fun i s j b =>
                     v <- read (data self)
                            (to_size_t (s + to_size_t (j * cols))) ;;
                     write b (i + j * n) v)
                  (dim1_cells n cols) rows (upto n)
                  (data (resize_ scalar_t result [rows; n])) Hin Hinner)
      as Hloop.
    cbv beta in Hloop. rewrite Hloop. reflexivity.
  - pose proof (cols_loop (data self) indices
                  (fun s => (0 <=? s) && (to_size_t s <? cols))
                  "index out of range in self"
                  (fun i s j b =>
                     v <- read (data self)
                            (to_size_t (s + to_size_t (j * cols))) ;;
                     write b (i + j * n) v)
                  (dim1_cells n cols) rows (upto n)
                  (data (resize_ scalar_t result [rows; n])) Hin Hinner)
      as Hloop.
    cbv beta in Hloop. rewrite Hloop. reflexivity.
Qed.

(** [index_select_ptr_assign_dim1_kernel], every index in range: both
    instantiations return the resized result with one and the same
    buffer, whose column [i] is column [index[i]] of [self]. *)
Theorem ptr_assign_dim1_selects_columns (result self : Tensor scalar_t)
  (index : Tensor Z) (rows cols : Z) :
  let n := Z.of_nat (List.length (data index)) in
  let resized := resize_ scalar_t result [rows; n] in
  matrix self rows cols 1 -> vector index ->
  Z.of_nat (List.length (data resized)) = rows * n ->
  scalar_type_dispatched self = true ->
  in_range (data index) cols ->
  exists buffer,
    (forall NUMEL_OUTER,
       index_select_ptr_assign_dim1_kernel resize_ scalar_type_dispatched
         not_implemented NUMEL_OUTER result self index
       = Returns (with_data resized buffer))
    /\ List.length buffer = List.length (data resized)
    /\ forall i j, 0 <= i < n -> 0 <= j < rows ->
         nth_error buffer (Z.to_nat (i + j * n))
         = nth_error (data self)
             (Z.to_nat (at_ (data index) i + j * cols)).
Proof.
  intros n resized Hself Hindex Hres Hdisp Hvalid.
  pose proof Hself as (_ & _ & _ & _ & Hlen & _).
  set (cells_rows :=
    flat_map (fun i => flat_map
                (fun j => dim1_cells n cols i (at_ (data index) i) j)
                (upto rows)) (upto n)).
  set (cells_cols :=
    flat_map (fun j => flat_map
                (fun i => dim1_cells n cols i (at_ (data index) i) j)
                (upto n)) (upto rows)).
  assert (Hrange : cells_in_range (data self) (data resized) cells_rows).
  { intros c Hc. apply In_rows_cells in Hc.
    destruct Hc as (i & j & Hi & Hj & Hc).
    apply (dim1_cells_in_range (data self) (data resized) (data index)
             n rows cols i j c); try assumption; try lia.
    apply in_range_at; assumption. }
  assert (Hcons : consistent cells_rows).
  { intros c c' Hc Hc'. apply In_rows_cells in Hc, Hc'.
    destruct Hc as (i & j & Hi & Hj & Hc).
    destruct Hc' as (i' & j' & Hi' & Hj' & Hc').
    apply (dim1_cells_consistent (data index) n cols i j i' j');
      assumption. }
  assert (Hsame : forall c, In c cells_rows <-> In c cells_cols).
  { intros c. unfold cells_rows, cells_cols.
    rewrite In_rows_cells, In_cols_cells. reflexivity. }
  destruct (copy_cells_spec (data self) cells_rows (data resized) Hrange)
    as (buffer & Hrun & Hlenb & _ & Hcopied).
  exists buffer. split; [| split].
  - intros NUMEL_OUTER.
    rewrite (ptr_assign_dim1_run NUMEL_OUTER result self index rows cols
               Hself Hindex Hdisp Hvalid).
    fold n resized cells_rows cells_cols.
    destruct NUMEL_OUTER.
    + rewrite Hrun. reflexivity.
    + rewrite <- (copy_cells_same_cells (data self) cells_rows cells_cols
                    (data resized) Hrange Hcons Hsame).
      rewrite Hrun. reflexivity.
  - exact Hlenb.
  - intros i j Hi Hj.
    apply (Hcopied Hcons (i + j * n, at_ (data index) i + j * cols)).
    apply In_rows_cells. exists i, j. repeat split; try lia.
    left. reflexivity.
Qed.

(** [index_select_ptr_assign_dim1_kernel], an index out of range: the
    instantiation with the index loop outside throws [IndexError]; the one
    with the index loop inside throws it when [self] has rows, and with no
    rows it checks nothing and returns the resized result. *)
Theorem ptr_assign_dim1_rejects_bad_index (result self : Tensor scalar_t)
  (index : Tensor Z) (rows cols : Z) :
  let n := Z.of_nat (List.length (data index)) in
  let resized := resize_ scalar_t result [rows; n] in
  matrix self rows cols 1 -> vector index ->
  Forall (fun s => - 2 ^ 63 <= s < 2 ^ 63) (data index) ->
  Z.of_nat (List.length (data resized)) = rows * n ->
  scalar_type_dispatched self = true ->
  ~ in_range (data index) cols ->
  index_select_ptr_assign_dim1_kernel resize_ scalar_type_dispatched
    not_implemented true result self index
  = Throws (IndexError "index out of range in self")
  /\ index_select_ptr_assign_dim1_kernel resize_ scalar_type_dispatched
       not_implemented false result self index
     = (if 0 <? rows
        then Throws (IndexError "index out of range in self")
        else Returns (with_data resized (data resized))).
Proof.
  intros n resized Hself Hindex Hint Hres Hdisp Hbad.
  unfold index_select_ptr_assign_dim1_kernel.
  prelude Hself Hindex 1.
  set (indices := data index) in *.
  fold n resized.
  assert (Hn : 0 <= n < 2 ^ 63) by (subst n; lia).
  rewrite (to_size_t_small cols) by lia.
  rewrite (to_size_t_small rows) by lia.
  unfold AT_DISPATCH_ALL_TYPES_AND. rewrite Hdisp.
  unfold for_loop.
  set (valid := fun s => (0 <=? s) && (to_size_t s <? cols)).
  assert (Hvalid : forall i, 0 <= i < n ->
             (valid (at_ indices i) = true <-> 0 <= at_ indices i < cols)).
  { intros i Hi. apply dim1_check; [lia |].
    rewrite Forall_forall in Hint. apply Hint.
    unfold at_. apply nth_In. lia. }
  destruct (first_false (fun i => valid (at_ indices i)) n (proj1 Hn))
    as [Hall | (i0 & Hi0 & Hf & Hbefore)].
  { elim Hbad. apply in_range_from_at. intros i Hi.
    apply Hvalid; [exact Hi | apply Hall; exact Hi]. }
  destruct (loops_throw (data self) indices valid
              "index out of range in self"
              (fun i s j b =>
                 v <- read (data self)
                        (to_size_t (s + to_size_t (j * cols))) ;;
                 write b (i + j * n) v)
              (dim1_cells n cols) rows i0 (data resized) Hi0 Hf Hbefore)
    as [Hrows_loop Hcols_loop].
  { intros i j b Hi Hj.
    pose proof (proj1 (Hvalid i ltac:(lia)) (Hbefore i Hi)).
    unfold dim1_cells. rewrite copy_cells_single. simpl.
    rewrite (to_size_t_small (j * cols)) by nia.
    rewrite to_size_t_small by nia. reflexivity. }
  { intros i j c Hi Hj Hcell.
    apply (dim1_cells_in_range (data self) (data resized) indices
             n rows cols i j c); try assumption; try lia.
    apply Hvalid; [lia | apply Hbefore, Hi]. }
  fold n in Hrows_loop, Hcols_loop. unfold valid in *.
  cbv beta in Hrows_loop, Hcols_loop.
  rewrite Hrows_loop, Hcols_loop. split; [reflexivity |].
  destruct (0 <? rows); reflexivity.
Qed.

(** [index_select_memcpy_dim0_numel_outer_kernel], every index in range:
    the resized result is returned, and the bytes of its row [i] are the
    bytes of row [index[i]] of [self]. *)
Theorem memcpy_dim0_copies_rows (result self : Tensor char)
  (index : Tensor Z) (rows cols : Z) :
  let n := Z.of_nat (List.length (data index)) in
  let type_size := elementSize self in
  let copy_bytes := cols * type_size in
  let resized := resize_ char result [n; cols] in
  matrix self rows cols type_size -> vector index ->
  0 <= type_size < 2 ^ 64 ->
  copy_bytes < 2 ^ 64 ->
  Z.of_nat (List.length (data resized)) = n * copy_bytes ->
  n * copy_bytes < 2 ^ 64 ->
  in_range (data index) rows ->
  exists buffer,
    index_select_memcpy_dim0_numel_outer_kernel resize_ elementSize
      result self index
    = Returns (with_data resized buffer)
    /\ List.length buffer = List.length (data resized)
    /\ forall i k, 0 <= i < n -> 0 <= k < copy_bytes ->
         nth_error buffer (Z.to_nat (i * copy_bytes + k))
         = nth_error (data self)
             (Z.to_nat (at_ (data index) i * copy_bytes + k)).
Proof.
  intros n ts cb resized Hself Hindex Hts Hcb Hres Hfit_res Hvalid.
  assert (Hlen' : Z.of_nat (List.length (data self)) = rows * cb).
  { destruct Hself as (_ & _ & _ & _ & Hlen & _). rewrite Hlen.
    subst cb. ring. }
  assert (Hfit' : rows * cb < 2 ^ 64).
  { destruct Hself as (_ & _ & _ & _ & _ & Hfit).
    replace (rows * cb) with (rows * cols * ts) by (subst cb; ring).
    exact Hfit. }
  set (cells :=
    flat_map (fun i => flat_map
                (fun k => dim0_cells cb i (at_ (data index) i) k)
                (upto cb)) (upto n)).
  assert (Hrange : cells_in_range (data self) (data resized) cells).
  { intros c Hc. apply In_rows_cells in Hc.
    destruct Hc as (i & k & Hi & Hk & Hc).
    apply (dim0_cells_in_range (data self) (data resized) (data index)
             n rows cb i k c); try assumption; try lia.
    apply in_range_at; assumption. }
  assert (Hcons : consistent cells).
  { intros c c' Hc Hc'. apply In_rows_cells in Hc, Hc'.
    destruct Hc as (i & k & Hi & Hk & Hc).
    destruct Hc' as (i' & k' & Hi' & Hk' & Hc').
    apply (dim0_cells_consistent (data index) cb i k i' k');
      assumption. }
  destruct (copy_cells_spec (data self) cells (data resized) Hrange)
    as (buffer & Hrun & Hlenb & _ & Hcopied).
  exists buffer. split; [| split].
  - unfold index_select_memcpy_dim0_numel_outer_kernel.
    prelude Hself Hindex 0.
    set (indices := data index) in *.
    fold n ts resized.
    assert (Hn : 0 <= n < 2 ^ 63) by (subst n; lia).
    rewrite (to_size_t_small cols) by lia.
    rewrite (to_size_t_small ts) by lia.
    fold cb.
    rewrite (to_size_t_small cb) by (subst cb; nia).
    rewrite (to_size_t_small n) by lia.
    unfold for_loop, memcpy, for_loop.
    assert (Hin : forall i, In i (upto n) ->
               0 <= i < Z.of_nat (List.length indices)
               /\ (0 <=? at_ indices i) && (at_ indices i <? rows) = true).
    { intros i Hi. apply In_upto in Hi. split; [exact Hi |].
      pose proof (in_range_at indices rows i Hvalid Hi).
      apply andb_true_iff. split; [apply Z.leb_le | apply Z.ltb_lt]; lia. }
    assert (Hinner : forall i k (b : list char),
       In i (upto n) -> 0 <= k < cb ->
       (c <- read (data self) (to_size_t (at_ indices i * cb) + k) ;;
        write b (to_size_t (i * cb) + k) c)
       = copy_cells (data self) (dim0_cells cb i (at_ indices i) k) b).
    { intros i k b Hi Hk. apply In_upto in Hi.
      pose proof (in_range_at indices rows i Hvalid Hi).
      unfold dim0_cells. rewrite copy_cells_single. simpl.
      rewrite !to_size_t_small by nia. reflexivity. }
    pose proof (rows_loop (data self) indices
                  (fun s => (0 <=? s) && (s <? rows))
                  "index out of range in self"
                  (fun i s k b =>
                     c <- read (data self) (to_size_t (s * cb) + k) ;;
                     write b (to_size_t (i * cb) + k) c)
                  (dim0_cells cb) cb (upto n) (data resized) Hin Hinner)
      as Hloop.
    cbv beta in Hloop. rewrite Hloop. fold cells. rewrite Hrun.
    reflexivity.
  - exact Hlenb.
  - intros i k Hi Hk.
    apply (Hcopied Hcons (i * cb + k, at_ (data index) i * cb + k)).
    apply In_rows_cells. exists i, k. repeat split; try lia.
    left. reflexivity.
Qed.

(** [index_select_memcpy_dim0_numel_outer_kernel], an index out of
    range: [IndexError]. *)
Theorem memcpy_dim0_rejects_bad_index (result self : Tensor char)
  (index : Tensor Z) (rows cols : Z) :
  let n := Z.of_nat (List.length (data index)) in
  let type_size := elementSize self in
  let copy_bytes := cols * type_size in
  let resized := resize_ char result [n; cols] in
  matrix self rows cols type_size -> vector index ->
  0 <= type_size < 2 ^ 64 ->
  copy_bytes < 2 ^ 64 ->
  Z.of_nat (List.length (data resized)) = n * copy_bytes ->
  n * copy_bytes < 2 ^ 64 ->
  ~ in_range (data index) rows ->
  index_select_memcpy_dim0_numel_outer_kernel resize_ elementSize
    result self index
  = Throws (IndexError "index out of range in self").
Proof.
  intros n ts cb resized Hself Hindex Hts Hcb Hres Hfit_res Hbad.
  assert (Hlen' : Z.of_nat (List.length (data self)) = rows * cb).
  { destruct Hself as (_ & _ & _ & _ & Hlen & _). rewrite Hlen.
    subst cb. ring. }
  assert (Hfit' : rows * cb < 2 ^ 64).
  { destruct Hself as (_ & _ & _ & _ & _ & Hfit).
    replace (rows * cb) with (rows * cols * ts) by (subst cb; ring).
    exact Hfit. }
  unfold index_select_memcpy_dim0_numel_outer_kernel.
  prelude Hself Hindex 0.
  set (indices := data index) in *.
  fold n ts resized.
  assert (Hn : 0 <= n < 2 ^ 63) by (subst n; lia).
  rewrite (to_size_t_small cols) by lia.
  rewrite (to_size_t_small ts) by lia.
  fold cb.
  rewrite (to_size_t_small cb) by (subst cb; nia).
  rewrite (to_size_t_small n) by lia.
  unfold for_loop, memcpy, for_loop.
  set (valid := fun s => (0 <=? s) && (s <? rows)).
  assert (Hvalid : forall s, valid s = true <-> 0 <= s < rows).
  { intros s. unfold valid. rewrite andb_true_iff, Z.leb_le, Z.ltb_lt.
    reflexivity. }
  destruct (first_false (fun i => valid (at_ indices i)) n (proj1 Hn))
    as [Hall | (i0 & Hi0 & Hf & Hbefore)].
  { elim Hbad. apply in_range_from_at. intros i Hi.
    apply Hvalid, Hall. exact Hi. }
  destruct (loops_throw (data self) indices valid
              "index out of range in self"
              (fun i s k b =>
                 c <- read (data self) (to_size_t (s * cb) + k) ;;
                 write b (to_size_t (i * cb) + k) c)
              (dim0_cells cb) cb i0 (data resized) Hi0 Hf Hbefore)
    as [Hrows_loop _].
  { intros i k b Hi Hk.
    pose proof (proj1 (Hvalid _) (Hbefore i Hi)).
    unfold dim0_cells. rewrite copy_cells_single. simpl.
    rewrite !to_size_t_small by nia. reflexivity. }
  { intros i k c Hi Hk Hcell.
    apply (dim0_cells_in_range (data self) (data resized) indices
             n rows cb i k c); try assumption; try lia.
    apply Hvalid, Hbefore, Hi. }
  fold n in Hrows_loop. unfold valid in *.
  cbv beta in Hrows_loop.
  rewrite Hrows_loop. reflexivity.
Qed.

(** The inner [memcpy] of the [dim = 1] byte kernel as its copies. *)
Lemma memcpy_dim1_inner (self_buffer : list char) (indices : list Z)
  (n rows cols ts i j : Z) (b : list char) :
  0 < ts < 2 ^ 64 ->
  rows * cols * ts < 2 ^ 64 -> rows * n * ts < 2 ^ 64 ->
  0 <= i < n -> 0 <= at_ indices i < cols -> 0 <= j < rows ->
  memcpy b (to_size_t ((i + j * n) * ts)) self_buffer
    (to_size_t (to_size_t (at_ indices i + to_size_t (j * cols)) * ts)) ts
  = copy_cells self_buffer (dim1_byte_cells n cols ts i (at_ indices i) j) b.
Proof.
  intros Hts Hfit Hfit_res Hi Hs Hj.
  assert (0 <= i + j * n <= rows * n - 1) by nia.
  assert (0 <= at_ indices i + j * cols <= rows * cols - 1) by nia.
  assert (rows * cols < 2 ^ 64) by nia.
  rewrite (to_size_t_small (j * cols)) by nia.
  rewrite (to_size_t_small (at_ indices i + j * cols)) by nia.
  rewrite (to_size_t_small ((at_ indices i + j * cols) * ts)) by nia.
  rewrite (to_size_t_small ((i + j * n) * ts)) by nia.
  unfold memcpy, for_loop, dim1_byte_cells.
  apply (iterate_cells self_buffer
           (fun k => ((i + j * n) * ts + k,
                      (at_ indices i + j * cols) * ts + k))).
Qed.

Lemma memcpy_dim1_run (NUMEL_OUTER : bool) (result self : Tensor char)
  (index : Tensor Z) (rows cols : Z) :
  let n := Z.of_nat (List.length (data index)) in
  let type_size := elementSize self in
  let resized := resize_ char result [rows; n] in
  matrix self rows cols type_size -> vector index ->
  0 < type_size < 2 ^ 64 ->
  rows * n * type_size < 2 ^ 64 ->
  in_range (data index) cols ->
  index_select_memcpy_dim1_kernel resize_ elementSize NUMEL_OUTER
    result self index
  = b <- copy_cells (data self)
           (if NUMEL_OUTER
            then flat_map
                   (fun i => flat_map
                      (fun j => dim1_byte_cells n cols type_size
                                  i (at_ (data index) i) j)
                      (upto rows))
                   (upto n)
            else flat_map
                   (fun j => flat_map
                      (fun i => dim1_byte_cells n cols type_size
                                  i (at_ (data index) i) j)
                      (upto n))
                   (upto rows))
           (data resized) ;;
    Returns (with_data resized b).
Proof.
  intros n ts resized Hself Hindex Hts Hfit_res Hvalid.
  pose proof Hself as (_ & _ & _ & _ & _ & Hfit_self).
  unfold index_select_memcpy_dim1_kernel.
  prelude Hself Hindex 1.
  set (indices := data index) in *.
  fold n ts resized.
  rewrite (to_size_t_small cols) by lia.
  rewrite (to_size_t_small rows) by lia.
  rewrite (to_size_t_small ts) by lia.
  unfold for_loop.
  assert (Hin : forall i, In i (upto n) ->
             0 <= i < Z.of_nat (List.length indices)
             /\ (0 <=? at_ indices i)
                && (to_size_t (at_ indices i) <? cols) = true).
  { intros i Hi. apply In_upto in Hi. split; [exact Hi |].
    pose proof (in_range_at indices cols i Hvalid Hi).
    apply dim1_check; lia. }
  assert (Hinner : forall i j (b : list char),
     In i (upto n) -> 0 <= j < rows ->
     memcpy b (to_size_t ((i + j * n) * ts)) (data self)
       (to_size_t (to_size_t (at_ indices i + to_size_t (j * cols)) * ts))
       ts
     = copy_cells (data self)
         (dim1_byte_cells n cols ts i (at_ indices i) j) b).
  { intros i j b Hi Hj. apply In_upto in Hi.
    apply (memcpy_dim1_inner (data self) indices n rows cols ts i j b);
      try assumption.
    apply in_range_at; assumption. }
  destruct NUMEL_OUTER.
  - pose proof (rows_loop (data self) indices
                  (fun s => (0 <=? s) && (to_size_t s <? cols))
                  "index out of range in self"
                  (fun i s j b =>
                     memcpy b (to_size_t ((i + j * n) * ts)) (data self)
                       (to_size_t (to_size_t (s + to_size_t (j * cols))
                                   * ts)) ts)
                  (dim1_byte_cells n cols ts) rows (upto n)
                  (data resized) Hin Hinner)
      as Hloop.
    cbv beta in Hloop. rewrite Hloop. reflexivity.
  - pose proof (cols_loop (data self) indices
                  (fun s => (0 <=? s) && (to_size_t s <? cols))
                  "index out of range in self"
                  (fun i s j b =>
                     memcpy b (to_size_t ((i + j * n) * ts)) (data self)
                       (to_size_t (to_size_t (s + to_size_t (j * cols))
                                   * ts)) ts)
                  (dim1_byte_cells n cols ts) rows (upto n)
                  (data resized) Hin Hinner)
      as Hloop.
    cbv beta in Hloop. rewrite Hloop. reflexivity.
Qed.

(** [index_select_memcpy_dim1_kernel], every index in range: both
    instantiations return the resized result with one and the same
    buffer, in which the bytes of element [(j, i)] are the bytes of
    element [(j, index[i])] of [self]. *)
Theorem memcpy_dim1_copies_columns (result self : Tensor char)
  (index : Tensor Z) (rows cols : Z) :
  let n := Z.of_nat (List.length (data index)) in
  let type_size := elementSize self in
  let resized := resize_ char result [rows; n] in
  matrix self rows cols type_size -> vector index ->
  0 < type_size < 2 ^ 64 ->
  Z.of_nat (List.length (data resized)) = rows * n * type_size ->
  rows * n * type_size < 2 ^ 64 ->
  in_range (data index) cols ->
  exists buffer,
    (forall NUMEL_OUTER,
       index_select_memcpy_dim1_kernel resize_ elementSize NUMEL_OUTER
         result self index
       = Returns (with_data resized buffer))
    /\ List.length buffer = List.length (data resized)
    /\ forall i j k, 0 <= i < n -> 0 <= j < rows -> 0 <= k < type_size ->
         nth_error buffer (Z.to_nat ((i + j * n) * type_size + k))
         = nth_error (data self)
             (Z.to_nat ((at_ (data index) i + j * cols) * type_size + k)).
Proof.
  intros n ts resized Hself Hindex Hts Hres Hfit_res Hvalid.
  pose proof Hself as (_ & _ & _ & _ & Hlen & _).
  set (cells_rows :=
    flat_map (fun i => flat_map
                (fun j => dim1_byte_cells n cols ts i (at_ (data index) i) j)
                (upto rows)) (upto n)).
  set (cells_cols :=
    flat_map (fun j => flat_map
                (fun i => dim1_byte_cells n cols ts i (at_ (data index) i) j)
                (upto n)) (upto rows)).
  assert (Hrange : cells_in_range (data self) (data resized) cells_rows).
  { intros c Hc. apply In_rows_cells in Hc.
    destruct Hc as (i & j & Hi & Hj & Hc).
    apply (dim1_byte_cells_in_range (data self) (data resized) (data index)
             n rows cols ts i j c); try assumption; try lia.
    apply in_range_at; assumption. }
  assert (Hcons : consistent cells_rows).
  { intros c c' Hc Hc'. apply In_rows_cells in Hc, Hc'.
    destruct Hc as (i & j & Hi & Hj & Hc).
    destruct Hc' as (i' & j' & Hi' & Hj' & Hc').
    apply (dim1_byte_cells_consistent (data index) n cols ts i j i' j');
      assumption. }
  assert (Hsame : forall c, In c cells_rows <-> In c cells_cols).
  { intros c. unfold cells_rows, cells_cols.
    rewrite In_rows_cells, In_cols_cells. reflexivity. }
  destruct (copy_cells_spec (data self) cells_rows (data resized) Hrange)
    as (buffer & Hrun & Hlenb & _ & Hcopied).
  exists buffer. split; [| split].
  - intros NUMEL_OUTER.
    rewrite (memcpy_dim1_run NUMEL_OUTER result self index rows cols
               Hself Hindex Hts Hfit_res Hvalid).
    fold n ts resized cells_rows cells_cols.
    destruct NUMEL_OUTER.
    + rewrite Hrun. reflexivity.
    + rewrite <- (copy_cells_same_cells (data self) cells_rows cells_cols
                    (data resized) Hrange Hcons Hsame).
      rewrite Hrun. reflexivity.
  - exact Hlenb.
  - intros i j k Hi Hj Hk.
    apply (Hcopied Hcons ((i + j * n) * ts + k,
                          (at_ (data index) i + j * cols) * ts + k)).
    apply In_rows_cells. exists i, j. repeat split; try lia.
    unfold dim1_byte_cells. apply in_map_iff. exists k.
    split; [reflexivity | apply In_upto; exact Hk].
Qed.

(** [index_select_memcpy_dim1_kernel], an index out of range: as for the
    element kernel, the instantiation that checks inside the inner loop
    throws only when [self] has rows. *)
Theorem memcpy_dim1_rejects_bad_index (result self : Tensor char)
  (index : Tensor Z) (rows cols : Z) :
  let n := Z.of_nat (List.length (data index)) in
  let type_size := elementSize self in
  let resized := resize_ char result [rows; n] in
  matrix self rows cols type_size -> vector index ->
  Forall (fun s => - 2 ^ 63 <= s < 2 ^ 63) (data index) ->
  0 < type_size < 2 ^ 64 ->
  Z.of_nat (List.length (data resized)) = rows * n * type_size ->
  rows * n * type_size < 2 ^ 64 ->
  ~ in_range (data index) cols ->
  index_select_memcpy_dim1_kernel resize_ elementSize true
    result self index
  = Throws (IndexError "index out of range in self")
  /\ index_select_memcpy_dim1_kernel resize_ elementSize false
       result self index
     = (if 0 <? rows
        then Throws (IndexError "index out of range in self")
        else Returns (with_data resized (data resized))).
Proof.
  intros n ts resized Hself Hindex Hint Hts Hres Hfit_res Hbad.
  pose proof Hself as (_ & _ & _ & _ & Hlen_self & Hfit_self).
  unfold index_select_memcpy_dim1_kernel.
  prelude Hself Hindex 1.
  set (indices := data index) in *.
  fold n ts resized.
  assert (Hn : 0 <= n < 2 ^ 63) by (subst n; lia).
  rewrite (to_size_t_small cols) by lia.
  rewrite (to_size_t_small rows) by lia.
  rewrite (to_size_t_small ts) by lia.
  unfold for_loop.
  set (valid := fun s => (0 <=? s) && (to_size_t s <? cols)).
  assert (Hvalid : forall i, 0 <= i < n ->
             (valid (at_ indices i) = true <-> 0 <= at_ indices i < cols)).
  { intros i Hi. apply dim1_check; [lia |].
    rewrite Forall_forall in Hint. apply Hint.
    unfold at_. apply nth_In. lia. }
  destruct (first_false (fun i => valid (at_ indices i)) n (proj1 Hn))
    as [Hall | (i0 & Hi0 & Hf & Hbefore)].
  { elim Hbad. apply in_range_from_at. intros i Hi.
    apply Hvalid; [exact Hi | apply Hall; exact Hi]. }
  destruct (loops_throw (data self) indices valid
              "index out of range in self"
              (fun i s j b =>
                 memcpy b (to_size_t ((i + j * n) * ts)) (data self)
                   (to_size_t (to_size_t (s + to_size_t (j * cols)) * ts))
                   ts)
              (dim1_byte_cells n cols ts) rows i0 (data resized)
              Hi0 Hf Hbefore)
    as [Hrows_loop Hcols_loop].
  { intros i j b Hi Hj.
    apply (memcpy_dim1_inner (data self) indices n rows cols ts i j b);
      try assumption; try lia.
    apply Hvalid; [lia | apply Hbefore, Hi]. }
  { intros i j c Hi Hj Hcell.
    apply (dim1_byte_cells_in_range (data self) (data resized) indices
             n rows cols ts i j c); try assumption; try lia.
    apply Hvalid; [lia | apply Hbefore, Hi]. }
  fold n in Hrows_loop, Hcols_loop. unfold valid in *.
  cbv beta in Hrows_loop, Hcols_loop.
  rewrite Hrows_loop, Hcols_loop. split; [reflexivity |].
  destruct (0 <? rows); reflexivity.
Qed.


End Kernels.

End Kernel_facts.

(* ================================================================== *)
(** * The index kernels on sample tensors *)

Module Kernel_witnesses.

Import c10 TensorView TensorIndexPrototypeKernel Gather KernelSample.
Local Open Scope Z_scope.
Local Unset Implicit Arguments.

Ltac sample_matrix :=
  unfold matrix; simpl; repeat split; try reflexivity; try lia.
Ltac sample_vector :=
  unfold vector; simpl; split; reflexivity.
Ltac sample_in_range :=
  unfold in_range; simpl; repeat (apply Forall_cons; [lia |]);
  apply Forall_nil.
Ltac sample_out_of_range :=
  let H := fresh "H" in
  unfold in_range; simpl; intros H;
  apply Forall_inv_tail in H; apply Forall_inv in H; lia.

(** Rows 1, 0, 1 of the 2 by 3 matrix. *)
Lemma ptr_assign_dim0_selects_rows_witness :
  exists buffer,
    (forall NUMEL_OUTER,
       index_select_ptr_assign_dim0_kernel (resize_ 1)
         scalar_type_dispatched not_implemented NUMEL_OUTER result self
         index
       = Returns (mkTensor [3; 3] true buffer))
    /\ List.length buffer = 9%nat
    /\ forall i j, 0 <= i < 3 -> 0 <= j < 3 ->
         nth_error buffer (Z.to_nat (i * 3 + j))
         = nth_error (data self) (Z.to_nat (at_ (data index) i * 3 + j)).
Proof.
  refine (Kernel_facts.ptr_assign_dim0_selects_rows Z (resize_ 1)
            scalar_type_dispatched not_implemented result self index 2 3
            _ _ _ _ _ _).
  - sample_matrix.
  - sample_vector.
  - reflexivity.
  - reflexivity.
  - reflexivity.
  - sample_in_range.
Defined.

Example ptr_assign_dim0_sample :
  index_select_ptr_assign_dim0_kernel (resize_ 1) scalar_type_dispatched
    not_implemented true result self index
  = Returns (mkTensor [3; 3] true [20; 21; 22; 10; 11; 12; 20; 21; 22]).
Proof. vm_compute. reflexivity. Qed.

(** A matrix without columns and the index 5 of two rows: checked with
    the index loop outside, not with the index loop inside. *)
Lemma ptr_assign_dim0_rejects_bad_index_witness :
  index_select_ptr_assign_dim0_kernel (resize_ 1) scalar_type_dispatched
    not_implemented true result self_no_columns bad_index
  = Throws (IndexError "index out of range in self")
  /\ index_select_ptr_assign_dim0_kernel (resize_ 1) scalar_type_dispatched
       not_implemented false result self_no_columns bad_index
     = Returns (mkTensor [3; 0] true []).
Proof.
  refine (Kernel_facts.ptr_assign_dim0_rejects_bad_index Z (resize_ 1)
            scalar_type_dispatched not_implemented result self_no_columns
            bad_index 2 0 _ _ _ _ _ _).
  - sample_matrix.
  - sample_vector.
  - reflexivity.
  - reflexivity.
  - reflexivity.
  - sample_out_of_range.
Defined.

(** Columns 1, 0, 1 of the 2 by 3 matrix. *)
Lemma ptr_assign_dim1_selects_columns_witness :
  exists buffer,
    (forall NUMEL_OUTER,
       index_select_ptr_assign_dim1_kernel (resize_ 1)
         scalar_type_dispatched not_implemented NUMEL_OUTER result self
         index
       = Returns (mkTensor [2; 3] true buffer))
    /\ List.length buffer = 6%nat
    /\ forall i j, 0 <= i < 3 -> 0 <= j < 2 ->
         nth_error buffer (Z.to_nat (i + j * 3))
         = nth_error (data self) (Z.to_nat (at_ (data index) i + j * 3)).
Proof.
  refine (Kernel_facts.ptr_assign_dim1_selects_columns Z (resize_ 1)
            scalar_type_dispatched not_implemented result self index 2 3
            _ _ _ _ _).
  - sample_matrix.
  - sample_vector.
  - reflexivity.
  - reflexivity.
  - sample_in_range.
Defined.

Example ptr_assign_dim1_sample :
  index_select_ptr_assign_dim1_kernel (resize_ 1) scalar_type_dispatched
    not_implemented false result self index
  = Returns (mkTensor [2; 3] true [11; 10; 11; 21; 20; 21]).
Proof. vm_compute. reflexivity. Qed.

(** The index 5 of three columns. *)
Lemma ptr_assign_dim1_rejects_bad_index_witness :
  index_select_ptr_assign_dim1_kernel (resize_ 1) scalar_type_dispatched
    not_implemented true result self bad_index
  = Throws (IndexError "index out of range in self")
  /\ index_select_ptr_assign_dim1_kernel (resize_ 1) scalar_type_dispatched
       not_implemented false result self bad_index
     = Throws (IndexError "index out of range in self").
Proof.
  refine (Kernel_facts.ptr_assign_dim1_rejects_bad_index Z (resize_ 1)
            scalar_type_dispatched not_implemented result self bad_index
            2 3 _ _ _ _ _ _).
  - sample_matrix.
  - sample_vector.
  - simpl. repeat (apply Forall_cons; [lia |]). apply Forall_nil.
  - reflexivity.
  - reflexivity.
  - sample_out_of_range.
Defined.

(** The kernel that checks inside the inner loop, on a matrix without
    rows. *)
Example ptr_assign_dim1_no_rows :
  index_select_ptr_assign_dim1_kernel (resize_ 1) scalar_type_dispatched
    not_implemented true result self_no_rows bad_index
  = Throws (IndexError "index out of range in self")
  /\ index_select_ptr_assign_dim1_kernel (resize_ 1) scalar_type_dispatched
       not_implemented false result self_no_rows bad_index
     = Returns (mkTensor [0; 3] true []).
Proof. split; vm_compute; reflexivity. Qed.

(** Rows 1, 0, 1 of the 2 by 3 matrix of two-byte elements. *)
Lemma memcpy_dim0_copies_rows_witness :
  exists buffer,
    index_select_memcpy_dim0_numel_outer_kernel (resize_ 2) elementSize
      result self_bytes index
    = Returns (mkTensor [3; 3] true buffer)
    /\ List.length buffer = 18%nat
    /\ forall i k, 0 <= i < 3 -> 0 <= k < 6 ->
         nth_error buffer (Z.to_nat (i * 6 + k))
         = nth_error (data self_bytes)
             (Z.to_nat (at_ (data index) i * 6 + k)).
Proof.
  refine (Kernel_facts.memcpy_dim0_copies_rows Z (resize_ 2) elementSize
            result self_bytes index 2 3 _ _ _ _ _ _ _).
  - sample_matrix.
  - sample_vector.
  - unfold elementSize. lia.
  - reflexivity.
  - reflexivity.
  - reflexivity.
  - sample_in_range.
Defined.

Example memcpy_dim0_sample :
  index_select_memcpy_dim0_numel_outer_kernel (resize_ 2) elementSize
    result self_bytes index
  = Returns (mkTensor [3; 3] true
               [20; 0; 21; 0; 22; 0; 10; 0; 11; 0; 12; 0;
                20; 0; 21; 0; 22; 0]).
Proof. vm_compute. reflexivity. Qed.

Lemma memcpy_dim0_rejects_bad_index_witness :
  index_select_memcpy_dim0_numel_outer_kernel (resize_ 2) elementSize
    result self_bytes bad_index
  = Throws (IndexError "index out of range in self").
Proof.
  refine (Kernel_facts.memcpy_dim0_rejects_bad_index Z (resize_ 2)
            elementSize result self_bytes bad_index 2 3 _ _ _ _ _ _ _).
  - sample_matrix.
  - sample_vector.
  - unfold elementSize. lia.
  - reflexivity.
  - reflexivity.
  - reflexivity.
  - sample_out_of_range.
Defined.

(** Columns 1, 0, 1 of the 2 by 3 matrix of two-byte elements. *)
Lemma memcpy_dim1_copies_columns_witness :
  exists buffer,
    (forall NUMEL_OUTER,
       index_select_memcpy_dim1_kernel (resize_ 2) elementSize NUMEL_OUTER
         result self_bytes index
       = Returns (mkTensor [2; 3] true buffer))
    /\ List.length buffer = 12%nat
    /\ forall i j k, 0 <= i < 3 -> 0 <= j < 2 -> 0 <= k < 2 ->
         nth_error buffer (Z.to_nat ((i + j * 3) * 2 + k))
         = nth_error (data self_bytes)
             (Z.to_nat ((at_ (data index) i + j * 3) * 2 + k)).
Proof.
  refine (Kernel_facts.memcpy_dim1_copies_columns Z (resize_ 2) elementSize
            result self_bytes index 2 3 _ _ _ _ _ _).
  - sample_matrix.
  - sample_vector.
  - unfold elementSize. lia.
  - reflexivity.
  - reflexivity.
  - sample_in_range.
Defined.

Example memcpy_dim1_sample :
  index_select_memcpy_dim1_kernel (resize_ 2) elementSize true
    result self_bytes index
  = Returns (mkTensor [2; 3] true
               [11; 0; 10; 0; 11; 0; 21; 0; 20; 0; 21; 0]).
Proof. vm_compute. reflexivity. Qed.

Lemma memcpy_dim1_rejects_bad_index_witness :
  index_select_memcpy_dim1_kernel (resize_ 2) elementSize true
    result self_bytes bad_index
  = Throws (IndexError "index out of range in self")
  /\ index_select_memcpy_dim1_kernel (resize_ 2) elementSize false
       result self_bytes bad_index
     = Throws (IndexError "index out of range in self").
Proof.
  refine (Kernel_facts.memcpy_dim1_rejects_bad_index Z (resize_ 2)
            elementSize result self_bytes bad_index 2 3 _ _ _ _ _ _ _).
  - sample_matrix.
  - sample_vector.
  - simpl. repeat (apply Forall_cons; [lia |]). apply Forall_nil.
  - unfold elementSize. lia.
  - reflexivity.
  - reflexivity.
  - sample_out_of_range.
Defined.


End Kernel_witnesses.
